(** * A shallow embedding of [DataLoader] (src/data_loader.py)

    The report generator reads a pandas DataFrame, renames columns, validates
    and normalises it, and writes seven sheets into an openpyxl workbook.

    Modelling choices:
    - a cell value is [value]; pandas' missing values [None]/[NaN] are [VNone],
      [pd.NaT] is [VNaT]; numbers are exact rationals (IEEE rounding of float64
      additions is not modelled); a [pd.Timestamp] is [VStamp d] with [d] the
      number of days since 1970-01-01 (pandas' own epoch);
    - a DataFrame is a row count (the index length) and an ordered list of
      labelled columns, where labels may repeat as in pandas;
    - Python objects that the code mutates (the DataFrames behind [df] and
      [df_copy]) live in a store [heap] indexed by locations; the workbook
      being built and the files saved are part of the state;
    - exceptions are the [Err] branch of a state-and-error monad: the state
      reached when the exception is raised is kept, as in Python;
    - the cells a sheet generator writes are checked as openpyxl checks them
      (strings with control characters, rows past 1048576, columns past
      ZZZ are refused with an exception); the sheets' cell layout and
      formatting are not modelled, only the values written. *)

From Stdlib Require Import Ascii String List QArith Qround Qminmax ZArith Bool Lia Lqa Sorting Permutation.
From stdpp Require Import base gmap.
Import ListNotations.
Open Scope string_scope.

(* ------------------------------------------------------------------ *)
(** ** Values and numbers *)

Inductive value :=
| VNone                 (* None / float('nan') *)
| VNaT                  (* pd.NaT *)
| VNum (q : Q)          (* int / float / numpy number *)
| VStr (s : string)
| VStamp (d : Q).       (* pd.Timestamp, days since 1970-01-01 *)

(** [pd.isna] *)
Definition isna (v : value) : bool :=
  match v with VNone | VNaT => true | _ => false end.

Definition notna (v : value) : bool := negb (isna v).

Definition qltb (x y : Q) : bool := negb (Qle_bool y x).

(** Equality of group keys as pandas compares them (numerically for numbers). *)
Definition value_eqb (a b : value) : bool :=
  match a, b with
  | VNone, VNone | VNaT, VNaT => true
  | VNum x, VNum y => Qeq_bool x y
  | VStr x, VStr y => String.eqb x y
  | VStamp x, VStamp y => Qeq_bool x y
  | _, _ => false
  end.

(** Order of group keys ([groupby(..., sort=True)]): numbers, then strings,
    then timestamps, each kind in its natural order. *)
Definition value_rank (v : value) : nat :=
  match v with VNone => 0 | VNaT => 1 | VNum _ => 2 | VStr _ => 3 | VStamp _ => 4 end.

Definition value_ltb (a b : value) : bool :=
  match a, b with
  | VNum x, VNum y => qltb x y
  | VStr x, VStr y => String.ltb x y
  | VStamp x, VStamp y => qltb x y
  | _, _ => Nat.ltb (value_rank a) (value_rank b)
  end.

(** Results of float64 divisions: [x / 0.0] gives [inf], [-inf] or [nan]
    (numpy and pandas return these without raising). *)
Inductive ext := EFin (q : Q) | EPosInf | ENegInf | ENaN.

Definition fdiv (a b : Q) : ext :=
  if Qeq_bool b 0 then
    (if qltb 0 a then EPosInf else if qltb a 0 then ENegInf else ENaN)
  else EFin (a / b).

Definition emul (e : ext) (c : Q) : ext :=
  match e with EFin q => EFin (q * c) | _ => e end.

(** [e > c] for a finite [c]: false on [nan]. *)
Definition egt (e : ext) (c : Q) : bool :=
  match e with EFin q => qltb c q | EPosInf => true | _ => false end.

Fixpoint qsum (l : list Q) : Q :=
  match l with [] => 0 | x :: r => x + qsum r end.

Fixpoint somes {A} (l : list (option A)) : list A :=
  match l with
  | [] => []
  | Some x :: r => x :: somes r
  | None :: r => somes r
  end.

(** Numeric view of a normalised amount cell. *)
Definition amount_of (v : value) : option Q :=
  match v with VNum q => Some q | _ => None end.

(** [Series.sum()] (NaN skipped, 0 when nothing is left), [count()] and
    [mean()] (NaN when there is no value). *)
Definition series_sum (l : list value) : Q := qsum (somes (map amount_of l)).
Definition series_count (l : list value) : nat := length (somes (map amount_of l)).
Definition series_mean (l : list value) : ext :=
  match series_count l with
  | O => ENaN
  | n => EFin (series_sum l / inject_Z (Z.of_nat n))
  end.

Fixpoint dedup_vals (l : list value) : list value :=
  match l with
  | [] => []
  | x :: r => x :: List.filter (fun y => negb (value_eqb x y)) (dedup_vals r)
  end.

(** [Series.nunique()] *)
Definition nunique (l : list value) : nat := length (dedup_vals (List.filter notna l)).

(* ------------------------------------------------------------------ *)
(** ** Parsing: [pd.to_numeric(errors='coerce')] and [_parse_date] *)

Definition digit_of (c : Ascii.ascii) : option Z :=
  let n := Ascii.nat_of_ascii c in
  if (48 <=? n)%nat && (n <=? 57)%nat then Some (Z.of_nat (n - 48)) else None.

(** Digits of a string as a number and their count. *)
Fixpoint digits_acc (s : string) (acc : Z) (k : nat) : option (Z * nat) :=
  match s with
  | EmptyString => Some (acc, k)
  | String c r =>
      match digit_of c with
      | Some d => digits_acc r (10 * acc + d) (S k)
      | None => None
      end
  end.

Definition digits (s : string) : option (Z * nat) := digits_acc s 0 0.

(** [isspace_ascii] of pandas' tokenizer: blank, \t, \n, \v, \f, \r. *)
Definition is_space (c : Ascii.ascii) : bool :=
  let n := Ascii.nat_of_ascii c in (n =? 32)%nat || ((9 <=? n)%nat && (n <=? 13)%nat).

Fixpoint drop_spaces (s : string) : string :=
  match s with
  | String c r => if is_space c then drop_spaces r else s
  | EmptyString => EmptyString
  end.

Fixpoint drop_trailing_spaces (s : string) : string :=
  match s with
  | EmptyString => EmptyString
  | String c r =>
      let r' := drop_trailing_spaces r in
      if is_space c && String.eqb r' "" then "" else String c r'
  end.

(** The mantissa and, after the first [e] or [E], the exponent. *)
Fixpoint split_exponent (s : string) : string * option string :=
  match s with
  | EmptyString => (EmptyString, None)
  | String c r =>
      if Ascii.eqb c "e"%char || Ascii.eqb c "E"%char then (EmptyString, Some r)
      else let '(m, e) := split_exponent r in (String c m, e)
  end.

(** [ddd], [ddd.], [.ddd] or [ddd.ddd], with at least one digit. *)
Definition parse_mantissa (body : string) : option Q :=
  match String.index 0 "." body with
  | None =>
      match digits body with
      | Some (n, S _) => Some (inject_Z n)
      | _ => None
      end
  | Some i =>
      match digits (String.substring 0 i body),
            digits (String.substring (S i) (String.length body - S i) body) with
      | Some (a, ka), Some (b, kb) =>
          if (0 <? ka + kb)%nat
          then Some (inject_Z a + inject_Z b / inject_Z (10 ^ Z.of_nat kb))%Q
          else None
      | _, _ => None
      end
  end.

(** [[+-]ddd] after the exponent mark. *)
Definition parse_exponent (e : string) : option Z :=
  let '(sign, body) :=
    match e with
    | String "-"%char r => ((-1)%Z, r)
    | String "+"%char r => (1%Z, r)
    | _ => (1%Z, e)
    end in
  match digits body with
  | Some (n, S _) => Some (sign * n)%Z
  | _ => None
  end.

(** The number syntax of pandas' [precise_xstrtod] as called by
    [to_numeric]: surrounding blanks, a sign, a mantissa and an optional
    exponent, and nothing else. The value is exact: the rounding to float64,
    and the overflow of an exponent beyond 308 (NaN in pandas), are not
    modelled, nor are the strings [inf] and [Infinity], which pandas reads as
    an infinite float; its NA strings ([nan], [NULL], ...) fail here and
    become NaN, as in pandas. *)
Definition parse_decimal (s : string) : option Q :=
  let s := drop_trailing_spaces (drop_spaces s) in
  let '(sign, body) :=
    match s with
    | String "-"%char r => ((-1)%Z, r)
    | String "+"%char r => (1%Z, r)
    | _ => (1%Z, s)
    end in
  let '(mant, ex) := split_exponent body in
  match parse_mantissa mant, ex with
  | Some q, None => Some (inject_Z sign * q)%Q
  | Some q, Some e =>
      match parse_exponent e with
      | Some z => Some (inject_Z sign * q * Qpower (inject_Z 10) z)%Q
      | None => None
      end
  | None, _ => None
  end.

(** [pd.to_numeric(x, errors='coerce')] on one cell of an object column,
    where a timestamp is an invalid object and becomes NaN; a column of
    datetime64 dtype, which pandas turns into nanosecond counts, is not
    modelled. *)
Definition to_numeric (v : value) : value :=
  match v with
  | VNum q => VNum q
  | VStr s => match parse_decimal s with Some q => VNum q | None => VNone end
  | _ => VNone
  end.

Local Open Scope Z_scope.

(** Calendar arithmetic of the proleptic Gregorian calendar used by pandas
    (day 0 is 1970-01-01). *)
Definition days_from_civil (y m d : Z) : Z :=
  let y' := if m <=? 2 then y - 1 else y in
  let era := y' / 400 in
  let yoe := y' - era * 400 in
  let mp := if 2 <? m then m - 3 else m + 9 in
  let doy := (153 * mp + 2) / 5 + d - 1 in
  let doe := yoe * 365 + yoe / 4 - yoe / 100 + doy in
  era * 146097 + doe - 719468.

Definition civil_from_days (z0 : Z) : Z * Z * Z :=
  let z := z0 + 719468 in
  let era := z / 146097 in
  let doe := z - era * 146097 in
  let yoe := (doe - doe / 1460 + doe / 36524 - doe / 146096) / 365 in
  let doy := doe - (365 * yoe + yoe / 4 - yoe / 100) in
  let mp := (5 * doy + 2) / 153 in
  let d := doy - (153 * mp + 2) / 5 + 1 in
  let m := if mp <? 10 then mp + 3 else mp - 9 in
  let y := yoe + era * 400 in
  ((if m <=? 2 then y + 1 else y), m, d).

(** Calendar date of a timestamp (its day, [Timestamp.date()]). *)
Definition stamp_date (d : Q) : Z * Z * Z := civil_from_days (Qfloor d).

Definition leap (y : Z) : bool :=
  (Z.eqb (y mod 4) 0 && negb (Z.eqb (y mod 100) 0)) || Z.eqb (y mod 400) 0.

Definition days_in_month (y m : Z) : Z :=
  if Z.eqb m 2 then (if leap y then 29 else 28)
  else if (Z.eqb m 4 || Z.eqb m 6 || Z.eqb m 9 || Z.eqb m 11) then 30 else 31.

(** The ISO form [YYYY-MM-DD] of pandas' string date parser; the other
    formats pandas and dateutil accept are not modelled. *)
Definition parse_iso_date (s : string) : option Q :=
  if negb (Nat.eqb (String.length s) 10) then None else
  match String.get 4 s, String.get 7 s,
        digits (String.substring 0 4 s), digits (String.substring 5 2 s),
        digits (String.substring 8 2 s) with
  | Some "-"%char, Some "-"%char, Some (y, _), Some (m, _), Some (d, _) =>
      if (1 <=? m) && (m <=? 12) && (1 <=? d) && (d <=? days_in_month y m)
      then Some (inject_Z (days_from_civil y m d))
      else None
  | _, _, _, _, _ => None
  end.

Local Close Scope Z_scope.

Definition ns_per_day : Q := inject_Z (86400 * 10 ^ 9).

(** A [Timestamp] holds a nanosecond count in int64 ([-2^63] is NaT). *)
Definition ns_in_bounds (ns : Q) : bool :=
  qltb (- inject_Z (2 ^ 63)) ns && qltb ns (inject_Z (2 ^ 63)).

(** [pd.to_datetime(val, unit='D', origin='1899-12-30')] on a number:
    [None] stands for the raised [OutOfBoundsDatetime]. *)
Definition serial_to_stamp (q : Q) : option Q :=
  let d := (q - 25569)%Q in
  if ns_in_bounds (d * ns_per_day) then Some d else None.

(** [pd.to_datetime(val)] on one value: a number counts nanoseconds since
    1970-01-01, an empty string gives NaT, an ISO date outside the
    nanosecond range of a [Timestamp] (1677-09-22 to 2262-04-11) raises
    [OutOfBoundsDatetime]; [None] stands for an exception. *)
Definition to_datetime (v : value) : option value :=
  match v with
  | VNone | VNaT => Some VNaT
  | VNum q => if ns_in_bounds q then Some (VStamp (q / ns_per_day)) else None
  | VStr s =>
      if String.eqb s "" then Some VNaT
      else match parse_iso_date s with
           | Some d => if ns_in_bounds (d * ns_per_day) then Some (VStamp d) else None
           | None => None
           end
  | VStamp d => Some (VStamp d)
  end.

(** [DataLoader._parse_date] *)
Definition parse_date (v : value) : value :=
  if isna v then v else
  let generic := match to_datetime v with Some r => r | None => VNaT end in
  match v with
  | VNum q =>
      if qltb 25569 q then
        match serial_to_stamp q with Some d => VStamp d | None => generic end
      else generic
  | _ => generic
  end.

(* ------------------------------------------------------------------ *)
(** ** DataFrames *)

Record table := mk_table {
  nrows : nat;                              (* len(df.index) *)
  columns : list (string * list value)      (* df.columns with their data *)
}.

Inductive error :=
| EmptyInputError                 (* ValueError("Cannot generate report from empty DataFrame") *)
| MissingFieldsError (l : list string)   (* ValueError(f"Missing required fields: {missing}") *)
| KeyError (label : string)       (* df[label] with no such column *)
| NotOneDimensional (label : string)
    (* df[label] names several columns: pandas returns a DataFrame, and
       using it as a Series (groupby key, to_numeric, format, comparison)
       raises TypeError/ValueError *)
| WriteError
    (* openpyxl refuses a cell: IllegalCharacterError for a string holding a
       control character, ValueError for a row past 1048576 or a column
       past 18278 (ZZZ) *)
| DanglingObject.                 (* a name bound to no object: never raised by load *)

Inductive result (A : Type) := Ok (a : A) | Err (e : error).
Arguments Ok {A} a.
Arguments Err {A} e.

Definition has_col (t : table) (n : string) : bool :=
  existsb (fun c => String.eqb (fst c) n) (columns t).

(** [df[n]] used as a Series. *)
Definition series (t : table) (n : string) : result (list value) :=
  match List.filter (fun c => String.eqb (fst c) n) (columns t) with
  | [c] => Ok (snd c)
  | [] => Err (KeyError n)
  | _ => Err (NotOneDimensional n)
  end.

(** [df[n] = vals]: replaces the column labelled [n], or appends it. *)
Definition set_column (t : table) (n : string) (vals : list value) : table :=
  if has_col t n
  then mk_table (nrows t)
         (map (fun c => if String.eqb (fst c) n then (n, vals) else c) (columns t))
  else mk_table (nrows t) (columns t ++ [(n, vals)]).

(** [df.empty]: true when either axis has length 0. *)
Definition df_empty (t : table) : bool :=
  Nat.eqb (nrows t) 0 || match columns t with [] => true | _ => false end.

(** [inv_map = {v: k for k, v in mapping_info.items() if v in df.columns}]:
    a later entry with the same source column overrides an earlier one. *)
Definition inv_map (t : table) (mapping : list (string * string)) : list (string * string) :=
  map (fun kv => (snd kv, fst kv)) (List.filter (fun kv => has_col t (snd kv)) mapping).

Definition dict_get (d : list (string * string)) (n : string) : option string :=
  fold_left (fun acc kv => if String.eqb (fst kv) n then Some (snd kv) else acc) d None.

(** [df.rename(columns=inv_map)] *)
Definition rename (t : table) (d : list (string * string)) : table :=
  mk_table (nrows t)
    (map (fun c => (match dict_get d (fst c) with Some k => k | None => fst c end, snd c))
         (columns t)).

Definition required_fields : list string := ["vendor"; "amount"; "date"].

(** [missing = [f for f in required_fields if f not in df.columns]] *)
Definition missing_fields (t : table) : list string :=
  List.filter (fun f => negb (has_col t f)) required_fields.

(* ------------------------------------------------------------------ *)
(** ** Sheet contents (the values written, before display formatting) *)

Record top_row := mk_top_row {
  t_rank : nat; t_vendor : value; t_sum : Q; t_pct : ext; t_count : nat }.

Record summary := mk_summary {
  s_period : option (Q * Q);    (* None: "Period: Unknown" *)
  s_total_spend : Q;
  s_tx_count : nat;
  s_vendor_count : nat;
  s_avg_tx : ext;
  s_cat_count : nat;
  s_top5 : list top_row }.

Record vendor_row := mk_vendor_row {
  v_rank : nat; v_name : value; v_total : Q; v_count : nat; v_avg : ext;
  v_pct : ext; v_country : option value }.

Record category_row := mk_category_row {
  c_rank : nat; c_name : value; c_total : Q; c_pct : ext; c_count : nat;
  c_vendors : nat }.

Inductive category_sheet :=
| NoCategory                      (* "No 'category' column available in data." *)
| Categories (rows : list category_row).

Record month_row := mk_month_row {
  m_month : Z * Z; m_total : Q; m_count : nat; m_avg : ext; m_vendors : nat }.

Inductive risk := Low | Medium | High.

Inductive insight :=
| Consolidation (n_tail : nat) (tail_spend : Q) (save_low save_high : Q)
    (* 'SUPPLIER CONSOLIDATION' *)
| Concentration (conc_pct : ext) (top_10_spend : Q) (level : risk).
    (* 'VENDOR CONCENTRATION' *)

Inductive status := OK | WARNING | CRITICAL.

Record quality := mk_quality {
  q_overall : Q;
  q_rows : list (string * Q * status) }.

Inductive body :=
| Blank
| SummarySheet (s : summary)
| VendorSheet (rows : list vendor_row)
| CategorySheet (c : category_sheet)
| MonthlySheet (rows : list month_row)
| InsightSheet (l : list insight)
| DetailSheet (t : table)
| QualitySheet (q : quality).

Record sheet := mk_sheet { sheet_name : string; sheet_body : body }.

(* ------------------------------------------------------------------ *)
(** ** The result monad (an exception aborts the computation) *)

Global Instance result_ret : MRet result := fun A a => Ok a.
Global Instance result_bind : MBind result :=
  fun A B f r => match r with Ok a => f a | Err e => Err e end.

(* ------------------------------------------------------------------ *)
(** ** [groupby] and sorting *)

Fixpoint insert_key (k : value) (l : list value) : list value :=
  match l with
  | [] => [k]
  | y :: r => if value_ltb k y then k :: y :: r else y :: insert_key k r
  end.

(** Keys of [df.groupby(col)]: the distinct non-null values, sorted. *)
Definition group_keys (keys : list value) : list value :=
  fold_right insert_key [] (dedup_vals (List.filter notna keys)).

(** The values of column [vals] in the rows whose key equals [k]. *)
Definition group_of (k : value) (keys vals : list value) : list value :=
  map snd (List.filter (fun p => value_eqb (fst p) k) (combine keys vals)).

(** [GroupBy.first()]: the first non-null value of the group, NaN if none. *)
Definition first_notna (l : list value) : value :=
  match List.filter notna l with [] => VNone | v :: _ => v end.

(** Stable sort by decreasing key: [sort_values(ascending=False)] and
    [nlargest(n)] (which keeps the first of equal values first); the order
    pandas' quicksort gives to equal keys is not modelled. *)
Fixpoint insert_desc {A} (f : A -> Q) (x : A) (l : list A) : list A :=
  match l with
  | [] => [x]
  | y :: r => if Qle_bool (f y) (f x) then x :: y :: r else y :: insert_desc f x r
  end.

Definition sort_desc {A} (f : A -> Q) (l : list A) : list A :=
  fold_right (insert_desc f) [] l.

Definition nlargest {A} (n : nat) (f : A -> Q) (l : list A) : list A :=
  firstn n (sort_desc f l).

(** [reset_index()] after a sort, then rank = index + 1. *)
Definition ranked {A} (l : list A) : list (nat * A) := combine (seq 1 (length l)) l.

(* ------------------------------------------------------------------ *)
(** ** Sheet 1: [_create_executive_summary] *)

Definition stamps (l : list value) : list Q :=
  somes (map (fun v => match v with VStamp d => Some d | _ => None end) l).

(** [pd.to_datetime(df['date']).min()/.max()] inside the [try]: any failure,
    including [strftime] on NaT when there is no date, gives "Unknown". *)
Definition period_of (t : table) : option (Q * Q) :=
  match series t "date" with
  | Ok ds =>
      match stamps ds with
      | [] => None
      | d :: r => Some (fold_left Qmin r d, fold_left Qmax r d)
      end
  | Err _ => None
  end.

(** [df.groupby('vendor')['amount'].agg(['sum', 'count'])] *)
Definition vendor_sum_count (vs amounts : list value) : list (value * Q * nat) :=
  map (fun k => let g := group_of k vs amounts in (k, series_sum g, series_count g))
      (group_keys vs).

Definition executive_summary (t : table) : result summary :=
  amounts ← series t "amount";
  vs ← series t "vendor";
  cat_count ← (if has_col t "category"
               then cs ← series t "category"; mret (nunique cs)
               else mret 0%nat);
  let total_spend := series_sum amounts in
  let top_vendors := nlargest 5 (fun g : value * Q * nat => snd (fst g))
                       (vendor_sum_count vs amounts) in
  mret (mk_summary (period_of t) total_spend (nrows t) (nunique vs)
          (series_mean amounts) cat_count
          (map (fun p => let '(i, (v, s, c)) := p in
                         mk_top_row i v s (fdiv s total_spend) c)
               (ranked top_vendors))).

(* ------------------------------------------------------------------ *)
(** ** Sheet 2: [_create_vendor_analysis] *)

Definition with_vendor_rank (i : nat) (r : vendor_row) : vendor_row :=
  mk_vendor_row i (v_name r) (v_total r) (v_count r) (v_avg r) (v_pct r) (v_country r).

Definition vendor_analysis (t : table) : result (list vendor_row) :=
  vs ← series t "vendor";
  amounts ← series t "amount";
  let total_spend := series_sum amounts in
  countries ← (if has_col t "vendor_country"
               then cs ← series t "vendor_country"; mret (Some cs)
               else mret None);
  let rows :=
    map (fun k =>
           let g := group_of k vs amounts in
           mk_vendor_row 0 k (series_sum g) (series_count g) (series_mean g)
             (fdiv (series_sum g) total_spend)
             (option_map (fun cs => first_notna (group_of k vs cs)) countries))
        (group_keys vs) in
  mret (map (fun p => with_vendor_rank (fst p) (snd p))
            (ranked (sort_desc v_total rows))).

(* ------------------------------------------------------------------ *)
(** ** Sheet 3: [_create_category_analysis] *)

Definition category_analysis (t : table) : result category_sheet :=
  if negb (has_col t "category") then mret NoCategory else
  cs ← series t "category";
  amounts ← series t "amount";
  vs ← series t "vendor";
  let rows :=
    map (fun k =>
           let g := group_of k cs amounts in
           mk_category_row 0 k (series_sum g) (fdiv (series_sum g) (series_sum amounts))
             (series_count g) (nunique (group_of k cs vs)))
        (group_keys cs) in
  mret (Categories
          (map (fun p => let r := snd p in
                         mk_category_row (fst p) (c_name r) (c_total r) (c_pct r)
                           (c_count r) (c_vendors r))
               (ranked (sort_desc c_total rows)))).

(* ------------------------------------------------------------------ *)
(** ** Sheet 4: [_create_monthly_trends] *)

(** [pd.to_datetime(date).dt.to_period('M')]: a monthly Period is kept as
    its ordinal, the number of months since 1970-01. *)
Definition month_of (v : value) : value :=
  match v with
  | VStamp d => let '(y, m, _) := stamp_date d in
                VNum (inject_Z ((y - 1970) * 12 + m - 1))
  | _ => VNaT
  end.

(** [str(Period)] as a year and a month. *)
Definition month_label (k : value) : Z * Z :=
  match k with
  | VNum q => let o := Qfloor q in (1970 + o / 12, o mod 12 + 1)%Z
  | _ => (0, 0)%Z
  end.

(** Aggregation over [df_copy], which carries the added [month] column. *)
Definition monthly_trends (t : table) : result (list month_row) :=
  ms ← series t "month";
  amounts ← series t "amount";
  vs ← series t "vendor";
  mret (map (fun k =>
               let g := group_of k ms amounts in
               mk_month_row (month_label k) (series_sum g) (series_count g)
                 (series_mean g) (nunique (group_of k ms vs)))
            (group_keys ms)).

(* ------------------------------------------------------------------ *)
(** ** Sheet 5: [_create_insights] *)

Definition tail_threshold : Q := 5000.

Definition risk_level (conc_pct : ext) : risk :=
  if egt conc_pct 80 then High else if egt conc_pct 50 then Medium else Low.

Definition insights (t : table) : result (list insight) :=
  vs ← series t "vendor";
  amounts ← series t "amount";
  let vendor_stats := map (fun k => series_sum (group_of k vs amounts)) (group_keys vs) in
  let tail_vendors := List.filter (fun s => qltb s tail_threshold) vendor_stats in
  let consolidation :=
    match tail_vendors with
    | [] => []
    | _ => let tail_spend := qsum tail_vendors in
           [Consolidation (length tail_vendors) tail_spend
              (tail_spend * (15 # 100)) (tail_spend * (20 # 100))]
    end in
  let top_10_spend := qsum (nlargest 10 (fun s => s) vendor_stats) in
  let total_spend := series_sum amounts in
  let conc_pct := emul (fdiv top_10_spend total_spend) 100 in
  mret (app consolidation [Concentration conc_pct top_10_spend (risk_level conc_pct)]).

(* ------------------------------------------------------------------ *)
(** ** Sheet 7: [_create_data_quality_report] *)

Definition count_notna (l : list value) : nat := length (List.filter notna l).

(** [(df.notna().sum() / len(df)) * 100] for one column. *)
Definition completeness (t : table) (vals : list value) : Q :=
  inject_Z (Z.of_nat (count_notna vals)) / inject_Z (Z.of_nat (nrows t)) * 100.

Definition quality_status (c : Q) : status :=
  if Qle_bool 90 c then OK else if Qle_bool 70 c then WARNING else CRITICAL.

(** [completeness[col]]: a scalar only when the label is unique. *)
Definition lookup_label (l : list (string * Q)) (n : string) : result Q :=
  match List.filter (fun p => String.eqb (fst p) n) l with
  | [p] => Ok (snd p)
  | [] => Err (KeyError n)
  | _ => Err (NotOneDimensional n)
  end.

Fixpoint mapM_result {A B} (f : A -> result B) (l : list A) : result (list B) :=
  match l with
  | [] => Ok []
  | x :: r => y ← f x; ys ← mapM_result f r; mret (y :: ys)
  end.

Definition data_quality_report (t : table) : result quality :=
  let comp := map (fun c => (fst c, completeness t (snd c))) (columns t) in
  let overall_score := (qsum (map snd comp) / inject_Z (Z.of_nat (length comp)))%Q in
  rows ← mapM_result (fun c => v ← lookup_label comp (fst c);
                               mret (fst c, v, quality_status v))
                     (columns t);
  mret (mk_quality overall_score rows).

(* ------------------------------------------------------------------ *)
(** ** What openpyxl accepts in a cell *)

Definition max_rows : N := 1048576.
Definition max_cols : N := 18278.

(** [ILLEGAL_CHARACTERS_RE]: [[\000-\010]|[\013-\014]|[\016-\037]]. *)
Definition illegal_char (c : Ascii.ascii) : bool :=
  let n := Ascii.nat_of_ascii c in
  (n <=? 8)%nat || ((11 <=? n)%nat && (n <=? 12)%nat) || ((14 <=? n)%nat && (n <=? 31)%nat).

(** An illegal character among the first [k] characters of [s]. *)
Fixpoint has_illegal_char (k : N) (s : string) : bool :=
  match s with
  | EmptyString => false
  | String c r => if (k =? 0)%N then false else illegal_char c || has_illegal_char (N.pred k) r
  end.

(** [Cell.check_string]: the value is cut to 32767 characters, then
    refused if it holds an illegal character. *)
Definition string_ok (s : string) : bool := negb (has_illegal_char 32767 s).

(** A cell value: only strings are checked. *)
Definition cell_ok (v : value) : bool :=
  match v with VStr s => string_ok s | _ => true end.

(** The cells written for a sheet body are all accepted: the data-derived
    strings, and for the sheets written by [_write_dataframe_to_sheet] a
    header row plus one row per record within [max_rows], and at most
    [max_cols] columns (from [ws.dimensions]). The fixed titles, labels
    and formatted numbers are legal strings. *)
Definition body_ok (c : body) : bool :=
  match c with
  | Blank => true
  | SummarySheet s => forallb (fun r => cell_ok (t_vendor r)) (s_top5 s)
  | VendorSheet rows =>
      N.leb (N.of_nat (S (length rows))) max_rows &&
      forallb (fun r => cell_ok (v_name r) &&
                        match v_country r with Some v => cell_ok v | None => true end) rows
  | CategorySheet NoCategory => true
  | CategorySheet (Categories rows) =>
      N.leb (N.of_nat (S (length rows))) max_rows && forallb (fun r => cell_ok (c_name r)) rows
  | MonthlySheet rows => N.leb (N.of_nat (S (length rows))) max_rows
  | InsightSheet _ => true
  | DetailSheet t =>
      match columns t with
      | [] => true
      | cols =>
          N.leb (N.of_nat (S (nrows t))) max_rows && N.leb (N.of_nat (length cols)) max_cols &&
          forallb (fun c => string_ok (fst c) && forallb cell_ok (snd c)) cols
      end
  | QualitySheet _ => true    (* checked row by row in [quality_sheet] *)
  end.

(** [ws[f'A{row}'] = col] for the column of rank [i], at row [4 + i]. *)
Definition label_written (p : nat * (string * list value)) : result unit :=
  if N.leb (N.of_nat (4 + fst p)) max_rows && string_ok (fst (snd p)) then Ok tt else Err WriteError.

(** The loop of [_create_data_quality_report]: for each column in turn,
    [comp_val = completeness[col]], the label cell, then
    [ws[f'B{row}'] = comp_val / 100], which raises when [comp_val] is not a
    scalar; after the loop, the sheet holds [data_quality_report]. *)
Definition quality_sheet (t : table) : result body :=
  let comp := map (fun c => (fst c, completeness t (snd c))) (columns t) in
  _ ← mapM_result (fun p => label_written p;; _ ← lookup_label comp (fst (snd p)); mret tt)
                  (ranked (columns t));
  q ← data_quality_report t;
  mret (QualitySheet q).

(* ------------------------------------------------------------------ *)
(** ** The state: DataFrame objects, the workbook being built, saved files *)

Record state := mk_state {
  heap : gmap nat table;              (* DataFrame objects by location *)
  next_loc : nat;                     (* next fresh location *)
  book : list sheet;                  (* the openpyxl Workbook [wb] *)
  files : list (string * list sheet); (* workbooks saved, latest first *)
  clock : string                      (* datetime.now().strftime("%Y-%m-%d_%H%M%S") *)
}.

Definition M (A : Type) : Type := state -> result A * state.

Global Instance M_ret : MRet M := fun A a st => (Ok a, st).
Global Instance M_bind : MBind M :=
  fun A B f c st =>
    match c st with
    | (Ok a, st') => f a st'
    | (Err e, st') => (Err e, st')
    end.

Definition raise {A} (e : error) : M A := fun st => (Err e, st).
Definition lift {A} (r : result A) : M A := fun st => (r, st).

Definition get_tbl (l : nat) : M table := fun st =>
  match heap st !! l with
  | Some t => (Ok t, st)
  | None => (Err DanglingObject, st)
  end.

Definition alloc (t : table) : M nat := fun st =>
  (Ok (next_loc st),
   mk_state (<[next_loc st := t]> (heap st)) (S (next_loc st)) (book st) (files st) (clock st)).

(** In-place update of the object at [l] ([df[col] = ...]). *)
Definition put_tbl (l : nat) (t : table) : M unit := fun st =>
  (Ok tt, mk_state (<[l := t]> (heap st)) (next_loc st) (book st) (files st) (clock st)).

(** [df.copy()] *)
Definition copy (l : nat) : M nat := t ← get_tbl l; alloc t.

Definition set_book (b : list sheet) : M unit := fun st =>
  (Ok tt, mk_state (heap st) (next_loc st) b (files st) (clock st)).

Definition get_book : M (list sheet) := fun st => (Ok (book st), st).

(** [Workbook()] starts with one sheet named "Sheet". *)
Definition new_workbook : M unit := set_book [mk_sheet "Sheet" Blank].

(** [if 'Sheet' in wb.sheetnames: wb.remove(wb['Sheet'])] *)
Fixpoint remove_first (n : string) (l : list sheet) : list sheet :=
  match l with
  | [] => []
  | s :: r => if String.eqb (sheet_name s) n then r else s :: remove_first n r
  end.

Definition remove_sheet (n : string) : M unit := b ← get_book; set_book (remove_first n b).

(** [wb.create_sheet(n)] appends an empty sheet ... *)
Definition create_sheet (n : string) : M unit :=
  b ← get_book; set_book (app b [mk_sheet n Blank]).

(** ... which the generator then fills. *)
Fixpoint fill_last (c : body) (l : list sheet) : list sheet :=
  match l with
  | [] => []
  | [s] => [mk_sheet (sheet_name s) c]
  | s :: r => s :: fill_last c r
  end.

(** The cells the generator writes for [c] are accepted by openpyxl. *)
Definition write_sheet (c : body) : M unit :=
  if body_ok c then (b ← get_book; set_book (fill_last c b)) else raise WriteError.

(** [wb.save(output_path)]; failures of the file system are not modelled. *)
Definition save (p : string) : M unit := fun st =>
  (Ok tt, mk_state (heap st) (next_loc st) (book st) ((p, book st) :: files st) (clock st)).

Definition now_stamp : M string := fun st => (Ok (clock st), st).

(* ------------------------------------------------------------------ *)
(** ** The sheet generators as called by [load] *)

Definition sheet_from (n : string) (f : table -> result body) (df : nat) : M unit :=
  create_sheet n;;
  t ← get_tbl df;
  c ← lift (f t);
  write_sheet c.

Definition create_executive_summary : nat -> M unit :=
  sheet_from "Executive Summary" (fun t => s ← executive_summary t; mret (SummarySheet s)).

Definition create_vendor_analysis : nat -> M unit :=
  sheet_from "Spend by Vendor" (fun t => r ← vendor_analysis t; mret (VendorSheet r)).

Definition create_category_analysis : nat -> M unit :=
  sheet_from "Spend by Category" (fun t => c ← category_analysis t; mret (CategorySheet c)).

Definition create_monthly_trends (df : nat) : M unit :=
  create_sheet "Monthly Trends";;
  t ← get_tbl df;
  df_copy ← alloc t;
  d ← lift (series t "date");
  put_tbl df_copy (set_column t "month" (map month_of d));;
  tc ← get_tbl df_copy;
  rows ← lift (monthly_trends tc);
  write_sheet (MonthlySheet rows).

Definition create_insights : nat -> M unit :=
  sheet_from "Top Insights" (fun t => l ← insights t; mret (InsightSheet l)).

Definition create_detailed_data : nat -> M unit :=
  sheet_from "Detailed Data" (fun t => mret (DetailSheet t)).

Definition create_data_quality_report : nat -> M unit :=
  sheet_from "Data Quality Report" quality_sheet.

Definition report_sheet_names : list string :=
  ["Executive Summary"; "Spend by Vendor"; "Spend by Category"; "Monthly Trends";
   "Top Insights"; "Detailed Data"; "Data Quality Report"].

(* ------------------------------------------------------------------ *)
(** ** [DataLoader.load] *)

(** Step 1: [df = df.copy()] and the optional renaming; the result is the
    location of the working DataFrame. *)
Definition map_columns (src : nat) (mapping_info : option (list (string * string))) : M nat :=
  df ← copy src;
  match mapping_info with
  | Some (kv :: m) =>
      t ← get_tbl df; alloc (rename t (inv_map t (kv :: m)))
  | _ => mret df
  end.

(** Step 2: validation. *)
Definition validate (df : nat) : M table :=
  t ← get_tbl df;
  (if df_empty t then raise EmptyInputError else mret tt);;
  (match missing_fields t with
   | [] => mret tt
   | missing => raise (MissingFieldsError missing)
   end);;
  mret t.

(** Step 3: type normalisation, in place. *)
Definition normalise (df : nat) (t : table) : M unit :=
  a ← lift (series t "amount");
  put_tbl df (set_column t "amount" (map to_numeric a));;
  t ← get_tbl df;
  d ← lift (series t "date");
  put_tbl df (set_column t "date" (map parse_date d)).

Definition prepare (src : nat) (mapping_info : option (list (string * string))) : M nat :=
  df ← map_columns src mapping_info;
  t ← validate df;
  normalise df t;;
  mret df.

(** The creation of the output directory is not modelled. *)
Definition load (src : nat) (mapping_info : option (list (string * string)))
    (output_path : option string) : M string :=
  df ← prepare src mapping_info;
  path ← (match output_path with
          | Some p => mret p
          | None => ts ← now_stamp; mret ("procurement_analysis_" ++ ts ++ ".xlsx")%string
          end);
  new_workbook;;
  remove_sheet "Sheet";;
  create_executive_summary df;;
  create_vendor_analysis df;;
  create_category_analysis df;;
  create_monthly_trends df;;
  create_insights df;;
  create_detailed_data df;;
  create_data_quality_report df;;
  save path;;
  mret path.

(* ------------------------------------------------------------------ *)
(** ** Inputs and reference functions used in the statements below *)

(** The table seen by the validator: [df] after the optional renaming. *)
Definition mapped (t : table) (mapping_info : option (list (string * string))) : table :=
  match mapping_info with
  | Some (kv :: m) => rename t (inv_map t (kv :: m))
  | _ => t
  end.

(** A store holding the caller's DataFrame at location 0. *)
Definition store_of (t : table) : state :=
  mk_state (<[0 := t]> empty) 1 [] [] "2026-10-17_120000".

(** A DataFrame with one row and no column ([pd.DataFrame(index=[0])]). *)
Definition rows_no_columns : table := mk_table 1 [].

(** Invariant of the caller's object at [l]: still holding [t]. *)
Definition owned (l : nat) (t : table) (st : state) : Prop :=
  heap st !! l = Some t /\ (l < next_loc st)%nat.

(** Partial correctness with an invariant: [P] is kept whatever the outcome,
    and a returned value satisfies [Q]. *)
Definition hoare {A} (P : state -> Prop) (c : M A) (Q : A -> Prop) : Prop :=
  forall st, P st -> P (snd (c st)) /\ (forall a, fst (c st) = Ok a -> Q a).

(** Steps that neither create sheets nor save files. *)
Definition quiet {A} (c : M A) : Prop :=
  forall st, book (snd (c st)) = book st /\ files (snd (c st)) = files st.

(** The fixture of the repository's tests ([sample_df]). *)
Definition sample_df : table :=
  mk_table 3
    [("vendor", [VStr "Vendor A"; VStr "Vendor B"; VStr "Vendor A"]);
     ("amount", [VNum 100; VNum 200; VNum 150]);
     ("date", [VStr "2023-01-01"; VStr "2023-01-02"; VStr "2023-01-03"]);
     ("category", [VStr "IT"; VStr "Services"; VStr "IT"])].

(** A table whose own [vendor] column is joined by a [Supplier] column that
    the mapping renames to [vendor] as well. *)
Definition supplier_and_vendor : table :=
  mk_table 1
    [("vendor", [VStr "Vendor A"]); ("amount", [VNum 100]);
     ("date", [VStr "2023-01-01"]); ("Supplier", [VStr "Vendor B"])].

Definition supplier_mapping : option (list (string * string)) :=
  Some [("vendor", "Supplier")].

(** Two vendors with the same total spend, after normalisation. *)
Definition tied_vendors : table :=
  mk_table 2
    [("vendor", [VStr "Vendor A"; VStr "Vendor B"]); ("amount", [VNum 100; VNum 100]);
     ("date", [VStamp 19358; VStamp 19359])].

(** Reference sums, written independently of [groupby]: the amount of a
    row counts as 0 when it is null. *)
Definition amount_or_zero (v : value) : Q :=
  match amount_of v with Some q => q | None => 0%Q end.

Definition vendor_spend (vs amounts : list value) (k : value) : Q :=
  qsum (map (fun p => if value_eqb (fst p) k then amount_or_zero (snd p) else 0%Q)
            (combine vs amounts)).

Definition grand_total (amounts : list value) : Q := qsum (map amount_or_zero amounts).

(** The headline figures of a saved report: grand total, vendor count and
    the (vendor, total) pairs of the Spend by Vendor sheet. *)
Definition report_figures (sheets : list sheet) : option (Q * nat * list (value * Q)) :=
  match map sheet_body sheets with
  | SummarySheet s :: VendorSheet rows :: _ =>
      Some (s_total_spend s, s_vendor_count s, map (fun r => (v_name r, v_total r)) rows)
  | _ => None
  end.

(** A valid input with two columns labelled [note]. *)
Definition dup_note : table :=
  mk_table 1
    [("vendor", [VStr "Vendor A"]); ("amount", [VNum 10]); ("date", [VStr "2023-01-01"]);
     ("note", [VStr "urgent"]); ("note", [VNone])].

(** A valid input whose amounts sum to zero: a refund of 100 booked
    without a vendor. *)
Definition zero_total_refund : table :=
  mk_table 2
    [("vendor", [VStr "Vendor A"; VNone]); ("amount", [VNum 100; VNum (-100)]);
     ("date", [VStr "2023-01-01"; VStr "2023-01-02"])].

(** A valid input whose amounts sum to zero, with two columns labelled
    [category]. *)
Definition zero_total_two_categories : table :=
  mk_table 1
    [("vendor", [VStr "Vendor A"]); ("amount", [VNum 0]); ("date", [VStr "2023-01-01"]);
     ("category", [VStr "IT"]); ("category", [VStr "Office"])].

(** A valid input whose amounts sum to zero, whose vendor name starts with
    the control character [chr(1)]. *)
Definition control_char_vendor : table :=
  mk_table 1
    [("vendor", [VStr (String (Ascii.ascii_of_nat 1) "Vendor A")]); ("amount", [VNum 0]);
     ("date", [VStr "2023-01-01"])].

(** A generator that returns has appended exactly one sheet, named [n]. *)
Definition adds_sheet (n : string) (c : M unit) : Prop :=
  forall st u st', c st = (Ok u, st') ->
  exists b, book st' = app (book st) [mk_sheet n b] /\ files st' = files st.

(** [a] comes before [b] in decreasing order of [f]. *)
Definition desc {A} (f : A -> Q) (a b : A) : Prop := (f b <= f a)%Q.

(** A calendar date as [parse_iso_date] accepts it. *)
Definition valid_date (y m d : Z) : bool :=
  (1 <=? m)%Z && (m <=? 12)%Z && (1 <=? d)%Z && (d <=? days_in_month y m)%Z.

(** [f a && f (a + 1) && ... && f (a + n - 1)]: a test over a range of
    integers, evaluated once by the virtual machine. *)
Fixpoint zall (f : Z -> bool) (a : Z) (n : nat) : bool :=
  match n with O => true | S n' => f a && zall f (a + 1)%Z n' end.

Definition date_eqb (p q : Z * Z * Z) : bool :=
  let '(a, b, c) := p in let '(x, y, z) := q in (a =? x)%Z && (b =? y)%Z && (c =? z)%Z.

(** Every date of year [y] goes to its day number and back unchanged. *)
Definition year_round_trips (y : Z) : bool :=
  zall (fun m => zall (fun d => date_eqb (civil_from_days (days_from_civil y m d)) (y, m, d))
                      1 (Z.to_nat (days_in_month y m)))
       1 (Z.to_nat 12).


(** Spend and row counts over the rows whose key is not null, as the
    groupings of the report see them. *)
Definition keyed_spend (keys amounts : list value) : Q :=
  qsum (map (fun p => if notna (fst p) then amount_or_zero (snd p) else 0%Q)
            (combine keys amounts)).

Definition has_amount (v : value) : bool :=
  match amount_of v with Some _ => true | None => false end.

Definition keyed_count (keys amounts : list value) : nat :=
  length (List.filter (fun p => notna (fst p) && has_amount (snd p)) (combine keys amounts)).

(** The same over the rows whose date parsed. *)
Definition is_stamp (v : value) : bool := match v with VStamp _ => true | _ => false end.

Definition dated_spend (dates amounts : list value) : Q :=
  qsum (map (fun p => if is_stamp (fst p) then amount_or_zero (snd p) else 0%Q)
            (combine dates amounts)).

Definition dated_count (dates amounts : list value) : nat :=
  length (List.filter (fun p => is_stamp (fst p) && has_amount (snd p)) (combine dates amounts)).

(** A table with one undated row. *)
Definition one_undated : table :=
  mk_table 3
    [("vendor", [VStr "Vendor A"; VStr "Vendor B"; VStr "Vendor A"]);
     ("amount", [VNum 100; VNum 200; VNum 50]);
     ("date", [VStamp 19358; VNaT; VStamp 19390]);
     ("category", [VStr "IT"; VNone; VStr "IT"])].

(** Chronological order of (year, month) labels. *)
Definition month_before (a b : Z * Z) : Prop :=
  (fst a < fst b \/ fst a = fst b /\ snd a < snd b)%Z.

(** Orders and inequality of grouping keys. *)
Definition key_le (a b : value) : Prop := value_ltb b a = false.

Definition distinct (a b : value) : Prop := value_eqb a b = false.

(** A computation leaves a part [sel] of the state alone; on failure; or
    always returns [x]. *)
Definition keeps {X A} (sel : state -> X) (c : M A) : Prop :=
  forall st, sel (snd (c st)) = sel st.

Definition err_keeps {X A} (sel : state -> X) (c : M A) : Prop :=
  forall st e st', c st = (Err e, st') -> sel st' = sel st.

Definition returns {A} (x : A) (c : M A) : Prop :=
  forall st a st', c st = (Ok a, st') -> a = x.

(** Every column holds one value per row. *)
Definition rectangular (t : table) : bool :=
  forallb (fun c => Nat.eqb (length (snd c)) (nrows t)) (columns t).

(* ================================================================== *)
(** * Properties *)

(** ** Basic facts *)

Lemma qltb_true (x y : Q) : qltb x y = true <-> (x < y)%Q.
Proof.
  unfold qltb. rewrite negb_true_iff. split; intros H.
  - apply Qnot_le_lt. intros Hle. apply Qle_bool_iff in Hle. congruence.
  - destruct (Qle_bool y x) eqn:E; [|reflexivity].
    apply Qle_bool_iff in E. exfalso. apply (Qlt_not_le x y); assumption.
Qed.

Lemma qltb_false (x y : Q) : qltb x y = false <-> (y <= x)%Q.
Proof.
  unfold qltb. rewrite negb_false_iff. apply Qle_bool_iff.
Qed.

(** ** C4: serial dates *)

(** C4. A number strictly greater than 25569 is decoded as a spreadsheet
    serial date: a count of days from 1899-12-30 (day -25569 of pandas'
    epoch), so 44562 is 2022-01-01; when that conversion raises, the value
    goes through the generic [pd.to_datetime] parse instead. *)
Theorem parse_date_serial (q : Q) :
  (25569 < q)%Q ->
  parse_date (VNum q) =
    match serial_to_stamp q with
    | Some d => VStamp d
    | None => match to_datetime (VNum q) with Some r => r | None => VNaT end
    end /\
  (ns_in_bounds ((q - 25569) * ns_per_day) = true ->
   parse_date (VNum q) = VStamp (q - 25569)) /\
  days_from_civil 1899 12 30 = (-25569)%Z /\
  parse_date (VNum 44562) = VStamp 18993 /\
  stamp_date 18993 = (2022%Z, 1%Z, 1%Z).
Proof.
  intros Hq.
  assert (Hb : qltb 25569 q = true) by (apply qltb_true; exact Hq).
  assert (Hd : parse_date (VNum q) =
    match serial_to_stamp q with
    | Some d => VStamp d
    | None => match to_datetime (VNum q) with Some r => r | None => VNaT end
    end) by (unfold parse_date; simpl isna; cbv iota; rewrite Hb; reflexivity).
  refine (conj Hd (conj _ (conj _ (conj _ _)))).
  - intros Hin. rewrite Hd. unfold serial_to_stamp. rewrite Hin. reflexivity.
  - vm_compute. reflexivity.
  - vm_compute. reflexivity.
  - vm_compute. reflexivity.
Qed.

(** ** C5: per-value coercion *)

Lemma to_numeric_cases (v : value) :
  to_numeric v = VNone \/ exists q, to_numeric v = VNum q.
Proof.
  destruct v as [| |q|s|d]; simpl; eauto.
  destruct (parse_decimal s); eauto.
Qed.

Lemma parse_date_cases (v : value) :
  isna (parse_date v) = true \/ exists d, parse_date v = VStamp d.
Proof.
  destruct v as [| |q|s|d]; unfold parse_date; simpl; auto.
  - destruct (qltb 25569 q); [destruct (serial_to_stamp q); [eauto|]|];
      (destruct (ns_in_bounds q); simpl; eauto).
  - destruct (String.eqb s ""); simpl; auto.
    destruct (parse_iso_date s) as [d|]; simpl; [destruct (ns_in_bounds (d * ns_per_day))|]; eauto.
  - eauto.
Qed.

(** C5 (as the code behaves). Coercion never raises: every coerced amount
    is a number or NaN (null); a null date is returned unchanged, an empty
    string becomes [pd.NaT], and every coerced date is a timestamp or null;
    a date value on which every conversion [_parse_date] tries raises (the
    serial conversion for a number above 25569, then [pd.to_datetime])
    becomes [pd.NaT], which is itself a null value ([pd.isna(pd.NaT)]) and is
    also what a missing date given as NaT stays. *)
Theorem coercion_never_raises (v : value) :
  (to_numeric v = VNone \/ exists q, to_numeric v = VNum q) /\
  (isna v = true -> parse_date v = v) /\
  (isna (parse_date v) = true \/ exists d, parse_date v = VStamp d) /\
  (forall s, to_datetime (VStr s) = None -> parse_date (VStr s) = VNaT) /\
  (forall q, to_datetime (VNum q) = None ->
     (qltb 25569 q = true -> serial_to_stamp q = None) -> parse_date (VNum q) = VNaT) /\
  parse_date (VStr "") = VNaT /\
  isna VNaT = true /\ parse_date VNaT = VNaT.
Proof.
  refine (conj (to_numeric_cases v) (conj _ (conj (parse_date_cases v)
            (conj _ (conj _ (conj eq_refl (conj eq_refl eq_refl))))))).
  - intros H. unfold parse_date. rewrite H. reflexivity.
  - intros s H. unfold parse_date. simpl isna. cbv beta iota zeta. rewrite H. reflexivity.
  - intros q H Hs. unfold parse_date. simpl isna. cbv beta iota zeta. rewrite H.
    destruct (qltb 25569 q); [rewrite (Hs eq_refl)|]; reflexivity.
Qed.

(** C5, counterexample: the "invalid date" produced for the unparseable
    string "n/a" is NaT, a null value, identical to the output for a missing
    date given as NaT. *)
Lemma unparseable_date_is_null :
  parse_date (VStr "n/a") = VNaT /\ isna (parse_date (VStr "n/a")) = true /\
  parse_date VNaT = parse_date (VStr "n/a").
Proof. vm_compute. auto. Qed.

Lemma parse_date_serial_witness :
  (25569 < 44562)%Q /\ days_from_civil 1899 12 30 = (-25569)%Z.
Proof.
  assert (H : (25569 < 44562)%Q) by (vm_compute; reflexivity).
  split; [exact H | exact (proj1 (proj2 (proj2 (parse_date_serial 44562 H))))].
Defined.

(** ** Monadic reasoning *)

Lemma hoare_bind {A B} (P : state -> Prop) (c : M A) (k : A -> M B) Q R :
  hoare P c Q -> (forall a, Q a -> hoare P (k a) R) -> hoare P (c ≫= k) R.
Proof.
  intros Hc Hk st HP. unfold mbind, M_bind.
  specialize (Hc st HP). destruct (c st) as [[a|e] st1]; simpl in *.
  - destruct Hc as [HP1 HQ]. apply (Hk a (HQ a eq_refl) st1 HP1).
  - split; [tauto | discriminate].
Qed.

Lemma hoare_weaken {A} (P : state -> Prop) (c : M A) (Q R : A -> Prop) :
  hoare P c Q -> (forall a, Q a -> R a) -> hoare P c R.
Proof.
  intros Hc HQR st HP. destruct (Hc st HP) as [H1 H2]. split; [exact H1|].
  intros a Ha. apply HQR, H2, Ha.
Qed.

Section Owned.
Variables (l : nat) (t : table).

Lemma hoare_get_tbl k : hoare (owned l t) (get_tbl k) (fun _ => True).
Proof. intros st H. unfold get_tbl. destruct (heap st !! k); simpl; auto. Qed.

Lemma hoare_alloc t' : hoare (owned l t) (alloc t') (fun k => k <> l).
Proof.
  intros [h n b f c] [H1 H2]. unfold owned, alloc, fst, snd, heap, next_loc in *. split; [split|].
  - rewrite lookup_insert_ne by lia. exact H1.
  - lia.
  - intros a Ha. injection Ha as <-. lia.
Qed.

Lemma hoare_put_tbl k t' : k <> l -> hoare (owned l t) (put_tbl k t') (fun _ => True).
Proof.
  intros Hk [h n b f c] [H1 H2]. unfold owned, put_tbl, fst, snd, heap, next_loc in *.
  split; [split|]; auto.
  rewrite lookup_insert_ne by congruence. exact H1.
Qed.

Lemma hoare_lift {A} (r : result A) : hoare (owned l t) (lift r) (fun _ => True).
Proof. intros st H. simpl. auto. Qed.

Lemma hoare_raise {A} e (Q : A -> Prop) : hoare (owned l t) (@raise A e) Q.
Proof. intros st H. simpl. split; [auto | discriminate]. Qed.

Lemma hoare_ret {A} (a : A) : hoare (owned l t) (mret a) (fun b => b = a).
Proof. intros st H. simpl. split; [exact H | congruence]. Qed.

Lemma hoare_set_book b : hoare (owned l t) (set_book b) (fun _ => True).
Proof. intros st H. simpl. auto. Qed.

Lemma hoare_get_book : hoare (owned l t) get_book (fun _ => True).
Proof. intros st H. simpl. auto. Qed.

Lemma hoare_save p : hoare (owned l t) (save p) (fun _ => True).
Proof. intros st H. simpl. auto. Qed.

Lemma hoare_now : hoare (owned l t) now_stamp (fun _ => True).
Proof. intros st H. simpl. auto. Qed.
End Owned.

Create HintDb hoare_db.
#[export] Hint Resolve hoare_get_tbl hoare_alloc hoare_put_tbl hoare_lift hoare_raise
  hoare_ret hoare_set_book hoare_get_book hoare_save hoare_now : hoare_db.

Ltac hoare_auto :=
  repeat match goal with
  | |- hoare _ (mbind _ _) _ => eapply hoare_bind
  | |- forall _, _ -> hoare _ _ _ =>
      let a := fresh "a" in let H := fresh "Hq" in intros a H; cbv beta in H
  | |- hoare _ (if ?b then _ else _) _ => destruct b
  | |- hoare _ (match ?x with _ => _ end) _ => destruct x
  | |- hoare _ _ _ => solve [eauto with hoare_db]
  | |- hoare _ _ _ =>
      eapply hoare_weaken; [solve [eauto with hoare_db] | cbv beta; intros; subst; auto]
  end.

Lemma hoare_sheet_from l t n f df :
  df <> l -> hoare (owned l t) (sheet_from n f df) (fun _ => True).
Proof.
  intros Hdf. unfold sheet_from, create_sheet, write_sheet. hoare_auto.
Qed.

Lemma hoare_monthly l t df :
  df <> l -> hoare (owned l t) (create_monthly_trends df) (fun _ => True).
Proof.
  intros Hdf. unfold create_monthly_trends, create_sheet, write_sheet. hoare_auto.
Qed.

Lemma hoare_prepare src t m :
  hoare (owned src t) (prepare src m) (fun df => df <> src).
Proof.
  unfold prepare, map_columns, copy.
  eapply hoare_bind with (Q := fun df' => df' <> src).
  - eapply hoare_bind; [eapply hoare_bind; [apply hoare_get_tbl | intros; apply hoare_alloc] |].
    intros df Hdf. cbv beta in Hdf.
    destruct m as [[|kv m]|]; hoare_auto.
  - intros df' Hdf'. unfold validate, normalise. hoare_auto.
Qed.

#[export] Hint Resolve hoare_sheet_from hoare_monthly : hoare_db.

(** ** C9: the caller's DataFrame *)

(** C9. Whatever the mapping and the output path, and whether [load]
    returns or raises, the caller's DataFrame object still holds exactly the
    table it held before: all renaming and coercion act on the copy. *)
Theorem load_keeps_caller_table (src : nat) (t : table)
    (mapping_info : option (list (string * string))) (output_path : option string)
    (st : state) :
  heap st !! src = Some t -> (src < next_loc st)%nat ->
  heap (snd (load src mapping_info output_path st)) !! src = Some t.
Proof.
  intros H1 H2.
  assert (Hh : hoare (owned src t) (load src mapping_info output_path) (fun _ => True)).
  { unfold load. eapply hoare_bind; [apply hoare_prepare|].
    intros df Hdf. cbv beta in Hdf.
    unfold new_workbook, remove_sheet, create_executive_summary, create_vendor_analysis,
      create_category_analysis, create_insights, create_detailed_data,
      create_data_quality_report.
    hoare_auto. }
  exact (proj1 (proj1 (Hh st (conj H1 H2)))).
Qed.

Lemma load_keeps_caller_table_witness :
  heap (store_of sample_df) !! 0%nat = Some sample_df /\
  heap (snd (load 0 None None (store_of sample_df))) !! 0%nat = Some sample_df.
Proof.
  assert (H : heap (store_of sample_df) !! 0%nat = Some sample_df) by reflexivity.
  split; [exact H|].
  apply (load_keeps_caller_table 0 sample_df None None (store_of sample_df) H).
  vm_compute. exact (le_n 1).
Defined.

(** ** Effects on the workbook and the saved files *)

Lemma bind_ok {A B} (c : M A) (k : A -> M B) st b st' :
  (c ≫= k) st = (Ok b, st') -> exists a st1, c st = (Ok a, st1) /\ k a st1 = (Ok b, st').
Proof.
  unfold mbind, M_bind. destruct (c st) as [[a|e] st1]; [eauto | discriminate].
Qed.

Lemma quiet_bind {A B} (c : M A) (k : A -> M B) :
  quiet c -> (forall a, quiet (k a)) -> quiet (c ≫= k).
Proof.
  intros Hc Hk st. unfold mbind, M_bind.
  destruct (Hc st) as [Hb Hf]. destruct (c st) as [[a|e] st1]; simpl in *.
  - destruct (Hk a st1). split; congruence.
  - auto.
Qed.

Lemma quiet_get_tbl l : quiet (get_tbl l).
Proof. intros st. unfold get_tbl. destruct (heap st !! l); auto. Qed.

Lemma quiet_alloc t : quiet (alloc t).
Proof. intros st. auto. Qed.

Lemma quiet_put_tbl l t : quiet (put_tbl l t).
Proof. intros st. auto. Qed.

Lemma quiet_lift {A} (r : result A) : quiet (lift r).
Proof. intros st. auto. Qed.

Lemma quiet_raise {A} e : quiet (@raise A e).
Proof. intros st. auto. Qed.

Lemma quiet_ret {A} (a : A) : quiet (mret a).
Proof. intros st. auto. Qed.

Create HintDb quiet_db.
#[export] Hint Resolve quiet_get_tbl quiet_alloc quiet_put_tbl quiet_lift quiet_raise
  quiet_ret : quiet_db.

Ltac quiet_auto :=
  repeat match goal with
  | |- quiet (mbind _ _) => apply quiet_bind; [|intros ?]
  | |- quiet (if ?b then _ else _) => destruct b
  | |- quiet (match ?x with _ => _ end) => destruct x
  | |- quiet _ => solve [eauto with quiet_db]
  end.

Lemma quiet_prepare src m : quiet (prepare src m).
Proof. unfold prepare, map_columns, validate, normalise, copy. quiet_auto. Qed.

Lemma fill_last_app c l s :
  fill_last c (app l [s]) = app l [mk_sheet (sheet_name s) c].
Proof.
  induction l as [|x l IH]; [reflexivity|].
  simpl. rewrite IH. destruct l; reflexivity.
Qed.

Lemma adds_sheet_from n f df : adds_sheet n (sheet_from n f df).
Proof.
  intros st u st' H. unfold sheet_from, create_sheet, write_sheet, get_book, set_book in H.
  apply bind_ok in H as (u1 & st1 & H1 & H).
  apply bind_ok in H1 as (b1 & st0 & H0 & H1). injection H0 as <- <-. injection H1 as <- <-.
  apply bind_ok in H as (t & st2 & H2 & H).
  unfold get_tbl in H2. simpl in H2.
  destruct (heap st !! df); [injection H2 as <- <- | discriminate].
  apply bind_ok in H as (c & st3 & H3 & H). injection H3 as _ <-.
  destruct (body_ok c); [|discriminate H].
  apply bind_ok in H as (b2 & st4 & H4 & H). injection H4 as <- <-. injection H as <- <-.
  exists c. simpl. split; [apply fill_last_app | reflexivity].
Qed.

Lemma adds_monthly df : adds_sheet "Monthly Trends" (create_monthly_trends df).
Proof.
  intros st u st' H. unfold create_monthly_trends, create_sheet, write_sheet, get_book, set_book in H.
  apply bind_ok in H as (u1 & st1 & H1 & H).
  apply bind_ok in H1 as (b1 & st0 & H0 & H1). injection H0 as <- <-. injection H1 as <- <-.
  apply bind_ok in H as (t & st2 & H2 & H).
  unfold get_tbl in H2. simpl in H2.
  destruct (heap st !! df); [injection H2 as <- <- | discriminate].
  apply bind_ok in H as (dc & st3 & H3 & H). injection H3 as <- <-.
  apply bind_ok in H as (d & st4 & H4 & H). injection H4 as _ <-.
  apply bind_ok in H as (u2 & st5 & H5 & H). injection H5 as <- <-.
  apply bind_ok in H as (tc & st6 & H6 & H).
  unfold get_tbl in H6. simpl in H6.
  match type of H6 with context [match ?x with _ => _ end] => destruct x end;
    [injection H6 as <- <- | discriminate].
  apply bind_ok in H as (rows & st7 & H7 & H). injection H7 as _ <-.
  destruct (body_ok _); [|discriminate H].
  apply bind_ok in H as (b2 & st8 & H8 & H). injection H8 as <- <-. injection H as <- <-.
  eexists. simpl. split; [apply fill_last_app | reflexivity].
Qed.

Lemma run_mret {A} (a : A) st : (mret a : M A) st = (Ok a, st).
Proof. reflexivity. Qed.

(** ** C1: the seven sheets *)

(** C1 (as the code behaves). Every call of [load] that returns a path has
    saved, under that path, a workbook with exactly the seven sheets
    Executive Summary, Spend by Vendor, Spend by Category, Monthly Trends,
    Top Insights, Detailed Data and Data Quality Report, in this order; an
    exception raised while generating a sheet is propagated instead. *)
Theorem load_saves_seven_sheets (src : nat)
    (mapping_info : option (list (string * string))) (output_path : option string)
    (st : state) (p : string) (st' : state) :
  load src mapping_info output_path st = (Ok p, st') ->
  exists sheets, files st' = (p, sheets) :: files st /\
                 map sheet_name sheets = report_sheet_names.
Proof.
  intros H. unfold load in H.
  apply bind_ok in H as (df & st1 & H1 & H).
  destruct (quiet_prepare src mapping_info st) as [_ Hf1].
  rewrite H1 in Hf1. simpl in Hf1.
  apply bind_ok in H as (path & st2 & H2 & H).
  assert (E2 : st2 = st1).
  { destruct output_path as [q|]; simpl in H2.
    - injection H2 as _ <-. reflexivity.
    - apply bind_ok in H2 as (ts & st0 & H0 & H2). injection H0 as _ <-.
      injection H2 as _ <-. reflexivity. }
  subst st2.
  apply bind_ok in H as (u3 & st3 & H3 & H). injection H3 as _ <-.
  apply bind_ok in H as (u4 & st4 & H4 & H).
  unfold remove_sheet, get_book, set_book in H4.
  apply bind_ok in H4 as (b & st0 & H0 & H4). injection H0 as <- <-.
  injection H4 as _ <-. simpl in H.
  apply bind_ok in H as (u5 & st5 & H5 & H).
  destruct (adds_sheet_from _ _ _ _ _ _ H5) as (b5 & Hb5 & Hf5).
  apply bind_ok in H as (u6 & st6 & H6 & H).
  destruct (adds_sheet_from _ _ _ _ _ _ H6) as (b6 & Hb6 & Hf6).
  apply bind_ok in H as (u7 & st7 & H7 & H).
  destruct (adds_sheet_from _ _ _ _ _ _ H7) as (b7 & Hb7 & Hf7).
  apply bind_ok in H as (u8 & st8 & H8 & H).
  destruct (adds_monthly _ _ _ _ H8) as (b8 & Hb8 & Hf8).
  apply bind_ok in H as (u9 & st9 & H9 & H).
  destruct (adds_sheet_from _ _ _ _ _ _ H9) as (b9 & Hb9 & Hf9).
  apply bind_ok in H as (u10 & st10 & H10 & H).
  destruct (adds_sheet_from _ _ _ _ _ _ H10) as (b10 & Hb10 & Hf10).
  apply bind_ok in H as (u11 & st11 & H11 & H).
  destruct (adds_sheet_from _ _ _ _ _ _ H11) as (b11 & Hb11 & Hf11).
  apply bind_ok in H as (u12 & st12 & H12 & H).
  unfold save in H12. injection H12 as _ <-.
  rewrite run_mret in H. injection H as <- <-.
  simpl in *. eexists. split.
  - rewrite Hf11, Hf10, Hf9, Hf8, Hf7, Hf6, Hf5, Hf1. reflexivity.
  - rewrite Hb11, Hb10, Hb9, Hb8, Hb7, Hb6, Hb5. reflexivity.
Qed.

Lemma load_saves_seven_sheets_witness :
  exists p st',
    load 0 None (Some "report.xlsx") (store_of sample_df) = (Ok p, st') /\
    exists sheets, files st' = (p, sheets) :: files (store_of sample_df) /\
                   map sheet_name sheets = report_sheet_names.
Proof.
  destruct (load 0 None (Some "report.xlsx") (store_of sample_df)) as [r st'] eqn:E.
  assert (Hr : r = Ok "report.xlsx").
  { change r with (fst (r, st')). rewrite <- E. vm_compute. reflexivity. }
  subst r. exists "report.xlsx", st'. split; [reflexivity|].
  exact (load_saves_seven_sheets 0 None (Some "report.xlsx") (store_of sample_df) _ st' E).
Defined.

(** C1, counterexample: the table has rows and, after the mapping
    [vendor <- Supplier], columns vendor, amount and date, but two of them are
    labelled [vendor]; [df['vendor']] is then a DataFrame and the Executive
    Summary raises, so [load] fails. *)
Lemma duplicate_vendor_column_raises :
  let t := mapped supplier_and_vendor supplier_mapping in
  df_empty t = false /\ missing_fields t = [] /\
  fst (load 0 supplier_mapping None (store_of supplier_and_vendor)) =
    Err (NotOneDimensional "vendor").
Proof. vm_compute. auto. Qed.

(** ** C3: validation *)

Lemma bind_run {A B} (c : M A) (k : A -> M B) st a st1 :
  c st = (Ok a, st1) -> (c ≫= k) st = k a st1.
Proof. intros H. unfold mbind, M_bind. rewrite H. reflexivity. Qed.

Lemma bind_err {A B} (c : M A) (k : A -> M B) st e st1 :
  c st = (Err e, st1) -> (c ≫= k) st = (Err e, st1).
Proof. intros H. unfold mbind, M_bind. rewrite H. reflexivity. Qed.

Lemma map_columns_run src t m st :
  heap st !! src = Some t ->
  exists df st1, map_columns src m st = (Ok df, st1) /\
    heap st1 !! df = Some (mapped t m) /\ book st1 = book st /\ files st1 = files st.
Proof.
  intros H. unfold map_columns, copy.
  rewrite (bind_run _ _ st (next_loc st) (snd (alloc t st))).
  2:{ rewrite (bind_run _ _ st t st); [reflexivity|]. unfold get_tbl. rewrite H. reflexivity. }
  destruct m as [[|kv m]|]; simpl.
  - do 2 eexists. split; [reflexivity|]. split; [apply lookup_insert_eq | auto].
  - unfold mbind, M_bind, get_tbl. simpl. rewrite lookup_insert_eq. simpl.
    do 2 eexists. split; [reflexivity|]. split; [apply lookup_insert_eq | auto].
  - do 2 eexists. split; [reflexivity|]. split; [apply lookup_insert_eq | auto].
Qed.

Lemma rename_df_empty t d : df_empty (rename t d) = df_empty t.
Proof. destruct t as [n cs]. unfold df_empty, rename. simpl. destruct cs; reflexivity. Qed.

Lemma mapped_df_empty t m : df_empty (mapped t m) = df_empty t.
Proof. destruct m as [[|kv m]|]; simpl; try reflexivity. apply rename_df_empty. Qed.

Lemma load_validation_error src t m out st e :
  heap st !! src = Some t ->
  (forall df st1, heap st1 !! df = Some (mapped t m) ->
     validate df st1 = (Err e, st1)) ->
  load src m out st = (Err e, snd (map_columns src m st)) /\
  book (snd (map_columns src m st)) = book st /\
  files (snd (map_columns src m st)) = files st.
Proof.
  intros H Hv.
  destruct (map_columns_run src t m st H) as (df & st1 & Hm & Hh & Hb & Hf).
  rewrite Hm. simpl. split; [|auto].
  unfold load, prepare.
  apply bind_err. rewrite (bind_run _ _ _ _ _ Hm). apply bind_err. apply Hv, Hh.
Qed.

(** C3 (as the code behaves). The validator sees the table after the
    mapping, which keeps its shape. It raises EmptyInputError when the table
    is empty in pandas' sense, that is with zero rows or with zero columns;
    otherwise, when one of vendor, amount, date is absent, it raises
    MissingFieldsError with exactly the absent names in the order vendor,
    amount, date. In both cases no sheet is created and no file is written. *)
Theorem validation_errors (src : nat) (t : table)
    (mapping_info : option (list (string * string))) (output_path : option string)
    (st : state) :
  heap st !! src = Some t ->
  let t' := mapped t mapping_info in
  let r := load src mapping_info output_path st in
  df_empty t' = df_empty t /\
  (df_empty t = true <-> nrows t = 0%nat \/ columns t = []) /\
  missing_fields t' = List.filter (fun f => negb (has_col t' f)) ["vendor"; "amount"; "date"] /\
  (df_empty t = true -> fst r = Err EmptyInputError) /\
  (df_empty t = false -> missing_fields t' <> [] ->
     fst r = Err (MissingFieldsError (missing_fields t'))) /\
  (df_empty t = true \/ missing_fields t' <> [] ->
     book (snd r) = book st /\ files (snd r) = files st).
Proof.
  intros H t' r.
  assert (Hemp : df_empty t = true ->
     load src mapping_info output_path st =
       (Err EmptyInputError, snd (map_columns src mapping_info st)) /\
     book (snd (map_columns src mapping_info st)) = book st /\
     files (snd (map_columns src mapping_info st)) = files st).
  { intros He. apply (load_validation_error _ t); [exact H|].
    intros df st1 Hh. unfold validate.
    rewrite (bind_run _ _ _ (mapped t mapping_info) st1) by (unfold get_tbl; rewrite Hh; reflexivity).
    rewrite mapped_df_empty, He. reflexivity. }
  assert (Hmis : df_empty t = false -> missing_fields t' <> [] ->
     load src mapping_info output_path st =
       (Err (MissingFieldsError (missing_fields t')), snd (map_columns src mapping_info st)) /\
     book (snd (map_columns src mapping_info st)) = book st /\
     files (snd (map_columns src mapping_info st)) = files st).
  { intros He Hm. apply (load_validation_error _ t); [exact H|].
    intros df st1 Hh. unfold validate.
    rewrite (bind_run _ _ _ (mapped t mapping_info) st1) by (unfold get_tbl; rewrite Hh; reflexivity).
    rewrite mapped_df_empty, He. unfold t' in *.
    destruct (missing_fields (mapped t mapping_info)); [congruence | reflexivity]. }
  split; [apply mapped_df_empty|].
  split.
  { unfold df_empty. rewrite orb_true_iff, Nat.eqb_eq.
    destruct (columns t); split; intros [Hx|Hx]; auto; discriminate. }
  split; [reflexivity|].
  split; [intros He; unfold r; rewrite (proj1 (Hemp He)); reflexivity|].
  split; [intros He Hm; unfold r; rewrite (proj1 (Hmis He Hm)); reflexivity|].
  intros [He|Hm].
  - unfold r. destruct (Hemp He) as (-> & Hb & Hf). auto.
  - destruct (df_empty t) eqn:He.
    + unfold r. destruct (Hemp eq_refl) as (-> & Hb & Hf). auto.
    + unfold r. destruct (Hmis eq_refl Hm) as (-> & Hb & Hf). auto.
Qed.

Lemma validation_errors_witness :
  heap (store_of rows_no_columns) !! 0%nat = Some rows_no_columns /\
  fst (load 0 None None (store_of rows_no_columns)) = Err EmptyInputError.
Proof.
  assert (H : heap (store_of rows_no_columns) !! 0%nat = Some rows_no_columns) by reflexivity.
  split; [exact H|].
  exact (proj1 (proj2 (proj2 (proj2 (validation_errors 0 rows_no_columns None None
           (store_of rows_no_columns) H)))) eq_refl).
Defined.

(** C3, counterexample: a DataFrame with one row and no column has none of
    the required fields, yet [load] raises EmptyInputError, not
    MissingFieldsError [vendor; amount; date]. *)
Lemma one_row_no_column_is_empty :
  nrows rows_no_columns = 1%nat /\
  missing_fields rows_no_columns = ["vendor"; "amount"; "date"] /\
  fst (load 0 None None (store_of rows_no_columns)) = Err EmptyInputError.
Proof. vm_compute. auto. Qed.

(** ** Sorting and ranking *)

Section SortDesc.
Context {A : Type} (f : A -> Q).

Lemma insert_desc_perm x l : Permutation (insert_desc f x l) (x :: l).
Proof.
  induction l as [|y l IH]; simpl; [auto|].
  destruct (Qle_bool (f y) (f x)); [auto|].
  rewrite IH. apply perm_swap.
Qed.

Lemma sort_desc_perm l : Permutation (sort_desc f l) l.
Proof.
  induction l as [|x l IH]; simpl; [auto|].
  rewrite insert_desc_perm. auto.
Qed.

Lemma insert_desc_hd y x l :
  (f x <= f y)%Q -> HdRel (desc f) y l -> HdRel (desc f) y (insert_desc f x l).
Proof.
  intros Hxy Hd. destruct l as [|z l]; simpl.
  - constructor. exact Hxy.
  - destruct (Qle_bool (f z) (f x)); constructor; [exact Hxy|].
    inversion Hd. assumption.
Qed.

Lemma insert_desc_sorted x l : Sorted (desc f) l -> Sorted (desc f) (insert_desc f x l).
Proof.
  induction l as [|y l IH]; intros Hs; simpl.
  - constructor; constructor.
  - destruct (Qle_bool (f y) (f x)) eqn:E.
    + constructor; [exact Hs|]. constructor. apply Qle_bool_iff. exact E.
    + inversion Hs as [|? ? Hs' Hd]; subst.
      constructor; [apply IH, Hs'|].
      apply insert_desc_hd; [|exact Hd].
      apply Qlt_le_weak, Qnot_le_lt. intros Hle. apply Qle_bool_iff in Hle. congruence.
Qed.

Lemma sort_desc_sorted l : Sorted (desc f) (sort_desc f l).
Proof.
  induction l as [|x l IH]; simpl; [constructor|].
  apply insert_desc_sorted, IH.
Qed.

Lemma sorted_firstn n l : Sorted (desc f) l -> Sorted (desc f) (firstn n l).
Proof.
  revert l. induction n as [|n IH]; intros l Hs; simpl; [constructor|].
  destruct l as [|x l]; [constructor|].
  inversion Hs as [|? ? Hs' Hd]; subst. constructor; [apply IH, Hs'|].
  destruct n, l; simpl; try constructor. inversion Hd. assumption.
Qed.
End SortDesc.

Lemma sorted_map {A B} (R : A -> A -> Prop) (R' : B -> B -> Prop) (g : A -> B) l :
  (forall a b, R a b -> R' (g a) (g b)) -> Sorted R l -> Sorted R' (map g l).
Proof.
  intros HR Hs. induction Hs as [|a l Hs IH Hd]; simpl; constructor; [exact IH|].
  destruct Hd; simpl; constructor. apply HR. assumption.
Qed.

Lemma sorted_combine {A K} (R : A -> A -> Prop) (ks : list K) l :
  Sorted R l -> Sorted (fun p q => R (snd p) (snd q)) (combine ks l).
Proof.
  intros Hs. revert ks. induction Hs as [|a l Hs IH Hd]; intros ks; simpl.
  - destruct ks; constructor.
  - destruct ks as [|k ks]; [constructor|]. constructor; [apply IH|].
    destruct Hd as [|b l' Hab]; destruct ks; simpl; constructor. exact Hab.
Qed.

Lemma ranked_length {A} (l : list A) : length (ranked l) = length l.
Proof. unfold ranked. rewrite length_combine, length_seq. lia. Qed.

Lemma ranked_fst {A} (l : list A) : map fst (ranked l) = seq 1 (length l).
Proof.
  unfold ranked. generalize 1%nat. induction l as [|x l IH]; intros n; simpl; [reflexivity|].
  f_equal. apply IH.
Qed.

Lemma in_ranked {A} (l : list A) p : In p (ranked l) -> In (snd p) l.
Proof. destruct p. unfold ranked. simpl. apply in_combine_r. Qed.

Lemma length_sort_desc {A} (f : A -> Q) l : length (sort_desc f l) = length l.
Proof. apply Permutation_length, sort_desc_perm. Qed.

(** ** Successful runs of the two ranking generators *)

Lemma executive_summary_ok t s :
  executive_summary t = Ok s ->
  exists amounts vs cat_count,
    series t "amount" = Ok amounts /\ series t "vendor" = Ok vs /\
    s = mk_summary (period_of t) (series_sum amounts) (nrows t) (nunique vs)
          (series_mean amounts) cat_count
          (map (fun p => let '(i, (v, s, c)) := p in
                         mk_top_row i v s (fdiv s (series_sum amounts)) c)
               (ranked (nlargest 5 (fun g : value * Q * nat => snd (fst g))
                                  (vendor_sum_count vs amounts)))).
Proof.
  unfold executive_summary, mbind, result_bind, mret, result_ret.
  destruct (series t "amount") as [amounts|]; [|discriminate].
  destruct (series t "vendor") as [vs|]; [|discriminate].
  intros H.
  match type of H with
  | match ?c with _ => _ end = _ => destruct c as [cat|]; [|discriminate]
  end.
  injection H as <-. eauto 6.
Qed.

Lemma vendor_analysis_ok t rows :
  vendor_analysis t = Ok rows ->
  exists vs amounts countries,
    series t "vendor" = Ok vs /\ series t "amount" = Ok amounts /\
    rows = map (fun p => with_vendor_rank (fst p) (snd p))
             (ranked (sort_desc v_total
                (map (fun k =>
                        let g := group_of k vs amounts in
                        mk_vendor_row 0 k (series_sum g) (series_count g) (series_mean g)
                          (fdiv (series_sum g) (series_sum amounts))
                          (option_map (fun cs => first_notna (group_of k vs cs)) countries))
                     (group_keys vs)))).
Proof.
  unfold vendor_analysis, mbind, result_bind, mret, result_ret.
  destruct (series t "vendor") as [vs|]; [|discriminate].
  destruct (series t "amount") as [amounts|]; [|discriminate].
  intros H.
  match type of H with
  | match ?c with _ => _ end = _ => destruct c as [countries|]; [|discriminate]
  end.
  injection H as <-. eauto 6.
Qed.

(** Ranked rows: the rank of the row at position [i] is [i + 1]. *)
Lemma ranked_rows_sorted {A B} (f : A -> Q) (g : nat -> A -> B) (h : B -> Q) (rk : B -> nat) l :
  (forall i a, h (g i a) = f a) -> (forall i a, rk (g i a) = i) ->
  Sorted (desc h) (map (fun p => g (fst p) (snd p)) (ranked (sort_desc f l))) /\
  map rk (map (fun p => g (fst p) (snd p)) (ranked (sort_desc f l)))
    = seq 1 (length (sort_desc f l)).
Proof.
  intros Hh Hr. split.
  - eapply sorted_map; [|apply sorted_combine, sort_desc_sorted].
    intros [i a] [j b]; unfold desc; simpl. rewrite !Hh. auto.
  - rewrite map_map. erewrite map_ext; [apply ranked_fst|].
    intros [i a]; simpl. apply Hr.
Qed.

(** ** C8: order and ranks of the vendor rankings *)

(** C8 (amended): whenever both generators succeed, the top-5 list of the
    executive summary is in non-increasing order of total spend, its ranks
    are 1, 2, ... without gaps and it holds min(5, number of vendors) rows;
    the Spend by Vendor sheet is in non-increasing order of total spend and
    the row at position [i] has rank [i + 1]. *)
Theorem rankings_ordered (t : table) (s : summary) (rows : list vendor_row) :
  executive_summary t = Ok s -> vendor_analysis t = Ok rows ->
  Sorted (fun a b => (t_sum b <= t_sum a)%Q) (s_top5 s) /\
  map t_rank (s_top5 s) = seq 1 (length (s_top5 s)) /\
  length (s_top5 s) = Nat.min 5 (length rows) /\
  Sorted (fun a b => (v_total b <= v_total a)%Q) rows /\
  map v_rank rows = seq 1 (length rows).
Proof.
  intros Hs Hr.
  apply executive_summary_ok in Hs as (amounts & vs & cat & Ea & Ev & ->).
  apply vendor_analysis_ok in Hr as (vs' & amounts' & countries & Ev' & Ea' & ->).
  rewrite Ev in Ev'; injection Ev' as <-. rewrite Ea in Ea'; injection Ea' as <-.
  simpl. unfold nlargest.
  destruct (ranked_rows_sorted v_total with_vendor_rank v_total v_rank
              (map (fun k =>
                      let g := group_of k vs amounts in
                      mk_vendor_row 0 k (series_sum g) (series_count g) (series_mean g)
                        (fdiv (series_sum g) (series_sum amounts))
                        (option_map (fun cs => first_notna (group_of k vs cs)) countries))
                   (group_keys vs)))
    as [Hsort Hrank]; try reflexivity.
  refine (conj _ (conj _ (conj _ (conj Hsort _)))).
  - eapply (sorted_map (fun p q : nat * (value * Q * nat) =>
                          desc (fun g : value * Q * nat => snd (fst g)) (snd p) (snd q)));
      [|apply sorted_combine, sorted_firstn, sort_desc_sorted].
    intros [i [[v x] c]] [j [[w y] d]]; unfold desc; simpl. auto.
  - rewrite map_map, length_map, ranked_length, <- ranked_fst.
    apply map_ext. intros [i [[v x] c]]; reflexivity.
  - rewrite !length_map, !ranked_length, length_firstn, !length_sort_desc.
    unfold vendor_sum_count. rewrite !length_map. reflexivity.
  - rewrite length_map, ranked_length. exact Hrank.
Qed.

Lemma rankings_ordered_witness :
  exists s rows,
    executive_summary sample_df = Ok s /\ vendor_analysis sample_df = Ok rows /\
    Sorted (fun a b => (t_sum b <= t_sum a)%Q) (s_top5 s) /\
    map t_rank (s_top5 s) = seq 1 (length (s_top5 s)) /\
    length (s_top5 s) = Nat.min 5 (length rows) /\
    Sorted (fun a b => (v_total b <= v_total a)%Q) rows /\
    map v_rank rows = seq 1 (length rows).
Proof.
  assert (E1 : exists s, executive_summary sample_df = Ok s) by (cbv; eexists; reflexivity).
  assert (E2 : exists rows, vendor_analysis sample_df = Ok rows) by (cbv; eexists; reflexivity).
  destruct E1 as [s Hs], E2 as [rows Hr].
  exists s, rows. split; [exact Hs|]. split; [exact Hr|].
  exact (rankings_ordered sample_df s rows Hs Hr).
Defined.

(** C8, counterexample: two vendors with the same total spend both appear
    in the top-5 list with equal totals, so the list is not strictly
    decreasing. *)
Lemma tied_totals_not_strict :
  exists s, executive_summary tied_vendors = Ok s /\
    map t_sum (s_top5 s) = [100%Q; 100%Q] /\
    ~ Sorted (fun a b => (t_sum b < t_sum a)%Q) (s_top5 s).
Proof.
  assert (E : exists s, executive_summary tied_vendors = Ok s) by (cbv; eexists; reflexivity).
  destruct E as [s Hs]. exists s. split; [exact Hs|].
  assert (Ht : map t_sum (s_top5 s) = [100%Q; 100%Q]).
  { revert Hs. vm_compute. intros H. injection H as <-. reflexivity. }
  split; [exact Ht|].
  intros Hsort. destruct (s_top5 s) as [|a [|b r]]; try discriminate.
  simpl in Ht. injection Ht as Ha Hb.
  apply Sorted_inv in Hsort as [_ Hd]. apply HdRel_inv in Hd.
  rewrite Ha, Hb in Hd. vm_compute in Hd. discriminate.
Qed.

(** ** Group keys and per-group sums *)

Lemma value_eqb_refl v : value_eqb v v = true.
Proof.
  destruct v; simpl; auto; try apply Qeq_bool_refl. apply String.eqb_refl.
Qed.

Lemma value_eqb_sym a b : value_eqb a b = value_eqb b a.
Proof.
  destruct a, b; simpl; auto.
  - apply eq_true_iff_eq. rewrite !Qeq_bool_iff. split; apply Qeq_sym.
  - apply String.eqb_sym.
  - apply eq_true_iff_eq. rewrite !Qeq_bool_iff. split; apply Qeq_sym.
Qed.

Lemma value_eqb_trans a b c : value_eqb a b = true -> value_eqb b c = true -> value_eqb a c = true.
Proof.
  destruct a, b, c; simpl; try discriminate; auto.
  - rewrite !Qeq_bool_iff. apply Qeq_trans.
  - rewrite !String.eqb_eq. congruence.
  - rewrite !Qeq_bool_iff. apply Qeq_trans.
Qed.

Lemma in_dedup_vals x l :
  In x l -> exists y, In y (dedup_vals l) /\ value_eqb y x = true.
Proof.
  induction l as [|z r IH]; simpl; [tauto|]. intros [->|Hx].
  - exists x. split; [left; reflexivity | apply value_eqb_refl].
  - destruct (IH Hx) as (y & Hy & Hyx).
    destruct (value_eqb z y) eqn:Ezy.
    + exists z. split; [left; reflexivity | eapply value_eqb_trans; eauto].
    + exists y. split; [right; apply filter_In; rewrite Ezy; auto | exact Hyx].
Qed.

Lemma insert_key_perm k l : Permutation (insert_key k l) (k :: l).
Proof.
  induction l as [|y l IH]; simpl; [auto|].
  destruct (value_ltb k y); [auto|]. rewrite IH. apply perm_swap.
Qed.

Lemma group_keys_perm vs : Permutation (group_keys vs) (dedup_vals (List.filter notna vs)).
Proof.
  unfold group_keys. induction (dedup_vals (List.filter notna vs)) as [|x l IH]; simpl; [auto|].
  rewrite insert_key_perm. auto.
Qed.

Lemma series_sum_cons a l : series_sum (a :: l) == amount_or_zero a + series_sum l.
Proof. unfold series_sum, amount_or_zero. destruct a; simpl; ring. Qed.

Lemma series_sum_nil : series_sum [] == 0.
Proof. reflexivity. Qed.

Lemma group_sum_spend k vs amounts :
  series_sum (group_of k vs amounts) == vendor_spend vs amounts k.
Proof.
  unfold group_of, vendor_spend. revert amounts.
  induction vs as [|v vs IH]; intros [|a amounts]; simpl; try reflexivity.
  destruct (value_eqb v k); simpl.
  - rewrite series_sum_cons, IH. reflexivity.
  - rewrite IH. ring.
Qed.

Lemma series_sum_total amounts : series_sum amounts == grand_total amounts.
Proof.
  unfold grand_total. induction amounts as [|a l IH]; simpl; [reflexivity|].
  rewrite series_sum_cons, IH. reflexivity.
Qed.

Lemma in_vendor_rows {B} (g : nat -> vendor_row -> B) (mk : value -> vendor_row) keys y :
  In y (map (fun p => g (fst p) (snd p)) (ranked (sort_desc v_total (map mk keys)))) ->
  exists i k, In k keys /\ y = g i (mk k).
Proof.
  rewrite in_map_iff. intros ([i r] & <- & Hin).
  apply in_ranked in Hin. simpl in Hin.
  apply (Permutation_in _ (sort_desc_perm v_total _)) in Hin.
  apply in_map_iff in Hin as (k & <- & Hk). eauto.
Qed.

Lemma in_ranked_inv {A} (l : list A) x : In x l -> exists i, In (i, x) (ranked l).
Proof.
  unfold ranked. generalize 1%nat. induction l as [|y l IH]; intros n Hx; simpl in *; [tauto|].
  destruct Hx as [<-|Hx]; [exists n; left; reflexivity|].
  destruct (IH (S n) Hx) as [i Hi]. exists i. right. exact Hi.
Qed.

(** ** C2: per-vendor and grand totals *)

(** C2: on the sample input (amounts 100, 200, 150 for vendors A, B, A) the
    saved report shows a grand total of 450, 2 vendors, and totals 250 for A
    and 200 for B; in general, when both generators succeed, the total of
    each vendor row is the sum of that vendor's amounts (nulls counting as
    0), every non-null vendor of the input has a row, the grand total is the
    sum of all amounts and the vendor count is the number of vendor rows. *)
Theorem vendor_totals_exact (t : table) (vs amounts : list value) (s : summary)
    (rows : list vendor_row) :
  series t "vendor" = Ok vs -> series t "amount" = Ok amounts ->
  executive_summary t = Ok s -> vendor_analysis t = Ok rows ->
  (forall r, In r rows -> v_total r == vendor_spend vs amounts (v_name r)) /\
  (forall k, In k vs -> notna k = true ->
     exists r, In r rows /\ value_eqb (v_name r) k = true) /\
  s_total_spend s == grand_total amounts /\
  s_vendor_count s = length rows /\
  match files (snd (load 0 None (Some "report.xlsx") (store_of sample_df))) with
  | [(_, sheets)] => report_figures sheets
  | _ => None
  end = Some (450%Q, 2%nat, [(VStr "Vendor A", 250%Q); (VStr "Vendor B", 200%Q)]).
Proof.
  intros Ev Ea Hs Hr.
  apply executive_summary_ok in Hs as (amounts' & vs' & cat & Ea' & Ev' & ->).
  rewrite Ev in Ev'; injection Ev' as <-. rewrite Ea in Ea'; injection Ea' as <-.
  apply vendor_analysis_ok in Hr as (vs' & amounts' & countries & Ev' & Ea' & ->).
  rewrite Ev in Ev'; injection Ev' as <-. rewrite Ea in Ea'; injection Ea' as <-.
  refine (conj _ (conj _ (conj _ (conj _ _)))).
  - intros r Hin. apply in_vendor_rows in Hin as (i & k & _ & ->).
    simpl. apply group_sum_spend.
  - intros k Hk Hn.
    assert (Hf : In k (List.filter notna vs)) by (apply filter_In; auto).
    apply in_dedup_vals in Hf as (y & Hy & Hyk).
    apply (Permutation_in _ (Permutation_sym (group_keys_perm vs))) in Hy.
    match goal with
    | |- exists r, In r (map ?g (ranked (sort_desc v_total (map ?mk _)))) /\ _ =>
        assert (Hm : In (mk y) (sort_desc v_total (map mk (group_keys vs))))
          by (apply (Permutation_in _ (Permutation_sym (sort_desc_perm v_total _)));
              exact (in_map mk _ _ Hy));
        apply in_ranked_inv in Hm as [i Hi];
        exists (g (i, mk y)); split; [exact (in_map g _ _ Hi) | exact Hyk]
    end.
  - simpl. apply series_sum_total.
  - simpl. unfold nunique.
    rewrite length_map, ranked_length, length_sort_desc, length_map.
    symmetry. apply Permutation_length, group_keys_perm.
  - vm_compute. reflexivity.
Qed.

Lemma vendor_totals_exact_witness :
  exists s rows,
    series sample_df "vendor" = Ok [VStr "Vendor A"; VStr "Vendor B"; VStr "Vendor A"] /\
    series sample_df "amount" = Ok [VNum 100; VNum 200; VNum 150] /\
    executive_summary sample_df = Ok s /\ vendor_analysis sample_df = Ok rows /\
    (forall r, In r rows -> v_total r ==
       vendor_spend [VStr "Vendor A"; VStr "Vendor B"; VStr "Vendor A"]
                    [VNum 100; VNum 200; VNum 150] (v_name r)).
Proof.
  assert (Ev : series sample_df "vendor" = Ok [VStr "Vendor A"; VStr "Vendor B"; VStr "Vendor A"])
    by reflexivity.
  assert (Ea : series sample_df "amount" = Ok [VNum 100; VNum 200; VNum 150]) by reflexivity.
  assert (E1 : exists s, executive_summary sample_df = Ok s) by (cbv; eexists; reflexivity).
  assert (E2 : exists rows, vendor_analysis sample_df = Ok rows) by (cbv; eexists; reflexivity).
  destruct E1 as [s Hs], E2 as [rows Hr].
  exists s, rows. refine (conj Ev (conj Ea (conj Hs (conj Hr _)))).
  exact (proj1 (vendor_totals_exact sample_df _ _ s rows Ev Ea Hs Hr)).
Defined.

(** ** C6: the insight rules *)

Lemma filter_nil_existsb {A} (f : A -> bool) l :
  List.filter f l = [] <-> existsb f l = false.
Proof.
  induction l as [|a l IH]; simpl; [tauto|].
  destruct (f a); simpl; [split; discriminate | exact IH].
Qed.

Lemma risk_level_fin (x : Q) :
  (risk_level (EFin x) = High <-> 80 < x)%Q /\
  (risk_level (EFin x) = Medium <-> 50 < x /\ x <= 80)%Q /\
  (risk_level (EFin x) = Low <-> x <= 50)%Q.
Proof.
  unfold risk_level, egt.
  destruct (qltb 80 x) eqn:E80; destruct (qltb 50 x) eqn:E50;
    rewrite ?qltb_true, ?qltb_false in E80; rewrite ?qltb_true, ?qltb_false in E50;
    (split; [|split]); split; intros H;
    first [ discriminate | reflexivity | exact E80 | lra
          | (split; lra) | (exfalso; lra) | (destruct H; exfalso; lra) ].
Qed.

(** C6: with [totals] the per-vendor sums, the insights are a consolidation
    insight exactly when some vendor total is below 5000 (citing the number
    of such vendors, their combined spend [tail] and savings of 15% and 20%
    of [tail]), followed by a concentration insight, always present; when
    the grand total is not zero its share is [top10 / total * 100] and its
    risk is High above 80, Medium above 50 up to 80, and Low otherwise; when
    the grand total is zero the share is [inf] (High) for a positive
    [top10], [-inf] (Low) for a negative one and [nan] (Low) for zero. *)
Theorem insights_rules (t : table) (vs amounts : list value) :
  series t "vendor" = Ok vs -> series t "amount" = Ok amounts ->
  let totals := map (fun k => series_sum (group_of k vs amounts)) (group_keys vs) in
  let tail := qsum (List.filter (fun s => qltb s 5000) totals) in
  let n_tail := length (List.filter (fun s => qltb s 5000) totals) in
  let top10 := qsum (firstn 10 (sort_desc (fun s => s) totals)) in
  let total := series_sum amounts in
  exists conc level,
    insights t =
      Ok (app (if existsb (fun s => qltb s 5000) totals
               then [Consolidation n_tail tail (tail * (15 # 100)) (tail * (20 # 100))]
               else [])
              [Concentration conc top10 level]) /\
    (~ total == 0 ->
       conc = EFin (top10 / total * 100) /\
       (level = High <-> 80 < top10 / total * 100) /\
       (level = Medium <-> 50 < top10 / total * 100 <= 80) /\
       (level = Low <-> top10 / total * 100 <= 50))%Q /\
    (total == 0 ->
       (0 < top10 -> conc = EPosInf /\ level = High) /\
       (top10 < 0 -> conc = ENegInf /\ level = Low) /\
       (top10 == 0 -> conc = ENaN /\ level = Low))%Q.
Proof.
  intros Ev Ea totals tail n_tail top10 total.
  exists (emul (fdiv top10 total) 100), (risk_level (emul (fdiv top10 total) 100)).
  split; [|split].
  - unfold insights, mbind, result_bind, mret, result_ret. rewrite Ev, Ea.
    do 2 f_equal.
    fold totals. unfold tail, n_tail, tail_threshold.
    destruct (existsb (fun s => qltb s 5000) totals) eqn:Ee.
    + destruct (List.filter (fun s => qltb s 5000) totals) eqn:Ef; [|reflexivity].
      apply filter_nil_existsb in Ef. congruence.
    + apply filter_nil_existsb in Ee. rewrite Ee. reflexivity.
  - intros Hz. unfold fdiv.
    destruct (Qeq_bool total 0) eqn:E; [apply Qeq_bool_iff in E; contradiction|].
    simpl. split; [reflexivity|]. apply risk_level_fin.
  - intros Hz. unfold fdiv.
    replace (Qeq_bool total 0) with true by (symmetry; apply Qeq_bool_iff; exact Hz).
    split; [|split]; intros Hs.
    + replace (qltb 0 top10) with true by (symmetry; apply qltb_true; exact Hs). auto.
    + replace (qltb 0 top10) with false by (symmetry; apply qltb_false; lra).
      replace (qltb top10 0) with true by (symmetry; apply qltb_true; exact Hs). auto.
    + replace (qltb 0 top10) with false by (symmetry; apply qltb_false; lra).
      replace (qltb top10 0) with false by (symmetry; apply qltb_false; lra). auto.
Qed.

Lemma insights_rules_witness :
  series sample_df "vendor" = Ok [VStr "Vendor A"; VStr "Vendor B"; VStr "Vendor A"] /\
  series sample_df "amount" = Ok [VNum 100; VNum 200; VNum 150] /\
  exists conc level,
    insights sample_df =
      Ok [Consolidation 2 450 (450 * (15 # 100)) (450 * (20 # 100));
          Concentration conc 450 level].
Proof.
  assert (Ev : series sample_df "vendor" = Ok [VStr "Vendor A"; VStr "Vendor B"; VStr "Vendor A"])
    by reflexivity.
  assert (Ea : series sample_df "amount" = Ok [VNum 100; VNum 200; VNum 150]) by reflexivity.
  split; [exact Ev|]. split; [exact Ea|].
  destruct (insights_rules sample_df _ _ Ev Ea) as (conc & level & H & _ & _).
  exists conc, level. rewrite H. reflexivity.
Defined.

(** ** C7: the data-quality report *)

Lemma filter_none {A} (f : A -> bool) l :
  (forall x, In x l -> f x = false) -> List.filter f l = [].
Proof.
  induction l as [|a l IH]; intros H; simpl; [reflexivity|].
  rewrite (H a (or_introl eq_refl)). apply IH. intros x Hx. apply H. right. exact Hx.
Qed.

Lemma filter_unique_key {B} (l : list (string * B)) k v :
  List.NoDup (map fst l) -> In (k, v) l ->
  List.filter (fun p => String.eqb (fst p) k) l = [(k, v)].
Proof.
  induction l as [|[k' v'] l IH]; simpl; intros Hnd Hin; [contradiction|].
  inversion Hnd as [|? ? Hk' Hnd']; subst.
  destruct Hin as [Heq|Hin].
  - injection Heq as -> ->. rewrite String.eqb_refl. f_equal.
    apply filter_none. intros [k2 v2] Hx. simpl.
    apply String.eqb_neq. intros ->. apply Hk'. apply (in_map fst _ _ Hx).
  - assert (Hne : k' <> k) by (intros ->; apply Hk'; apply (in_map fst _ _ Hin)).
    apply String.eqb_neq in Hne. rewrite Hne. apply IH; assumption.
Qed.

Lemma mapM_result_ok {A B} (f : A -> result B) (g : A -> B) l :
  (forall x, In x l -> f x = Ok (g x)) -> mapM_result f l = Ok (map g l).
Proof.
  induction l as [|a l IH]; intros H; simpl; [reflexivity|].
  rewrite (H a (or_introl eq_refl)).
  rewrite IH by (intros x Hx; apply H; right; exact Hx). reflexivity.
Qed.

Lemma Qle_bool_false (a b : Q) : Qle_bool a b = false -> (b < a)%Q.
Proof. intros H. apply qltb_true. unfold qltb. rewrite H. reflexivity. Qed.

Lemma quality_status_spec (c : Q) :
  (quality_status c = OK <-> 90 <= c)%Q /\
  (quality_status c = WARNING <-> 70 <= c < 90)%Q /\
  (quality_status c = CRITICAL <-> c < 70)%Q.
Proof.
  unfold quality_status.
  destruct (Qle_bool 90 c) eqn:E90; destruct (Qle_bool 70 c) eqn:E70;
    [apply Qle_bool_iff in E90; apply Qle_bool_iff in E70
    |apply Qle_bool_iff in E90; apply Qle_bool_false in E70
    |apply Qle_bool_false in E90; apply Qle_bool_iff in E70
    |apply Qle_bool_false in E90; apply Qle_bool_false in E70];
    (split; [|split]); split; intros H;
    first [ discriminate | reflexivity | lra | (split; lra) | (exfalso; lra)
          | (destruct H; exfalso; lra) ].
Qed.

Lemma mapM_result_ok_inv {A B} (f : A -> result B) l ys :
  mapM_result f l = Ok ys -> forall x, In x l -> exists y, f x = Ok y.
Proof.
  revert ys. induction l as [|a l IH]; intros ys H x Hx; [contradiction|]. simpl in H.
  destruct (f a) as [y|e] eqn:Ea; [|discriminate].
  destruct (mapM_result f l) as [ys'|e] eqn:El; [|discriminate].
  destruct Hx as [<-|Hx]; [eauto|]. exact (IH ys' eq_refl x Hx).
Qed.

Lemma mapM_result_err {A B} (f : A -> result B) l e :
  mapM_result f l = Err e -> exists x, In x l /\ f x = Err e.
Proof.
  induction l as [|a l IH]; simpl; intros H; [discriminate|].
  destruct (f a) as [y|e'] eqn:Ea.
  - destruct (mapM_result f l) as [ys|e'] eqn:El; [discriminate|].
    injection H as ->. destruct (IH eq_refl) as (x & Hx & Hf). eauto.
  - injection H as ->. eauto.
Qed.

Lemma lookup_label_single (l : list (string * Q)) n v :
  lookup_label l n = Ok v -> length (List.filter (fun p => String.eqb (fst p) n) l) = 1%nat.
Proof.
  unfold lookup_label. destruct (List.filter _ l) as [|p [|p' r]]; try discriminate. reflexivity.
Qed.

Lemma single_labels_NoDup {B} (l : list (string * B)) :
  (forall x, In x l -> length (List.filter (fun p => String.eqb (fst p) (fst x)) l) = 1%nat) ->
  List.NoDup (map fst l).
Proof.
  induction l as [|a l IH]; intros H; simpl; constructor.
  - intros Hin. specialize (H a (or_introl eq_refl)). simpl in H.
    rewrite String.eqb_refl in H. simpl in H. injection H as H.
    apply in_map_iff in Hin as (y & Hy & Hin).
    assert (Hf : In y (List.filter (fun p => String.eqb (fst p) (fst a)) l)).
    { apply filter_In. split; [exact Hin|]. rewrite Hy. apply String.eqb_refl. }
    destruct (List.filter _ l); [contradiction|discriminate].
  - apply IH. intros x Hx. specialize (H x (or_intror Hx)). simpl in H.
    destruct (String.eqb (fst a) (fst x)) eqn:E; [|exact H].
    exfalso. apply String.eqb_eq in E.
    specialize (Hx) as Hx'. simpl in H. injection H as H.
    assert (Hf : In x (List.filter (fun p => String.eqb (fst p) (fst a)) l)).
    { apply filter_In. split; [exact Hx|]. rewrite E. apply String.eqb_refl. }
    rewrite E in Hf. destruct (List.filter _ l); [contradiction|discriminate].
Qed.

(** The report is produced only for distinct labels. *)
Lemma data_quality_report_labels t q :
  data_quality_report t = Ok q -> List.NoDup (map fst (columns t)).
Proof.
  unfold data_quality_report, mbind, result_bind. intros H.
  destruct (mapM_result _ _) as [rows|e] eqn:Em; [|discriminate].
  set (comp := map (fun c => (fst c, completeness t (snd c))) (columns t)) in *.
  replace (map fst (columns t)) with (map fst comp) by (unfold comp; rewrite map_map; reflexivity).
  apply single_labels_NoDup. intros x Hx.
  unfold comp in Hx. apply in_map_iff in Hx as (c & <- & Hc). simpl.
  destruct (mapM_result_ok_inv _ _ _ Em c Hc) as (y & Hy).
  destruct (lookup_label comp (fst c)) as [v|e] eqn:El; [|discriminate].
  exact (lookup_label_single _ _ _ El).
Qed.

Lemma data_quality_report_dup t :
  ~ List.NoDup (map fst (columns t)) -> exists n, data_quality_report t = Err (NotOneDimensional n).
Proof.
  intros Hnd. destruct (data_quality_report t) as [q|e] eqn:E.
  - exfalso. exact (Hnd (data_quality_report_labels t q E)).
  - exists (match e with NotOneDimensional n => n | _ => EmptyString end).
    unfold data_quality_report, mbind, result_bind in E.
    destruct (mapM_result _ _) as [rows|e'] eqn:Em; [discriminate|]. injection E as <-.
    apply mapM_result_err in Em as (c & Hc & Hf).
    set (comp := map (fun c => (fst c, completeness t (snd c))) (columns t)) in *.
    destruct (lookup_label comp (fst c)) as [v|e] eqn:El; [discriminate|].
    injection Hf as <-. unfold lookup_label in El.
    assert (Hin : In (fst c, completeness t (snd c))
                     (List.filter (fun p => String.eqb (fst p) (fst c)) comp)).
    { apply filter_In. split; [apply (in_map (fun c => (fst c, completeness t (snd c))) _ _ Hc)|].
      apply String.eqb_refl. }
    destruct (List.filter _ comp) as [|p [|p' r]]; [contradiction|discriminate|].
    injection El as <-. reflexivity.
Qed.

(** ** C10: a zero grand total *)

Lemma fdiv_zero a b : b == 0 -> forall q, fdiv a b <> EFin q.
Proof.
  intros Hb q. unfold fdiv.
  replace (Qeq_bool b 0) with true by (symmetry; apply Qeq_bool_iff; exact Hb).
  destruct (qltb 0 a), (qltb a 0); discriminate.
Qed.

Lemma emul_not_fin e c : (forall q, e <> EFin q) -> forall q, emul e c <> EFin q.
Proof. destruct e as [x| | |]; simpl; intros H q; [exfalso; apply (H x); reflexivity | discriminate ..]. Qed.

Lemma risk_level_zero_total a b :
  b == 0 -> (risk_level (emul (fdiv a b) 100) = High <-> 0 < a)%Q /\
            (risk_level (emul (fdiv a b) 100) = Low <-> a <= 0)%Q.
Proof.
  intros Hb. unfold fdiv.
  replace (Qeq_bool b 0) with true by (symmetry; apply Qeq_bool_iff; exact Hb).
  destruct (qltb 0 a) eqn:E0; [apply qltb_true in E0|apply qltb_false in E0];
    [|destruct (qltb a 0) eqn:E1]; cbv [emul risk_level egt];
    split; split; intros H; first [discriminate | reflexivity | lra | exfalso; lra].
Qed.

(** ** The calendar: day numbers and dates *)

Lemma zall_spec f a n :
  zall f a n = true -> forall x, (a <= x < a + Z.of_nat n)%Z -> f x = true.
Proof.
  revert a. induction n as [|n IH]; intros a H x Hx; simpl in *; [lia|].
  apply andb_true_iff in H as [Ha Hr].
  destruct (Z.eq_dec x a) as [->|Hne]; [exact Ha|].
  apply (IH (a + 1)%Z Hr). lia.
Qed.

Lemma date_eqb_eq p q : date_eqb p q = true -> p = q.
Proof.
  destruct p as [[a b] c], q as [[x y] z]; simpl.
  rewrite !andb_true_iff, !Z.eqb_eq. intros [[-> ->] ->]. reflexivity.
Qed.

Lemma leap_shift y k : leap (y + 400 * k) = leap y.
Proof.
  unfold leap.
  replace (y + 400 * k)%Z with (y + (100 * k) * 4)%Z by ring. rewrite Z.mod_add by lia.
  replace (y + 100 * k * 4)%Z with (y + (4 * k) * 100)%Z by ring. rewrite Z.mod_add by lia.
  replace (y + 4 * k * 100)%Z with (y + k * 400)%Z by ring. rewrite Z.mod_add by lia.
  reflexivity.
Qed.

Lemma days_in_month_shift y k m : days_in_month (y + 400 * k) m = days_in_month y m.
Proof. unfold days_in_month. rewrite leap_shift. reflexivity. Qed.

Lemma days_in_month_range y m : (28 <= days_in_month y m <= 31)%Z.
Proof.
  unfold days_in_month.
  repeat match goal with |- context [if ?b then _ else _] => destruct b end; lia.
Qed.

(** 400 Gregorian years are 146097 days. *)
Lemma days_from_civil_shift y m d k :
  days_from_civil (y + 400 * k) m d = (days_from_civil y m d + 146097 * k)%Z.
Proof.
  unfold days_from_civil.
  assert (Hy : (if (m <=? 2)%Z then y + 400 * k - 1 else y + 400 * k)%Z
               = ((if (m <=? 2)%Z then y - 1 else y) + k * 400)%Z)
    by (destruct (m <=? 2)%Z; ring).
  rewrite Hy. generalize (if (m <=? 2)%Z then y - 1 else y)%Z. intros y'.
  rewrite Z.div_add by lia.
  replace (y' + k * 400 - (y' / 400 + k) * 400)%Z with (y' - y' / 400 * 400)%Z by ring.
  ring.
Qed.

Lemma civil_from_days_shift z k :
  civil_from_days (z + 146097 * k) =
  let '(y, m, d) := civil_from_days z in ((y + 400 * k)%Z, m, d).
Proof.
  unfold civil_from_days.
  replace (z + 146097 * k + 719468)%Z with ((z + 719468) + k * 146097)%Z by ring.
  rewrite Z.div_add by lia.
  replace (z + 719468 + k * 146097 - ((z + 719468) / 146097 + k) * 146097)%Z
    with (z + 719468 - (z + 719468) / 146097 * 146097)%Z by ring.
  generalize (z + 719468 - (z + 719468) / 146097 * 146097)%Z. intros doe.
  generalize ((z + 719468) / 146097)%Z. intros era.
  destruct (_ <? 10)%Z; destruct (_ <=? 2)%Z; f_equal; f_equal; ring.
Qed.

Lemma four_centuries_round_trip : zall year_round_trips 0 (Z.to_nat 400) = true.
Proof. vm_compute. reflexivity. Qed.

Lemma civil_from_days_of_date (y m d : Z) :
  valid_date y m d = true -> civil_from_days (days_from_civil y m d) = (y, m, d).
Proof.
  unfold valid_date. rewrite !andb_true_iff, !Z.leb_le. intros [[[Hm1 Hm2] Hd1] Hd2].
  pose (r := (y mod 400)%Z). pose (k := (y / 400)%Z).
  assert (Hy : y = (r + 400 * k)%Z) by (unfold r, k; pose proof (Z.div_mod y 400); lia).
  assert (Hr : (0 <= r < 400)%Z) by (unfold r; apply Z.mod_pos_bound; lia).
  rewrite Hy in Hd2 |- *. rewrite days_in_month_shift in Hd2.
  rewrite days_from_civil_shift, civil_from_days_shift.
  pose proof (days_in_month_range r m).
  pose proof (zall_spec _ _ _ four_centuries_round_trip r
                ltac:(rewrite Z2Nat.id; lia)) as H1.
  unfold year_round_trips in H1.
  pose proof (zall_spec _ _ _ H1 m ltac:(rewrite Z2Nat.id; lia)) as H2. cbv beta in H2.
  pose proof (zall_spec _ _ _ H2 d ltac:(rewrite Z2Nat.id; lia)) as H3. cbv beta in H3.
  apply date_eqb_eq in H3. rewrite H3. reflexivity.
Qed.

Lemma month_label_of_stamp (q : Q) (y m d : Z) :
  stamp_date q = (y, m, d) -> (1 <= m <= 12)%Z -> month_label (month_of (VStamp q)) = (y, m).
Proof.
  intros Hs Hm. unfold month_of. rewrite Hs. unfold month_label. rewrite Qfloor_Z.
  replace ((y - 1970) * 12 + m - 1)%Z with ((m - 1) + (y - 1970) * 12)%Z by ring.
  rewrite Z.div_add, Z.mod_add by lia.
  rewrite Z.div_small, Z.mod_small by lia. f_equal; lia.
Qed.

(** A date string [YYYY-MM-DD] that the parser accepts names a valid
    calendar date. When its midnight lies in the nanosecond range of a
    [Timestamp] (1677-09-22 to 2262-04-11), [_parse_date] turns it into a
    timestamp whose calendar date is the one written, and the Monthly Trends
    sheet counts it in the month [YYYY-MM]; outside that range
    [pd.to_datetime] raises and the date becomes NaT. *)
Theorem iso_date_read_back (s : string) (q : Q) :
  parse_iso_date s = Some q ->
  exists y m d ky km kd,
    digits (String.substring 0 4 s) = Some (y, ky) /\
    digits (String.substring 5 2 s) = Some (m, km) /\
    digits (String.substring 8 2 s) = Some (d, kd) /\
    valid_date y m d = true /\
    (ns_in_bounds (q * ns_per_day) = true ->
       parse_date (VStr s) = VStamp q /\
       stamp_date q = (y, m, d) /\
       month_label (month_of (parse_date (VStr s))) = (y, m)) /\
    (ns_in_bounds (q * ns_per_day) = false -> parse_date (VStr s) = VNaT).
Proof.
  intros H.
  assert (Hp : parse_date (VStr s) =
               if ns_in_bounds (q * ns_per_day) then VStamp q else VNaT).
  { unfold parse_date, to_datetime. simpl. rewrite H.
    destruct (String.eqb s "") eqn:E.
    - apply String.eqb_eq in E. subst s. discriminate.
    - destruct (ns_in_bounds (q * ns_per_day)); reflexivity. }
  unfold parse_iso_date in H.
  destruct (negb (String.length s =? 10)%nat); [discriminate|].
  destruct (String.get 4 s) as [[[] [] [] [] [] [] [] []]|]; try discriminate;
  destruct (String.get 7 s) as [[[] [] [] [] [] [] [] []]|]; try discriminate.
  destruct (digits (String.substring 0 4 s)) as [[y ky]|]; [|discriminate].
  destruct (digits (String.substring 5 2 s)) as [[m km]|]; [|discriminate].
  destruct (digits (String.substring 8 2 s)) as [[d kd]|]; [|discriminate].
  destruct ((1 <=? m)%Z && (m <=? 12)%Z && (1 <=? d)%Z && (d <=? days_in_month y m)%Z)
    eqn:Hv; [|discriminate].
  injection H as <-.
  assert (Hs : stamp_date (inject_Z (days_from_civil y m d)) = (y, m, d)).
  { unfold stamp_date. rewrite Qfloor_Z. apply civil_from_days_of_date. exact Hv. }
  exists y, m, d, ky, km, kd.
  refine (conj eq_refl (conj eq_refl (conj eq_refl (conj Hv (conj _ _))))).
  - intros Hb. rewrite Hb in Hp.
    refine (conj Hp (conj Hs _)).
    rewrite Hp. apply (month_label_of_stamp _ _ _ d Hs).
    rewrite !andb_true_iff, !Z.leb_le in Hv. lia.
  - intros Hb. rewrite Hb in Hp. exact Hp.
Qed.

Lemma iso_date_read_back_witness :
  parse_iso_date "2023-03-15" = Some (inject_Z (days_from_civil 2023 3 15)) /\
  exists y m d ky km kd,
    digits (String.substring 0 4 "2023-03-15") = Some (y, ky) /\
    digits (String.substring 5 2 "2023-03-15") = Some (m, km) /\
    digits (String.substring 8 2 "2023-03-15") = Some (d, kd) /\
    valid_date y m d = true /\
    (ns_in_bounds (inject_Z (days_from_civil 2023 3 15) * ns_per_day) = true ->
       parse_date (VStr "2023-03-15") = VStamp (inject_Z (days_from_civil 2023 3 15)) /\
       stamp_date (inject_Z (days_from_civil 2023 3 15)) = (y, m, d) /\
       month_label (month_of (parse_date (VStr "2023-03-15"))) = (y, m)) /\
    (ns_in_bounds (inject_Z (days_from_civil 2023 3 15) * ns_per_day) = false ->
       parse_date (VStr "2023-03-15") = VNaT).
Proof.
  assert (H : parse_iso_date "2023-03-15" = Some (inject_Z (days_from_civil 2023 3 15)))
    by reflexivity.
  split; [exact H|]. exact (iso_date_read_back _ _ H).
Defined.

(** The two coercions of [load] are idempotent: [pd.to_numeric] of an
    amount it already produced, and [_parse_date] of a value it already
    produced, give that value back. *)
Lemma coercions_idempotent (v : value) :
  to_numeric (to_numeric v) = to_numeric v /\ parse_date (parse_date v) = parse_date v.
Proof.
  split.
  - destruct v; simpl; try reflexivity. destruct (parse_decimal s); reflexivity.
  - destruct (parse_date_cases v) as [Hn|[d Hd]].
    + unfold parse_date at 1. rewrite Hn. reflexivity.
    + rewrite Hd. reflexivity.
Qed.

(** A number from 0 to 25569 is not read as a spreadsheet serial:
    [pd.to_datetime] takes it as nanoseconds since the epoch, so
    [_parse_date] gives a timestamp on 1970-01-01. *)
Lemma small_number_date_is_epoch (q : Q) :
  (0 <= q <= 25569)%Q ->
  exists d, parse_date (VNum q) = VStamp d /\ stamp_date d = (1970%Z, 1%Z, 1%Z).
Proof.
  intros [H0 H1].
  assert (Hs : qltb 25569 q = false) by (apply qltb_false; exact H1).
  assert (Hb : ns_in_bounds q = true).
  { unfold ns_in_bounds. rewrite andb_true_iff, !qltb_true.
    assert (E : inject_Z (2 ^ 63) == 9223372036854775808) by reflexivity.
    rewrite E. split; lra. }
  exists (q / ns_per_day)%Q. split.
  - unfold parse_date. simpl. rewrite Hs, Hb. reflexivity.
  - unfold stamp_date.
    assert (Ex : (q / ns_per_day == q * (1 # 86400000000000))%Q) by reflexivity.
    assert (Hf : Qfloor (q / ns_per_day)%Q = 0%Z).
    { pose proof (Qfloor_le (q / ns_per_day)%Q) as Hle.
      pose proof (Qlt_floor (q / ns_per_day)%Q) as Hlt.
      assert (Hx : (0 <= q / ns_per_day < 1)%Q) by (rewrite Ex; lra).
      rewrite inject_Z_plus in Hlt. change (inject_Z 1) with 1%Q in Hlt. set (x := (q / ns_per_day)%Q) in *.
      assert (A : (inject_Z (Qfloor x) < 1)%Q) by lra.
      assert (B : (-1 < inject_Z (Qfloor x))%Q) by lra.
      change 1%Q with (inject_Z 1) in A. change (-1)%Q with (inject_Z (-1)) in B.
      rewrite <- Zlt_Qlt in A, B. lia. }
    rewrite Hf. reflexivity.
Qed.

Lemma Qmin_cases (x y : Q) : (Qmin x y = x /\ (x <= y)%Q) \/ (Qmin x y = y /\ (y <= x)%Q).
Proof.
  unfold Qmin, GenericMinMax.gmin. destruct (Qcompare x y) eqn:E.
  - left. split; [reflexivity|]. apply Qeq_alt in E. rewrite E. apply Qle_refl.
  - left. split; [reflexivity|]. apply Qlt_le_weak, Qlt_alt, E.
  - right. split; [reflexivity|]. apply Qlt_le_weak, Qgt_alt, E.
Qed.

Lemma Qmax_cases (x y : Q) : (Qmax x y = y /\ (x <= y)%Q) \/ (Qmax x y = x /\ (y <= x)%Q).
Proof.
  unfold Qmax, GenericMinMax.gmax. destruct (Qcompare x y) eqn:E.
  - right. split; [reflexivity|]. apply Qeq_alt in E. rewrite E. apply Qle_refl.
  - left. split; [reflexivity|]. apply Qlt_le_weak, Qlt_alt, E.
  - right. split; [reflexivity|]. apply Qlt_le_weak, Qgt_alt, E.
Qed.

Lemma fold_Qmin_spec r d :
  In (fold_left Qmin r d) (d :: r) /\ forall x, In x (d :: r) -> (fold_left Qmin r d <= x)%Q.
Proof.
  revert d. induction r as [|a r IH]; intros d; simpl.
  - split; [auto|]. intros x [<-|[]]. apply Qle_refl.
  - destruct (IH (Qmin d a)) as [Hin Hle]. split.
    + destruct Hin as [Hm|Hin]; [|auto].
      destruct (Qmin_cases d a) as [[E _]|[E _]]; rewrite <- Hm, E; auto.
    + intros x [->|[->|Hx]].
      * eapply Qle_trans; [apply Hle; left; reflexivity|].
        destruct (Qmin_cases x a) as [[E _]|[E H]]; rewrite E; [apply Qle_refl|exact H].
      * eapply Qle_trans; [apply Hle; left; reflexivity|].
        destruct (Qmin_cases d x) as [[E H]|[E _]]; rewrite E; [exact H|apply Qle_refl].
      * apply Hle. right. exact Hx.
Qed.

Lemma fold_Qmax_spec r d :
  In (fold_left Qmax r d) (d :: r) /\ forall x, In x (d :: r) -> (x <= fold_left Qmax r d)%Q.
Proof.
  revert d. induction r as [|a r IH]; intros d; simpl.
  - split; [auto|]. intros x [<-|[]]. apply Qle_refl.
  - destruct (IH (Qmax d a)) as [Hin Hle]. split.
    + destruct Hin as [Hm|Hin]; [|auto].
      destruct (Qmax_cases d a) as [[E _]|[E _]]; rewrite <- Hm, E; auto.
    + intros x [->|[->|Hx]].
      * eapply Qle_trans; [|apply Hle; left; reflexivity].
        destruct (Qmax_cases x a) as [[E H]|[E _]]; rewrite E; [exact H|apply Qle_refl].
      * eapply Qle_trans; [|apply Hle; left; reflexivity].
        destruct (Qmax_cases d x) as [[E _]|[E H]]; rewrite E; [apply Qle_refl|exact H].
      * apply Hle. right. exact Hx.
Qed.

(** The period of the Executive Summary runs from the earliest to the
    latest parsed date of the [date] column, and both ends are such dates;
    the period is unknown only when no date of the column parsed. *)
Theorem period_bounds (t : table) (ds : list value) :
  series t "date" = Ok ds ->
  match period_of t with
  | None => stamps ds = []
  | Some (lo, hi) =>
      In lo (stamps ds) /\ In hi (stamps ds) /\
      forall d, In d (stamps ds) -> (lo <= d /\ d <= hi)%Q
  end.
Proof.
  intros H. unfold period_of. rewrite H.
  destruct (stamps ds) as [|d r]; [reflexivity|].
  destruct (fold_Qmin_spec r d) as [H1 H2]. destruct (fold_Qmax_spec r d) as [H3 H4].
  split; [exact H1|]. split; [exact H3|]. intros x Hx. split; auto.
Qed.

Lemma period_bounds_witness :
  series tied_vendors "date" = Ok [VStamp 19358; VStamp 19359] /\
  period_of tied_vendors = Some (19358%Q, 19359%Q) /\
  (In 19358%Q [19358%Q; 19359%Q] /\ In 19359%Q [19358%Q; 19359%Q] /\
   forall d, In d [19358%Q; 19359%Q] -> (19358 <= d /\ d <= 19359)%Q).
Proof.
  assert (H : series tied_vendors "date" = Ok [VStamp 19358; VStamp 19359]) by reflexivity.
  split; [exact H|]. split; [reflexivity|].
  exact (period_bounds tied_vendors _ H).
Defined.


Open Scope Q_scope.


Lemma qsum_perm l l' : Permutation l l' -> qsum l == qsum l'.
Proof.
  induction 1; simpl; try reflexivity.
  - rewrite IHPermutation. reflexivity.
  - ring.
  - rewrite IHPermutation1, IHPermutation2. reflexivity.
Qed.

Lemma qsum_map_ext {A} (f g : A -> Q) l :
  (forall x, In x l -> f x == g x) -> qsum (map f l) == qsum (map g l).
Proof.
  induction l as [|x l IH]; simpl; intros H; [reflexivity|].
  rewrite (H x (or_introl eq_refl)), IH; [reflexivity|]. intros y Hy. apply H. auto.
Qed.

Lemma qsum_map_plus {A} (f g : A -> Q) l :
  qsum (map (fun x => f x + g x) l) == qsum (map f l) + qsum (map g l).
Proof. induction l as [|x l IH]; simpl; [reflexivity|]. rewrite IH. ring. Qed.

Lemma qsum_map_zero {A} (l : list A) : qsum (map (fun _ => 0) l) == 0.
Proof. induction l as [|x l IH]; simpl; [reflexivity|]. rewrite IH. ring. Qed.

Lemma value_eqb_isna a b : value_eqb a b = true -> isna a = isna b.
Proof. destruct a, b; simpl; congruence. Qed.

Lemma value_eqb_link x y z :
  value_eqb x y = true -> value_eqb x z = value_eqb y z.
Proof.
  intros Hxy. apply eq_true_iff_eq. split; intros H.
  - rewrite value_eqb_sym in Hxy. eapply value_eqb_trans; [exact Hxy|exact H].
  - eapply value_eqb_trans; [exact Hxy|exact H].
Qed.

Lemma filter_dedup_step x y D :
  List.filter (value_eqb x) (List.filter (fun z => negb (value_eqb y z)) D) =
  if value_eqb x y then [] else List.filter (value_eqb x) D.
Proof.
  destruct (value_eqb x y) eqn:Exy.
  - induction D as [|z D IH]; simpl; [reflexivity|].
    rewrite <- (value_eqb_link x y z Exy).
    destruct (value_eqb x z) eqn:Exz; simpl; rewrite ?Exz; exact IH.
  - induction D as [|z D IH]; simpl; [reflexivity|].
    destruct (value_eqb x z) eqn:Exz; destruct (value_eqb y z) eqn:Eyz; simpl;
      rewrite ?Exz; try (f_equal; exact IH); try exact IH.
    exfalso. rewrite value_eqb_sym in Eyz.
    rewrite (value_eqb_trans _ _ _ Exz Eyz) in Exy. discriminate.
Qed.

Lemma count_dedup x l :
  length (List.filter (value_eqb x) (dedup_vals l)) =
  if existsb (value_eqb x) l then 1%nat else 0%nat.
Proof.
  induction l as [|y l IH]; simpl; [reflexivity|].
  rewrite filter_dedup_step.
  destruct (value_eqb x y) eqn:Exy; simpl; [reflexivity|]. exact IH.
Qed.

Lemma qsum_indicator x (c : Q) K :
  qsum (map (fun k => if value_eqb x k then c else 0) K) ==
  c * inject_Z (Z.of_nat (length (List.filter (value_eqb x) K))).
Proof.
  induction K as [|k K IH]; [simpl; ring|]. cbn [map qsum List.filter].
  rewrite IH. destruct (value_eqb x k); cbn [length]; [|ring].
  rewrite Nat2Z.inj_succ. unfold Z.succ. rewrite inject_Z_plus. change (inject_Z 1) with 1. ring.
Qed.

Lemma group_of_weight (w : value -> Q) k keys vals :
  qsum (map w (group_of k keys vals)) ==
  qsum (map (fun p => if value_eqb (fst p) k then w (snd p) else 0) (combine keys vals)).
Proof.
  unfold group_of. generalize (combine keys vals) as R.
  induction R as [|p R IH]; simpl; [reflexivity|].
  destruct (value_eqb (fst p) k); simpl; rewrite IH; ring.
Qed.

Lemma swap_group_sums (w : value -> Q) (R : list (value * value)) K :
  qsum (map (fun k => qsum (map (fun p => if value_eqb (fst p) k then w (snd p) else 0) R)) K) ==
  qsum (map (fun p => w (snd p) * inject_Z (Z.of_nat (length (List.filter (value_eqb (fst p)) K)))) R).
Proof.
  induction R as [|p R IH]; simpl.
  - apply qsum_map_zero.
  - rewrite qsum_map_plus, IH, qsum_indicator. reflexivity.
Qed.

Lemma existsb_notna x keys :
  In x keys -> existsb (value_eqb x) (List.filter notna keys) = notna x.
Proof.
  intros Hx. destruct (notna x) eqn:Ex.
  - apply existsb_exists. exists x. split; [apply filter_In; auto | apply value_eqb_refl].
  - apply not_true_is_false. intros H. apply existsb_exists in H as (k & Hk & Hxk).
    apply filter_In in Hk as [_ Hk]. apply value_eqb_isna in Hxk.
    unfold notna in *. rewrite Hxk in Ex. congruence.
Qed.

(** Every row with a non-null key falls in exactly one group. *)
Lemma group_weight_total (w : value -> Q) keys vals :
  qsum (map (fun k => qsum (map w (group_of k keys vals))) (group_keys keys)) ==
  qsum (map (fun p => if notna (fst p) then w (snd p) else 0) (combine keys vals)).
Proof.
  rewrite (qsum_map_ext _ (fun k => qsum (map (fun p => if value_eqb (fst p) k then w (snd p) else 0)
                                            (combine keys vals))))
    by (intros; apply group_of_weight).
  rewrite (qsum_perm _ _ (Permutation_map _ (group_keys_perm keys))).
  rewrite swap_group_sums. apply qsum_map_ext. intros p Hp.
  rewrite count_dedup, existsb_notna.
  - destruct (notna (fst p)); simpl; ring.
  - destruct p as [a b]. apply in_combine_l in Hp. exact Hp.
Qed.

Lemma series_count_weight l :
  inject_Z (Z.of_nat (series_count l)) == qsum (map (fun v => if has_amount v then 1 else 0) l).
Proof.
  unfold series_count. induction l as [|v l IH]; [reflexivity|].
  destruct v; cbn [map somes amount_of qsum has_amount length]; try (rewrite IH; ring).
  rewrite Nat2Z.inj_succ. unfold Z.succ. rewrite inject_Z_plus, IH. change (inject_Z 1) with 1. ring.
Qed.

Lemma series_sum_weight l : series_sum l == qsum (map amount_or_zero l).
Proof. apply series_sum_total. Qed.

Lemma list_sum_inject {A} (f : A -> nat) l :
  inject_Z (Z.of_nat (list_sum (map f l))) == qsum (map (fun x => inject_Z (Z.of_nat (f x))) l).
Proof.
  induction l as [|x l IH]; simpl; [reflexivity|].
  rewrite Nat2Z.inj_add, inject_Z_plus, IH. reflexivity.
Qed.

Lemma length_filter_inject {A} (P : A -> bool) l :
  inject_Z (Z.of_nat (length (List.filter P l))) == qsum (map (fun x => if P x then 1 else 0) l).
Proof.
  induction l as [|x l IH]; [reflexivity|]. cbn [map qsum List.filter].
  destruct (P x); cbn [length]; [|rewrite IH; ring].
  rewrite Nat2Z.inj_succ. unfold Z.succ. rewrite inject_Z_plus, IH. change (inject_Z 1) with 1. ring.
Qed.

Lemma inject_nat_inj (a b : nat) : inject_Z (Z.of_nat a) == inject_Z (Z.of_nat b) -> a = b.
Proof. intros H. unfold Qeq in H. simpl in H. lia. Qed.

(** The group totals and counts of any [groupby] over [keys]. *)
Lemma group_totals keys amounts :
  qsum (map (fun k => series_sum (group_of k keys amounts)) (group_keys keys)) ==
    keyed_spend keys amounts /\
  qsum (map (fun k => inject_Z (Z.of_nat (series_count (group_of k keys amounts)))) (group_keys keys)) ==
    inject_Z (Z.of_nat (keyed_count keys amounts)).
Proof.
  split.
  - rewrite (qsum_map_ext _ (fun k => qsum (map amount_or_zero (group_of k keys amounts))))
      by (intros; apply series_sum_weight).
    apply group_weight_total.
  - rewrite (qsum_map_ext _ (fun k => qsum (map (fun v => if has_amount v then 1 else 0)
                                              (group_of k keys amounts))))
      by (intros; apply series_count_weight).
    rewrite group_weight_total. unfold keyed_count. rewrite length_filter_inject.
    apply qsum_map_ext. intros p _. destruct (notna (fst p)); reflexivity.
Qed.

Lemma ranked_snd {A} (l : list A) : map snd (ranked l) = l.
Proof.
  unfold ranked. generalize 1%nat. induction l as [|x l IH]; intros n; simpl; [reflexivity|].
  f_equal. apply IH.
Qed.

(** The Spend by Vendor sheet adds up: its totals sum to the spend of the
    rows whose vendor is not null, and its transaction counts sum to the
    number of those rows with a numeric amount. *)
Theorem vendor_sheet_reconciles (t : table) (vs amounts : list value) (rows : list vendor_row) :
  series t "vendor" = Ok vs -> series t "amount" = Ok amounts -> vendor_analysis t = Ok rows ->
  qsum (map v_total rows) == keyed_spend vs amounts /\
  list_sum (map v_count rows) = keyed_count vs amounts.
Proof.
  intros Hv Ha H. apply vendor_analysis_ok in H as (vs' & amounts' & countries & Hv' & Ha' & ->).
  rewrite Hv in Hv'. rewrite Ha in Ha'. injection Hv' as <-. injection Ha' as <-.
  destruct (group_totals vs amounts) as [Hs Hc].
  rewrite !map_map. simpl. split.
  - rewrite <- Hs. rewrite <- (map_map snd v_total), ranked_snd.
    rewrite (qsum_perm _ _ (Permutation_map _ (sort_desc_perm _ _))), map_map. reflexivity.
  - apply inject_nat_inj. rewrite <- Hc, list_sum_inject.
    rewrite <- (map_map snd (fun r => inject_Z (Z.of_nat (v_count r)))), ranked_snd.
    rewrite (qsum_perm _ _ (Permutation_map _ (sort_desc_perm _ _))), map_map. reflexivity.
Qed.



Lemma category_analysis_ok t rows :
  category_analysis t = Ok (Categories rows) ->
  exists cs amounts vs,
    series t "category" = Ok cs /\ series t "amount" = Ok amounts /\ series t "vendor" = Ok vs /\
    rows = map (fun p => let r := snd p in
                         mk_category_row (fst p) (c_name r) (c_total r) (c_pct r)
                           (c_count r) (c_vendors r))
             (ranked (sort_desc c_total
                (map (fun k =>
                        let g := group_of k cs amounts in
                        mk_category_row 0 k (series_sum g)
                          (fdiv (series_sum g) (series_sum amounts))
                          (series_count g) (nunique (group_of k cs vs)))
                     (group_keys cs)))).
Proof.
  unfold category_analysis, mbind, result_bind, mret, result_ret.
  destruct (negb (has_col t "category")); [discriminate|].
  destruct (series t "category") as [cs|]; [|discriminate].
  destruct (series t "amount") as [amounts|]; [|discriminate].
  destruct (series t "vendor") as [vs|]; [|discriminate].
  intros H. injection H as <-. eauto 7.
Qed.

(** The Spend by Category sheet adds up like the vendor sheet (totals and
    counts over the rows whose category is not null); its rows are in
    decreasing order of total and ranked 1, 2, ..., n. *)
Theorem category_sheet_reconciles (t : table) (cs amounts : list value) (rows : list category_row) :
  series t "category" = Ok cs -> series t "amount" = Ok amounts ->
  category_analysis t = Ok (Categories rows) ->
  qsum (map c_total rows) == keyed_spend cs amounts /\
  list_sum (map c_count rows) = keyed_count cs amounts /\
  Sorted (fun a b => c_total b <= c_total a) rows /\
  map c_rank rows = seq 1 (length rows).
Proof.
  intros Hc Ha H. apply category_analysis_ok in H as (cs' & amounts' & vs & Hc' & Ha' & _ & ->).
  rewrite Hc in Hc'. rewrite Ha in Ha'. injection Hc' as <-. injection Ha' as <-.
  destruct (group_totals cs amounts) as [Hs Hn].
  destruct (ranked_rows_sorted c_total
              (fun i r => mk_category_row i (c_name r) (c_total r) (c_pct r) (c_count r) (c_vendors r))
              c_total c_rank
              (map (fun k =>
                        let g := group_of k cs amounts in
                        mk_category_row 0 k (series_sum g)
                          (fdiv (series_sum g) (series_sum amounts))
                          (series_count g) (nunique (group_of k cs vs)))
                     (group_keys cs))
              (fun _ _ => eq_refl) (fun _ _ => eq_refl)) as [Hsorted Hrank].
  split; [|split; [|split]].
  - rewrite map_map. simpl. rewrite <- Hs. rewrite <- (map_map snd c_total), ranked_snd.
    rewrite (qsum_perm _ _ (Permutation_map _ (sort_desc_perm _ _))), map_map. reflexivity.
  - apply inject_nat_inj. rewrite <- Hn, list_sum_inject, map_map. simpl.
    rewrite <- (map_map snd (fun r => inject_Z (Z.of_nat (c_count r)))), ranked_snd.
    rewrite (qsum_perm _ _ (Permutation_map _ (sort_desc_perm _ _))), map_map. reflexivity.
  - exact Hsorted.
  - refine (eq_trans Hrank _). rewrite length_map, ranked_length. reflexivity.
Qed.

Lemma filter_set_column_label t n vals c :
  In c (List.filter (fun c => String.eqb (fst c) n) (columns (set_column t n vals))) -> snd c = vals.
Proof.
  rewrite filter_In. intros [Hin Hl]. apply String.eqb_eq in Hl.
  unfold set_column in Hin. destruct (has_col t n) eqn:Eh; simpl in Hin.
  - apply in_map_iff in Hin as (c0 & <- & _).
    destruct (String.eqb (fst c0) n) eqn:E; [reflexivity|]. rewrite Hl in E.
    rewrite String.eqb_refl in E. discriminate.
  - apply in_app_or in Hin as [Hin|[<-|[]]]; [|reflexivity].
    exfalso. unfold has_col in Eh. rewrite <- not_true_iff_false in Eh. apply Eh.
    apply existsb_exists. exists c. split; [exact Hin|]. rewrite Hl. apply String.eqb_refl.
Qed.

Lemma series_set_column_self t n vals x :
  series (set_column t n vals) n = Ok x -> x = vals.
Proof.
  unfold series. intros H.
  pose proof (filter_set_column_label t n vals) as Hl.
  destruct (List.filter _ _) as [|c [|c' r]]; try discriminate.
  injection H as <-. apply Hl. left. reflexivity.
Qed.

Lemma series_set_column_other t n n' vals :
  n' <> n -> series (set_column t n vals) n' = series t n'.
Proof.
  intros Hne. unfold series, set_column. destruct (has_col t n); simpl.
  - match goal with |- match ?a with _ => _ end = match ?b with _ => _ end =>
      replace a with b; [reflexivity|] end.
    induction (columns t) as [|c cs IH]; simpl; [reflexivity|].
    destruct (String.eqb (fst c) n) eqn:E; simpl.
    + apply String.eqb_eq in E. rewrite E.
      destruct (String.eqb n n') eqn:E'; [apply String.eqb_eq in E'; congruence|]. exact IH.
    + rewrite IH. reflexivity.
  - rewrite List.filter_app. simpl.
    destruct (String.eqb n n') eqn:E'; [apply String.eqb_eq in E'; congruence|].
    rewrite app_nil_r. reflexivity.
Qed.

Lemma monthly_trends_ok t rows :
  monthly_trends t = Ok rows ->
  exists ms amounts vs,
    series t "month" = Ok ms /\ series t "amount" = Ok amounts /\ series t "vendor" = Ok vs /\
    rows = map (fun k =>
                  let g := group_of k ms amounts in
                  mk_month_row (month_label k) (series_sum g) (series_count g)
                    (series_mean g) (nunique (group_of k ms vs)))
               (group_keys ms).
Proof.
  unfold monthly_trends, mbind, result_bind, mret, result_ret.
  destruct (series t "month") as [ms|]; [|discriminate].
  destruct (series t "amount") as [amounts|]; [|discriminate].
  destruct (series t "vendor") as [vs|]; [|discriminate].
  intros H. injection H as <-. eauto 7.
Qed.

Lemma notna_month_of v : notna (month_of v) = is_stamp v.
Proof. destruct v; reflexivity. Qed.

Lemma combine_map_l {A B C} (f : A -> C) (l1 : list A) (l2 : list B) :
  combine (map f l1) l2 = map (fun p => (f (fst p), snd p)) (combine l1 l2).
Proof.
  revert l2. induction l1 as [|x l1 IH]; intros [|y l2]; simpl; try reflexivity.
  rewrite IH. reflexivity.
Qed.

(** The Monthly Trends sheet adds up: its totals sum to the spend of the
    rows whose date parsed, and its transaction counts sum to the number of
    those rows with a numeric amount; undated rows are left out. *)
Theorem monthly_sheet_reconciles (t : table) (ds amounts : list value) (rows : list month_row) :
  series t "date" = Ok ds -> series t "amount" = Ok amounts ->
  monthly_trends (set_column t "month" (map month_of ds)) = Ok rows ->
  qsum (map m_total rows) == dated_spend ds amounts /\
  list_sum (map m_count rows) = dated_count ds amounts.
Proof.
  intros Hd Ha H. apply monthly_trends_ok in H as (ms & amounts' & vs & Hm & Ha' & _ & ->).
  apply series_set_column_self in Hm as ->.
  rewrite series_set_column_other in Ha' by discriminate.
  rewrite Ha in Ha'. injection Ha' as <-.
  destruct (group_totals (map month_of ds) amounts) as [Hs Hn].
  unfold keyed_spend, keyed_count in Hs, Hn. rewrite combine_map_l, map_map in Hs.
  rewrite combine_map_l, filter_map_swap, length_map in Hn.
  rewrite !map_map. split.
  - simpl. rewrite Hs. unfold dated_spend. apply qsum_map_ext. intros p _.
    simpl. rewrite notna_month_of. reflexivity.
  - apply inject_nat_inj. rewrite list_sum_inject. simpl. rewrite Hn. unfold dated_count.
    erewrite List.filter_ext; [reflexivity|]. intros p. simpl. rewrite notna_month_of. reflexivity.
Qed.



Lemma value_ltb_asym a b : value_ltb a b = true -> value_ltb b a = false.
Proof.
  destruct a, b; simpl; try reflexivity; try discriminate;
    try (rewrite qltb_true, qltb_false; intros; apply Qlt_le_weak; assumption).
  unfold String.ltb. rewrite (String.compare_antisym s0 s).
  destruct (String.compare s s0); simpl; congruence.
Qed.


Lemma insert_key_sorted k l : Sorted key_le l -> Sorted key_le (insert_key k l).
Proof.
  induction 1 as [|y l Hs IH Hd]; simpl; [repeat constructor|].
  destruct (value_ltb k y) eqn:E.
  - constructor; [constructor; assumption|]. constructor. apply value_ltb_asym, E.
  - constructor; [exact IH|].
    destruct l as [|z l]; simpl; [constructor; exact E|].
    inversion Hd as [|? ? Hyz]; subst.
    destruct (value_ltb k z); constructor; assumption.
Qed.

Lemma group_keys_sorted keys : Sorted key_le (group_keys keys).
Proof.
  unfold group_keys. induction (dedup_vals (List.filter notna keys)); simpl; [constructor|].
  apply insert_key_sorted. assumption.
Qed.


Lemma forall_filter {A} (P : A -> Prop) f l : Forall P l -> Forall P (List.filter f l).
Proof.
  intros H. apply List.Forall_forall. intros x Hx. apply filter_In in Hx as [Hx _].
  exact (proj1 (List.Forall_forall P l) H x Hx).
Qed.

Lemma dedup_distinct l : ForallOrdPairs distinct (dedup_vals l).
Proof.
  induction l as [|x l IH]; simpl; constructor.
  - apply List.Forall_forall. intros y Hy. apply filter_In in Hy as [_ Hy].
    unfold distinct. destruct (value_eqb x y); [discriminate|reflexivity].
  - induction IH as [|y r Hy Hr IHr]; simpl; [constructor|].
    destruct (negb (value_eqb x y)); [constructor; [apply forall_filter|]|]; assumption.
Qed.

Lemma insert_key_distinct k l :
  ForallOrdPairs distinct (k :: l) -> ForallOrdPairs distinct (insert_key k l).
Proof.
  revert k. induction l as [|y l IH]; intros k H; simpl; [exact H|].
  destruct (value_ltb k y); [exact H|].
  inversion H as [|? ? Hk Hl]; subst. inversion Hk as [|? ? Hky Hkl]; subst.
  inversion Hl as [|? ? Hy Hr]; subst.
  constructor.
  - apply List.Forall_forall. intros z Hz.
    apply (Permutation_in _ (insert_key_perm k l)) in Hz. destruct Hz as [<-|Hz].
    + unfold distinct in *. rewrite value_eqb_sym. exact Hky.
    + exact (proj1 (List.Forall_forall _ _) Hy z Hz).
  - apply IH. constructor; assumption.
Qed.

Lemma fold_insert_perm l : Permutation (fold_right insert_key [] l) l.
Proof. induction l as [|x l IH]; simpl; [auto|]. rewrite insert_key_perm. auto. Qed.

Lemma group_keys_distinct keys : ForallOrdPairs distinct (group_keys keys).
Proof.
  unfold group_keys. pose proof (dedup_distinct (List.filter notna keys)) as H.
  induction (dedup_vals (List.filter notna keys)) as [|x l IH]; simpl; [constructor|].
  inversion H as [|? ? Hx Hl]; subst. apply insert_key_distinct. constructor; [|exact (IH Hl)].
  apply List.Forall_forall. intros y Hy.
  apply (Permutation_in _ (fold_insert_perm l)) in Hy.
  exact (proj1 (List.Forall_forall _ _) Hx y Hy).
Qed.

Lemma sorted_distinct {A} (R D : A -> A -> Prop) l :
  Sorted R l -> ForallOrdPairs D l -> Sorted (fun a b => R a b /\ D a b) l.
Proof.
  induction 1 as [|a l Hs IH Hd]; intros HD; constructor.
  - inversion HD; subst. apply IH. assumption.
  - inversion HD as [|? ? Ha _]; subst. destruct Hd as [|b l' Hab]; constructor.
    split; [exact Hab|]. inversion Ha; assumption.
Qed.

Lemma month_label_before (o1 o2 : Z) :
  key_le (VNum (inject_Z o1)) (VNum (inject_Z o2)) ->
  distinct (VNum (inject_Z o1)) (VNum (inject_Z o2)) ->
  month_before (month_label (VNum (inject_Z o1))) (month_label (VNum (inject_Z o2))).
Proof.
  unfold key_le, distinct, month_before, month_label, value_ltb, value_eqb. cbn [fst snd]. intros H1 H2.
  apply qltb_false in H1. rewrite <- Zle_Qle in H1.
  assert (H3 : o1 <> o2) by (intros ->; rewrite Qeq_bool_refl in H2; discriminate).
  rewrite !Qfloor_Z.
  pose proof (Z.div_mod o1 12 ltac:(lia)). pose proof (Z.mod_pos_bound o1 12 ltac:(lia)).
  pose proof (Z.div_mod o2 12 ltac:(lia)). pose proof (Z.mod_pos_bound o2 12 ltac:(lia)).
  destruct (Z.lt_trichotomy (o1 / 12) (o2 / 12)) as [Hq|[Hq|Hq]]; [left; lia|right; split; lia|lia].
Qed.

Lemma month_keys_are_months ds k :
  In k (group_keys (map month_of ds)) -> exists o, k = VNum (inject_Z o).
Proof.
  intros Hk. apply (Permutation_in _ (group_keys_perm _)) in Hk.
  assert (Hsub : forall l x, In x (dedup_vals l) -> In x l).
  { induction l as [|y l IH]; simpl; [tauto|]. intros x [<-|Hx]; [auto|].
    apply filter_In in Hx as [Hx _]. auto. }
  apply Hsub, filter_In in Hk as [Hk Hn]. apply in_map_iff in Hk as (v & <- & _).
  destruct v; try discriminate. simpl. eexists. reflexivity.
Qed.

(** The Monthly Trends rows are in chronological order of (year, month),
    each month once. *)
Theorem monthly_rows_chronological (t : table) (ds : list value) (rows : list month_row) :
  monthly_trends (set_column t "month" (map month_of ds)) = Ok rows ->
  Sorted month_before (map m_month rows) /\ List.NoDup (map m_month rows).
Proof.
  intros H. apply monthly_trends_ok in H as (ms & amounts & vs & Hm & _ & _ & ->).
  apply series_set_column_self in Hm as ->. rewrite map_map. simpl.
  assert (Hs : Sorted month_before (map month_label (group_keys (map month_of ds)))).
  { pose proof (sorted_distinct _ _ _ (group_keys_sorted (map month_of ds))
                  (group_keys_distinct (map month_of ds))) as Hsd.
    pose proof (month_keys_are_months ds) as Hk.
    induction Hsd as [|a l Hs IH Hd]; simpl; constructor.
    - apply IH. intros k Hin. apply Hk. right. exact Hin.
    - destruct Hd as [|b l' [Hab Dab]]; simpl; constructor.
      destruct (Hk a (or_introl eq_refl)) as [o1 ->].
      destruct (Hk b (or_intror (or_introl eq_refl))) as [o2 ->].
      apply month_label_before; assumption. }
  split; [exact Hs|].
  assert (Hnd : forall L, StronglySorted month_before L -> List.NoDup L).
  { intros L HL. induction HL as [|a l Hs' IH Ha]; constructor; [|exact IH].
    intros Hin. apply (proj1 (List.Forall_forall _ _) Ha) in Hin. unfold month_before in Hin. lia. }
  apply Hnd. apply Sorted_StronglySorted in Hs; [exact Hs|].
  intros [y1 m1] [y2 m2] [y3 m3]. unfold month_before. simpl. lia.
Qed.


Section AnyOwned.
Variables (l : nat) (t : table).

Lemma hoare_sheet_any n f df : hoare (owned l t) (sheet_from n f df) (fun _ => True).
Proof. unfold sheet_from, create_sheet, write_sheet. hoare_auto. Qed.

Lemma hoare_monthly_any df : hoare (owned l t) (create_monthly_trends df) (fun _ => True).
Proof. unfold create_monthly_trends, create_sheet, write_sheet. hoare_auto. Qed.
End AnyOwned.

Lemma map_columns_loc src m st df st1 :
  map_columns src m st = (Ok df, st1) -> (df < next_loc st1)%nat.
Proof.
  unfold map_columns, copy. intros H.
  apply bind_ok in H as (df0 & st0 & H0 & H).
  apply bind_ok in H0 as (t0 & stg & Hg & H0). unfold get_tbl in Hg.
  destruct (heap st !! src); [injection Hg as <- <-|discriminate].
  injection H0 as <- <-. simpl in H.
  destruct m as [[|kv m]|].
  - injection H as <- <-. simpl. lia.
  - apply bind_ok in H as (t1 & st2 & H2 & H). unfold get_tbl in H2. simpl in H2.
    rewrite lookup_insert_eq in H2. injection H2 as <- <-. injection H as <- <-. simpl. lia.
  - injection H as <- <-. simpl. lia.
Qed.

Lemma validate_run df st t st1 :
  validate df st = (Ok t, st1) -> st1 = st /\ heap st !! df = Some t.
Proof.
  unfold validate. intros H.
  apply bind_ok in H as (t0 & st0 & H0 & H). unfold get_tbl in H0.
  destruct (heap st !! df) as [t1|] eqn:E; [injection H0 as <- <-|discriminate].
  apply bind_ok in H as (u & st2 & H2 & H).
  destruct (df_empty t1); [discriminate|]. injection H2 as _ <-.
  apply bind_ok in H as (u' & st3 & H3 & H).
  destruct (missing_fields t1); [injection H3 as _ <-|discriminate].
  injection H as <- <-. auto.
Qed.

Lemma normalise_run df t st u st1 :
  normalise df t st = (Ok u, st1) ->
  exists a d, series t "amount" = Ok a /\ series t "date" = Ok d /\
    heap st1 !! df = Some (set_column (set_column t "amount" (map to_numeric a))
                                      "date" (map parse_date d)) /\
    next_loc st1 = next_loc st.
Proof.
  unfold normalise. intros H.
  apply bind_ok in H as (a & st0 & H0 & H). unfold lift in H0.
  destruct (series t "amount") as [a'|] eqn:Ea; [injection H0 as -> ->|discriminate].
  apply bind_ok in H as (u1 & st2 & H2 & H). injection H2 as _ H2. subst st2.
  apply bind_ok in H as (t1 & st3 & H3 & H). unfold get_tbl in H3. simpl in H3.
  rewrite lookup_insert_eq in H3. injection H3 as <- <-.
  apply bind_ok in H as (d & st4 & H4 & H). unfold lift in H4.
  destruct (series _ "date") as [d'|] eqn:Ed; [injection H4 as -> H4; subst st4|discriminate].
  rewrite series_set_column_other in Ed by discriminate.
  injection H as _ H. subst st1. exists a, d. simpl. repeat split; auto. apply lookup_insert_eq.
Qed.

Lemma owned_step {A} l T (c : M A) st a st' :
  hoare (owned l T) c (fun _ => True) -> owned l T st -> c st = (Ok a, st') -> owned l T st'.
Proof. intros Hc Ho H. pose proof (proj1 (Hc st Ho)) as Hs. rewrite H in Hs. exact Hs. Qed.

Lemma detail_sheet_run df T st u st' :
  heap st !! df = Some T -> create_detailed_data df st = (Ok u, st') ->
  book st' = app (book st) [mk_sheet "Detailed Data" (DetailSheet T)] /\ files st' = files st.
Proof.
  intros Hd H. unfold create_detailed_data, sheet_from, create_sheet, write_sheet, get_book, set_book in H.
  apply bind_ok in H as (u1 & st1 & H1 & H).
  apply bind_ok in H1 as (b1 & st0 & H0 & H1). injection H0 as <- <-. injection H1 as <- <-.
  apply bind_ok in H as (t & st2 & H2 & H).
  unfold get_tbl in H2. simpl in H2. rewrite Hd in H2. injection H2 as <- <-.
  apply bind_ok in H as (c & st3 & H3 & H). injection H3 as <- <-.
  destruct (body_ok _); [|discriminate H].
  apply bind_ok in H as (b2 & st4 & H4 & H). injection H4 as <- <-. injection H as <- <-.
  simpl. split; [apply fill_last_app | reflexivity].
Qed.

(** After a successful [load], the sixth sheet of the saved workbook,
    Detailed Data, holds the mapped table with its amounts coerced by
    [pd.to_numeric] and its dates by [_parse_date]. *)
Theorem detailed_data_exports_table (src : nat) (t : table)
    (mapping_info : option (list (string * string))) (output_path : option string)
    (st : state) (p : string) (st' : state) :
  heap st !! src = Some t ->
  load src mapping_info output_path st = (Ok p, st') ->
  exists a d sheets,
    series (mapped t mapping_info) "amount" = Ok a /\
    series (mapped t mapping_info) "date" = Ok d /\
    files st' = (p, sheets) :: files st /\
    nth_error sheets 5 =
      Some (mk_sheet "Detailed Data"
              (DetailSheet (set_column (set_column (mapped t mapping_info) "amount"
                                          (map to_numeric a))
                                       "date" (map parse_date d)))).
Proof.
  intros Hsrc H. unfold load in H.
  apply bind_ok in H as (df & st1 & H1 & H).
  destruct (quiet_prepare src mapping_info st) as [_ Hf1].
  rewrite H1 in Hf1. simpl in Hf1.
  unfold prepare in H1.
  apply bind_ok in H1 as (df0 & stm & Hm & H1).
  destruct (map_columns_run src t mapping_info st Hsrc) as (df' & stm' & Hm' & Hh & _).
  rewrite Hm in Hm'. injection Hm' as <- <-.
  pose proof (map_columns_loc _ _ _ _ _ Hm) as Hloc.
  apply bind_ok in H1 as (t' & stv & Hv & H1).
  apply validate_run in Hv as [-> Hv]. rewrite Hh in Hv. injection Hv as <-.
  apply bind_ok in H1 as (u & stn & Hn & H1). injection H1 as E1 E2. subst df0 st1.
  apply normalise_run in Hn as (a & d & Ha & Hd & Hhn & Hnl).
  set (T := set_column (set_column (mapped t mapping_info) "amount" (map to_numeric a))
                       "date" (map parse_date d)) in *.
  assert (Hown : owned df T stn) by (split; [exact Hhn | lia]).
  clear Hhn Hnl Hloc Hh Hm.
  apply bind_ok in H as (path & st2 & H2 & H).
  assert (E2 : st2 = stn).
  { destruct output_path as [q|]; simpl in H2.
    - injection H2 as _ <-. reflexivity.
    - apply bind_ok in H2 as (ts & st0 & H0 & H2). injection H0 as _ <-.
      injection H2 as _ <-. reflexivity. }
  subst st2.
  apply bind_ok in H as (u3 & st3 & H3 & H). injection H3 as _ <-.
  apply bind_ok in H as (u4 & st4 & H4 & H).
  unfold remove_sheet, get_book, set_book in H4.
  apply bind_ok in H4 as (b & st0 & H0 & H4). injection H0 as <- <-.
  injection H4 as _ <-. simpl in H.
  set (st4 := {| heap := heap stn; next_loc := next_loc stn; book := []; files := files stn;
                 clock := clock stn |}) in *.
  assert (Hown4 : owned df T st4) by exact Hown.
  apply bind_ok in H as (u5 & st5 & H5 & H).
  destruct (adds_sheet_from _ _ _ _ _ _ H5) as (b5 & Hb5 & Hf5).
  assert (Hown5 : owned df T st5) by (eapply owned_step; [| exact Hown4 | exact H5]; apply hoare_sheet_any).
  apply bind_ok in H as (u6 & st6 & H6 & H).
  destruct (adds_sheet_from _ _ _ _ _ _ H6) as (b6 & Hb6 & Hf6).
  assert (Hown6 : owned df T st6) by (eapply owned_step; [| exact Hown5 | exact H6]; apply hoare_sheet_any).
  apply bind_ok in H as (u7 & st7 & H7 & H).
  destruct (adds_sheet_from _ _ _ _ _ _ H7) as (b7 & Hb7 & Hf7).
  assert (Hown7 : owned df T st7) by (eapply owned_step; [| exact Hown6 | exact H7]; apply hoare_sheet_any).
  apply bind_ok in H as (u8 & st8 & H8 & H).
  destruct (adds_monthly _ _ _ _ H8) as (b8 & Hb8 & Hf8).
  assert (Hown8 : owned df T st8) by (eapply owned_step; [| exact Hown7 | exact H8]; apply hoare_monthly_any).
  apply bind_ok in H as (u9 & st9 & H9 & H).
  destruct (adds_sheet_from _ _ _ _ _ _ H9) as (b9 & Hb9 & Hf9).
  assert (Hown9 : owned df T st9) by (eapply owned_step; [| exact Hown8 | exact H9]; apply hoare_sheet_any).
  apply bind_ok in H as (u10 & st10 & H10 & H).
  destruct (detail_sheet_run df T st9 u10 st10 (proj1 Hown9) H10) as [Hb10 Hf10].
  apply bind_ok in H as (u11 & st11 & H11 & H).
  destruct (adds_sheet_from _ _ _ _ _ _ H11) as (b11 & Hb11 & Hf11).
  apply bind_ok in H as (u12 & st12 & H12 & H).
  unfold save in H12. injection H12 as _ <-.
  rewrite run_mret in H. injection H as <- <-.
  exists a, d, (book st11). split; [exact Ha|]. split; [exact Hd|].
  simpl in *. split.
  - rewrite Hf11, Hf10, Hf9, Hf8, Hf7, Hf6, Hf5, Hf1. reflexivity.
  - rewrite Hb11, Hb10, Hb9, Hb8, Hb7, Hb6, Hb5. reflexivity.
Qed.


Section Keeps.
Context {X : Type} (sel : state -> X).

Lemma keeps_bind {A B} (c : M A) (k : A -> M B) :
  keeps sel c -> (forall a, keeps sel (k a)) -> keeps sel (c ≫= k).
Proof.
  intros Hc Hk st. unfold mbind, M_bind. specialize (Hc st).
  destruct (c st) as [[a|e] st1]; simpl in *; [rewrite Hk|]; exact Hc.
Qed.

Lemma err_keeps_bind {A B} (c : M A) (k : A -> M B) :
  keeps sel c -> (forall a, err_keeps sel (k a)) -> err_keeps sel (c ≫= k).
Proof.
  intros Hc Hk st e st' H. unfold mbind, M_bind in H. specialize (Hc st).
  destruct (c st) as [[a|e1] st1]; simpl in *.
  - rewrite (Hk a st1 e st' H). exact Hc.
  - injection H as _ <-. exact Hc.
Qed.

Lemma keeps_get_tbl l : keeps sel (get_tbl l).
Proof. intros st. unfold get_tbl. destruct (heap st !! l); reflexivity. Qed.
Lemma keeps_lift {A} (r : result A) : keeps sel (lift r).
Proof. intros st. reflexivity. Qed.
Lemma keeps_raise {A} e : keeps sel (@raise A e).
Proof. intros st. reflexivity. Qed.
Lemma keeps_ret {A} (a : A) : keeps sel (mret a).
Proof. intros st. reflexivity. Qed.
Lemma keeps_get_book : keeps sel get_book.
Proof. intros st. reflexivity. Qed.
Lemma keeps_now : keeps sel now_stamp.
Proof. intros st. reflexivity. Qed.
End Keeps.

Lemma keeps_files_alloc t : keeps files (alloc t).
Proof. intros st. reflexivity. Qed.
Lemma keeps_files_put_tbl l t : keeps files (put_tbl l t).
Proof. intros st. reflexivity. Qed.
Lemma keeps_files_set_book b : keeps files (set_book b).
Proof. intros st. reflexivity. Qed.
Lemma keeps_clock_alloc t : keeps clock (alloc t).
Proof. intros st. reflexivity. Qed.
Lemma keeps_clock_put_tbl l t : keeps clock (put_tbl l t).
Proof. intros st. reflexivity. Qed.
Lemma keeps_clock_set_book b : keeps clock (set_book b).
Proof. intros st. reflexivity. Qed.

Create HintDb keeps_db.
#[export] Hint Resolve keeps_get_tbl keeps_lift keeps_raise keeps_ret keeps_get_book keeps_now
  keeps_files_alloc keeps_files_put_tbl keeps_files_set_book
  keeps_clock_alloc keeps_clock_put_tbl keeps_clock_set_book : keeps_db.

Ltac keeps_auto :=
  repeat match goal with
  | |- keeps _ (mbind _ _) => apply keeps_bind; [|intros ?]
  | |- keeps _ (if ?b then _ else _) => destruct b
  | |- keeps _ (match ?x with _ => _ end) => destruct x
  | |- keeps _ _ => solve [eauto with keeps_db]
  end.

Lemma keeps_files_sheet_from n f df : keeps files (sheet_from n f df).
Proof. unfold sheet_from, create_sheet, write_sheet. keeps_auto. Qed.

Lemma keeps_files_monthly df : keeps files (create_monthly_trends df).
Proof. unfold create_monthly_trends, create_sheet, write_sheet. keeps_auto. Qed.

Lemma keeps_files_prepare src m : keeps files (prepare src m).
Proof. unfold prepare, map_columns, validate, normalise, copy. keeps_auto. Qed.

Lemma keeps_clock_prepare src m : keeps clock (prepare src m).
Proof. unfold prepare, map_columns, validate, normalise, copy. keeps_auto. Qed.

Lemma returns_bind {A B} (x : B) (c : M A) (k : A -> M B) :
  (forall a, returns x (k a)) -> returns x (c ≫= k).
Proof.
  intros Hk st b st' H. apply bind_ok in H as (a & st1 & _ & H). exact (Hk a st1 b st' H).
Qed.

Lemma returns_ret {A} (x : A) : returns x (mret x).
Proof. intros st a st' H. injection H as <- _. reflexivity. Qed.

Lemma load_err_keeps_files src mapping_info output_path :
  err_keeps files (load src mapping_info output_path).
Proof.
  unfold load.
  apply err_keeps_bind; [apply keeps_files_prepare|]. intros df.
  apply err_keeps_bind; [destruct output_path; solve [keeps_auto]|]. intros path.
  unfold new_workbook, remove_sheet, create_executive_summary, create_vendor_analysis,
    create_category_analysis, create_insights, create_detailed_data,
    create_data_quality_report.
  repeat (apply err_keeps_bind; [first [apply keeps_files_sheet_from | apply keeps_files_monthly
                                         | solve [keeps_auto]] | intros ?]).
  intros st e st' H. discriminate H.
Qed.

(** A call of [load] that raises has saved no file. *)
Theorem failed_load_saves_nothing (src : nat) (mapping_info : option (list (string * string)))
    (output_path : option string) (st : state) (e : error) (st' : state) :
  load src mapping_info output_path st = (Err e, st') -> files st' = files st.
Proof. apply load_err_keeps_files. Qed.

(** A successful [load] returns the output path it was given, or else
    [procurement_analysis_<timestamp>.xlsx] with the time of the call. *)
Theorem load_returns_path (src : nat) (mapping_info : option (list (string * string)))
    (output_path : option string) (st : state) (p : string) (st' : state) :
  load src mapping_info output_path st = (Ok p, st') ->
  p = match output_path with
      | Some q => q
      | None => ("procurement_analysis_" ++ clock st ++ ".xlsx")%string
      end.
Proof.
  intros H. unfold load in H.
  apply bind_ok in H as (df & st1 & H1 & H).
  pose proof (keeps_clock_prepare src mapping_info st) as Hc. rewrite H1 in Hc. simpl in Hc.
  apply bind_ok in H as (path & st2 & H2 & H).
  assert (Hp : path = match output_path with
                      | Some q => q
                      | None => ("procurement_analysis_" ++ clock st ++ ".xlsx")%string
                      end).
  { destruct output_path as [q|]; simpl in H2.
    - injection H2 as <- _. reflexivity.
    - apply bind_ok in H2 as (ts & st0 & H0 & H2). injection H0 as <- <-.
      injection H2 as <- _. rewrite Hc. reflexivity. }
  rewrite <- Hp. clear Hp H1 H2 Hc. revert st2 p st' H.
  match goal with |- forall _ _ _, ?c _ = _ -> _ => change (returns path c) end.
  repeat (apply returns_bind; intros ?). apply returns_ret.
Qed.

Lemma set_column_labels t n vals :
  has_col t n = true -> map fst (columns (set_column t n vals)) = map fst (columns t).
Proof.
  intros H. unfold set_column. rewrite H. simpl. rewrite map_map.
  apply map_ext. intros c. destruct (String.eqb (fst c) n) eqn:E; [|reflexivity].
  apply String.eqb_eq in E. simpl. symmetry. exact E.
Qed.

Lemma has_col_labels t n :
  has_col t n = existsb (fun l => String.eqb l n) (map fst (columns t)).
Proof.
  unfold has_col. induction (columns t) as [|c cs IH]; simpl; [reflexivity|]. rewrite IH. reflexivity.
Qed.

Lemma series_has_col t n x : series t n = Ok x -> has_col t n = true.
Proof.
  unfold series, has_col. intros H.
  destruct (List.filter (fun c => String.eqb (fst c) n) (columns t)) as [|c r] eqn:E;
    [discriminate|].
  assert (Hc : In c (List.filter (fun c => String.eqb (fst c) n) (columns t)))
    by (rewrite E; left; reflexivity).
  apply filter_In in Hc as [Hc Hl]. apply existsb_exists. eauto.
Qed.

Lemma sheet_from_content n f df T st u st' :
  heap st !! df = Some T -> sheet_from n f df st = (Ok u, st') -> exists c, f T = Ok c.
Proof.
  intros Hd H. unfold sheet_from, create_sheet, get_book, set_book in H.
  apply bind_ok in H as (u1 & st1 & H1 & H).
  apply bind_ok in H1 as (b1 & st0 & H0 & H1). injection H0 as <- <-. injection H1 as <- <-.
  apply bind_ok in H as (t & st2 & H2 & H).
  unfold get_tbl in H2. simpl in H2. rewrite Hd in H2. injection H2 as <- <-.
  apply bind_ok in H as (c & st3 & H3 & H). injection H3 as H3 _. eauto.
Qed.

(** After a successful [load], the quality-report step has run on the
    normalised DataFrame. *)
Lemma load_ok_quality (src : nat) (t : table)
    (mapping_info : option (list (string * string))) (output_path : option string)
    (st : state) (p : string) (st' : state) :
  heap st !! src = Some t ->
  load src mapping_info output_path st = (Ok p, st') ->
  exists a d c,
    series (mapped t mapping_info) "amount" = Ok a /\
    series (mapped t mapping_info) "date" = Ok d /\
    quality_sheet (set_column (set_column (mapped t mapping_info) "amount" (map to_numeric a))
                              "date" (map parse_date d)) = Ok c.
Proof.
  intros Hsrc H. unfold load in H.
  apply bind_ok in H as (df & st1 & H1 & H).
  unfold prepare in H1.
  apply bind_ok in H1 as (df0 & stm & Hm & H1).
  destruct (map_columns_run src t mapping_info st Hsrc) as (df' & stm' & Hm' & Hh & _).
  rewrite Hm in Hm'. injection Hm' as <- <-.
  pose proof (map_columns_loc _ _ _ _ _ Hm) as Hloc.
  apply bind_ok in H1 as (t' & stv & Hv & H1).
  apply validate_run in Hv as [-> Hv]. rewrite Hh in Hv. injection Hv as <-.
  apply bind_ok in H1 as (u & stn & Hn & H1). injection H1 as E1 E2. subst df0 st1.
  apply normalise_run in Hn as (a & d & Ha & Hd & Hhn & Hnl).
  set (T := set_column (set_column (mapped t mapping_info) "amount" (map to_numeric a))
                       "date" (map parse_date d)) in *.
  assert (Hown : owned df T stn) by (split; [exact Hhn | lia]).
  clear Hhn Hnl Hloc Hh Hm.
  apply bind_ok in H as (path & st2 & H2 & H).
  assert (E2 : st2 = stn).
  { destruct output_path as [q|]; simpl in H2.
    - injection H2 as _ <-. reflexivity.
    - apply bind_ok in H2 as (ts & st0 & H0 & H2). injection H0 as _ <-.
      injection H2 as _ <-. reflexivity. }
  subst st2.
  apply bind_ok in H as (u3 & st3 & H3 & H). injection H3 as _ <-.
  apply bind_ok in H as (u4 & st4 & H4 & H).
  unfold remove_sheet, get_book, set_book in H4.
  apply bind_ok in H4 as (b & st0 & H0 & H4). injection H0 as <- <-.
  injection H4 as _ <-. simpl in H.
  set (st4 := {| heap := heap stn; next_loc := next_loc stn; book := []; files := files stn;
                 clock := clock stn |}) in *.
  assert (Hown4 : owned df T st4) by exact Hown.
  apply bind_ok in H as (u5 & st5 & H5 & H).
  assert (Hown5 : owned df T st5) by (eapply owned_step; [| exact Hown4 | exact H5]; apply hoare_sheet_any).
  apply bind_ok in H as (u6 & st6 & H6 & H).
  assert (Hown6 : owned df T st6) by (eapply owned_step; [| exact Hown5 | exact H6]; apply hoare_sheet_any).
  apply bind_ok in H as (u7 & st7 & H7 & H).
  assert (Hown7 : owned df T st7) by (eapply owned_step; [| exact Hown6 | exact H7]; apply hoare_sheet_any).
  apply bind_ok in H as (u8 & st8 & H8 & H).
  assert (Hown8 : owned df T st8) by (eapply owned_step; [| exact Hown7 | exact H8]; apply hoare_monthly_any).
  apply bind_ok in H as (u9 & st9 & H9 & H).
  assert (Hown9 : owned df T st9) by (eapply owned_step; [| exact Hown8 | exact H9]; apply hoare_sheet_any).
  apply bind_ok in H as (u10 & st10 & H10 & H).
  assert (Hown10 : owned df T st10) by (eapply owned_step; [| exact Hown9 | exact H10]; apply hoare_sheet_any).
  apply bind_ok in H as (u11 & st11 & H11 & H).
  destruct (sheet_from_content _ _ _ _ _ _ _ (proj1 Hown10) H11) as (c & Hc).
  exists a, d, c. auto.
Qed.

(** C7 (amended): when the column labels of the DataFrame are distinct, the
    data-quality report lists every column, in order, with its completeness
    (non-null count / row count * 100) and the status OK (>= 90), WARNING
    (>= 70 and < 90) or CRITICAL (< 70), and its overall score is the mean
    of these completeness values; a column with 2 non-null values out of 3
    rows is at 200/3 % and CRITICAL, a fully populated one at 100 % and OK.
    When two columns share a label, the report raises; so [load] raises,
    having saved no file, on every input whose mapped columns share a label. *)
Theorem quality_report_rules (t : table) :
  (List.NoDup (map fst (columns t)) ->
   data_quality_report t =
     Ok (mk_quality
           (qsum (map (fun c => completeness t (snd c)) (columns t))
              / inject_Z (Z.of_nat (length (columns t))))%Q
           (map (fun c => (fst c, completeness t (snd c),
                           quality_status (completeness t (snd c))))
                (columns t)))) /\
  (~ List.NoDup (map fst (columns t)) ->
   exists n, data_quality_report t = Err (NotOneDimensional n)) /\
  (forall c : Q,
     (quality_status c = OK <-> 90 <= c) /\
     (quality_status c = WARNING <-> 70 <= c < 90) /\
     (quality_status c = CRITICAL <-> c < 70))%Q /\
  (forall vals, nrows t = 3%nat -> count_notna vals = 2%nat ->
     completeness t vals == 200 # 3 /\ quality_status (completeness t vals) = CRITICAL) /\
  (forall vals, (0 < nrows t)%nat -> count_notna vals = nrows t ->
     completeness t vals == 100 /\ quality_status (completeness t vals) = OK) /\
  (forall src t0 mapping_info output_path st,
     heap st !! src = Some t0 ->
     ~ List.NoDup (map fst (columns (mapped t0 mapping_info))) ->
     exists e st', load src mapping_info output_path st = (Err e, st') /\ files st' = files st).
Proof.
  refine (conj _ (conj (data_quality_report_dup t) (conj quality_status_spec (conj _ (conj _ _))))).
  - intros Hnd. unfold data_quality_report, mbind, result_bind, mret, result_ret.
    rewrite (mapM_result_ok _ (fun c => (fst c, completeness t (snd c),
                                         quality_status (completeness t (snd c))))).
    + rewrite map_map, length_map. reflexivity.
    + intros c Hc. unfold lookup_label.
      rewrite (filter_unique_key _ (fst c) (completeness t (snd c))); [reflexivity| |].
      * rewrite map_map. exact Hnd.
      * exact (in_map (fun c => (fst c, completeness t (snd c))) _ _ Hc).
  - intros vals H3 H2. unfold completeness. rewrite H3, H2.
    split; vm_compute; reflexivity.
  - intros vals Hpos Hc.
    assert (Hfull : completeness t vals == 100).
    { unfold completeness. rewrite Hc.
      assert (Hn : ~ inject_Z (Z.of_nat (nrows t)) == 0).
      { intros Hn. unfold Qeq in Hn. simpl in Hn. lia. }
      field. exact Hn. }
    split; [exact Hfull|]. apply quality_status_spec. rewrite Hfull. lra.
  - intros src t0 m out st Hsrc Hnd.
    destruct (load src m out st) as [[p|e] st'] eqn:E.
    + exfalso. destruct (load_ok_quality src t0 m out st p st' Hsrc E) as (a & d & c & Ha & Hd & Hq).
      unfold quality_sheet, mbind, result_bind in Hq.
      destruct (mapM_result _ _) as [us|e]; [|discriminate].
      match type of Hq with context [data_quality_report ?T] =>
        destruct (data_quality_report T) as [q|e] eqn:Eq; [|discriminate] end.
      apply data_quality_report_labels in Eq. apply Hnd.
      rewrite set_column_labels, set_column_labels in Eq; [exact Eq| |].
      * apply series_has_col with a. exact Ha.
      * rewrite has_col_labels, set_column_labels, <- has_col_labels.
        -- apply series_has_col with d. exact Hd.
        -- apply series_has_col with a. exact Ha.
    + exists e, st'. split; [reflexivity|]. exact (load_err_keeps_files src m out st e st' E).
Qed.

Lemma quality_report_rules_witness :
  List.NoDup (map fst (columns sample_df)) /\
  data_quality_report sample_df =
    Ok (mk_quality
          (qsum (map (fun c => completeness sample_df (snd c)) (columns sample_df))
             / inject_Z (Z.of_nat (length (columns sample_df))))%Q
          (map (fun c => (fst c, completeness sample_df (snd c),
                          quality_status (completeness sample_df (snd c))))
               (columns sample_df))).
Proof.
  assert (Hnd : List.NoDup (map fst (columns sample_df))).
  { simpl. repeat constructor; simpl; intuition discriminate. }
  split; [exact Hnd|]. exact (proj1 (quality_report_rules sample_df) Hnd).
Defined.

(** C7, counterexample: with two columns labelled [note], [completeness['note']]
    is a Series, not a number, and the report raises instead of listing the
    columns; [load] then fails on this otherwise valid input. *)
Lemma duplicate_label_no_quality_report :
  data_quality_report dup_note = Err (NotOneDimensional "note") /\
  fst (load 0 None (Some "report.xlsx") (store_of dup_note)) = Err (NotOneDimensional "note").
Proof. split; vm_compute; reflexivity. Qed.


Lemma count_notna_le l : (count_notna l <= length l)%nat.
Proof.
  unfold count_notna. induction l as [|v l IH]; simpl; [lia|].
  destruct (notna v); simpl; lia.
Qed.

Lemma completeness_range t vals :
  length vals = nrows t -> (0 < nrows t)%nat -> 0 <= completeness t vals <= 100.
Proof.
  intros Hl Hn. unfold completeness.
  pose proof (count_notna_le vals) as Hc. rewrite Hl in Hc.
  assert (Hb : 0 < inject_Z (Z.of_nat (nrows t))).
  { change 0 with (inject_Z 0). rewrite <- Zlt_Qlt. lia. }
  assert (H0 : 0 <= inject_Z (Z.of_nat (count_notna vals)) / inject_Z (Z.of_nat (nrows t))).
  { apply Qle_shift_div_l; [exact Hb|]. rewrite Qmult_0_l.
    change 0 with (inject_Z 0). rewrite <- Zle_Qle. lia. }
  assert (H1 : inject_Z (Z.of_nat (count_notna vals)) / inject_Z (Z.of_nat (nrows t)) <= 1).
  { apply Qle_shift_div_r; [exact Hb|]. rewrite Qmult_1_l. rewrite <- Zle_Qle. lia. }
  split; lra.
Qed.

Lemma qsum_range l :
  (forall x, In x l -> 0 <= x <= 100) ->
  0 <= qsum l <= 100 * inject_Z (Z.of_nat (length l)).
Proof.
  induction l as [|x l IH]; intros H; cbn [qsum length]; [split; [apply Qle_refl|]; compute; discriminate|].
  destruct (H x (or_introl eq_refl)) as [H1 H2].
  destruct IH as [H3 H4]; [intros y Hy; apply H; right; exact Hy|].
  rewrite Nat2Z.inj_succ. unfold Z.succ. rewrite inject_Z_plus. change (inject_Z 1) with 1.
  split; lra.
Qed.

Lemma lookup_label_in (l : list (string * Q)) n v :
  lookup_label l n = Ok v -> In (n, v) l.
Proof.
  unfold lookup_label. intros H.
  pose proof (fun p => proj1 (filter_In (fun p : string * Q => String.eqb (fst p) n) p l)) as Hin.
  destruct (List.filter _ _) as [|p [|p' r]] eqn:E; try discriminate.
  injection H as <-. destruct (Hin p) as [Hp Hn]; [try rewrite E; left; reflexivity|].
  apply String.eqb_eq in Hn. destruct p as [n' v]. simpl in *. subst n'. exact Hp.
Qed.

Lemma mapM_result_in {A B} (f : A -> result B) l ys :
  mapM_result f l = Ok ys -> forall y, In y ys -> exists x, In x l /\ f x = Ok y.
Proof.
  revert ys. induction l as [|x l IH]; intros ys H y Hy; simpl in H.
  - injection H as <-. destruct Hy.
  - unfold mbind, result_bind in H. destruct (f x) as [b|] eqn:Ef; [|discriminate].
    destruct (mapM_result f l) as [bs|]; [|discriminate].
    injection H as <-. destruct Hy as [E|Hy]; [subst; exists x; split; [left; reflexivity|exact Ef]|].
    destruct (IH bs eq_refl y Hy) as (x' & Hx' & Hf). exists x'. split; [right; exact Hx'|exact Hf].
Qed.

(** For a table with rows, at least one column and columns of equal
    length, the Data Quality Report's overall score and every column's
    completeness lie between 0 and 100, each column's status being the one
    of its completeness. *)
Theorem quality_scores_in_range (t : table) (q : quality) :
  rectangular t = true -> (0 < nrows t)%nat -> columns t <> [] ->
  data_quality_report t = Ok q ->
  0 <= q_overall q <= 100 /\
  forall n v s, In (n, v, s) (q_rows q) -> 0 <= v <= 100 /\ s = quality_status v.
Proof.
  intros Hr Hn Hc H. unfold data_quality_report, mbind, result_bind in H.
  set (comp := map (fun c => (fst c, completeness t (snd c))) (columns t)) in H.
  assert (Hcomp : forall x, In x (map snd comp) -> 0 <= x <= 100).
  { intros x Hx. unfold comp in Hx. rewrite map_map in Hx. apply in_map_iff in Hx as (c & <- & Hin).
    apply completeness_range; [|exact Hn].
    unfold rectangular in Hr. rewrite forallb_forall in Hr. apply Nat.eqb_eq, Hr, Hin. }
  destruct (mapM_result _ (columns t)) as [rows|] eqn:Erows; [|discriminate].
  injection H as <-. simpl. split.
  - destruct (qsum_range _ Hcomp) as [H1 H2]. rewrite length_map in H2.
    assert (Hl : 0 < inject_Z (Z.of_nat (length comp))).
    { change 0 with (inject_Z 0). rewrite <- Zlt_Qlt. unfold comp. rewrite length_map.
      destruct (columns t); [congruence|]. simpl. lia. }
    split.
    + apply Qle_shift_div_l; [exact Hl|]. rewrite Qmult_0_l. exact H1.
    + apply Qle_shift_div_r; [exact Hl|]. exact H2.
  - intros n v s Hin. destruct (mapM_result_in _ _ _ Erows _ Hin) as (c & _ & Hf).
    unfold mbind, result_bind in Hf. destruct (lookup_label comp (fst c)) as [w|] eqn:El; [|discriminate].
    injection Hf as E1 E2 E3. subst n v s. split; [|reflexivity].
    apply Hcomp. apply lookup_label_in in El. apply in_map_iff. exists (fst c, w). auto.
Qed.

Lemma insert_desc_map {A B} (f : B -> Q) (g : A -> B) x l :
  insert_desc f (g x) (map g l) = map g (insert_desc (fun a => f (g a)) x l).
Proof.
  induction l as [|y l IH]; simpl; [reflexivity|].
  destruct (Qle_bool (f (g y)) (f (g x))); simpl; [reflexivity|]. rewrite IH. reflexivity.
Qed.

Lemma sort_desc_map {A B} (f : B -> Q) (g : A -> B) l :
  sort_desc f (map g l) = map g (sort_desc (fun a => f (g a)) l).
Proof.
  unfold sort_desc. induction l as [|x l IH]; simpl; [reflexivity|].
  rewrite IH. apply insert_desc_map.
Qed.

Lemma ranked_map {A B} (g : A -> B) l :
  ranked (map g l) = map (fun p => (fst p, g (snd p))) (ranked l).
Proof.
  unfold ranked. rewrite length_map. generalize 1%nat.
  induction l as [|x l IH]; intros s; simpl; [reflexivity|]. rewrite IH. reflexivity.
Qed.

Lemma ranked_firstn {A} n (l : list A) : ranked (firstn n l) = firstn n (ranked l).
Proof.
  unfold ranked. generalize 1%nat. revert n.
  induction l as [|x l IH]; intros [|n] s; simpl; try reflexivity.
  rewrite IH. reflexivity.
Qed.

Lemma executive_summary_inv t s :
  executive_summary t = Ok s ->
  exists vs amounts, series t "vendor" = Ok vs /\ series t "amount" = Ok amounts /\
    s_top5 s =
      map (fun p => let '(i, (v, su, c)) := p in mk_top_row i v su (fdiv su (series_sum amounts)) c)
          (ranked (nlargest 5 (fun g : value * Q * nat => snd (fst g)) (vendor_sum_count vs amounts))).
Proof.
  unfold executive_summary, mbind, result_bind, mret, result_ret.
  destruct (series t "amount") as [amounts|e]; [|discriminate].
  destruct (series t "vendor") as [vs|e]; [|discriminate].
  destruct (has_col t "category"); [destruct (series t "category"); [|discriminate]|];
    intros H; injection H as <-; exists vs, amounts; auto.
Qed.

Lemma vendor_analysis_inv t rows :
  vendor_analysis t = Ok rows ->
  exists vs amounts countries, series t "vendor" = Ok vs /\ series t "amount" = Ok amounts /\
    rows = map (fun p => with_vendor_rank (fst p) (snd p))
             (ranked (sort_desc v_total
               (map (fun k =>
                  let g := group_of k vs amounts in
                  mk_vendor_row 0 k (series_sum g) (series_count g) (series_mean g)
                    (fdiv (series_sum g) (series_sum amounts))
                    (option_map (fun cs => first_notna (group_of k vs cs)) countries))
                  (group_keys vs)))).
Proof.
  unfold vendor_analysis, mbind, result_bind, mret, result_ret.
  destruct (series t "vendor") as [vs|e]; [|discriminate].
  destruct (series t "amount") as [amounts|e]; [|discriminate].
  destruct (has_col t "vendor_country").
  - destruct (series t "vendor_country") as [cs|e]; [|discriminate].
    intros H; injection H as <-. exists vs, amounts, (Some cs). auto.
  - intros H; injection H as <-. exists vs, amounts, None. auto.
Qed.

(** The five rows of the Executive Summary's TOP 5 VENDORS BY SPEND table are
    the first five rows of the Spend by Vendor sheet: same rank, vendor,
    total, share of the total and transaction count. Stated for sheets where
    no two vendors have the same total, the case where [nlargest] and
    [sort_values] are bound to put the vendors in the same order. *)
Theorem summary_top5_is_vendor_sheet_head (t : table) (s : summary) (rows : list vendor_row) :
  executive_summary t = Ok s -> vendor_analysis t = Ok rows ->
  ForallOrdPairs (fun a b => ~ v_total a == v_total b) rows ->
  s_top5 s = map (fun r => mk_top_row (v_rank r) (v_name r) (v_total r) (v_pct r) (v_count r))
                 (firstn 5 rows).
Proof.
  intros Hs Hr _.
  apply executive_summary_inv in Hs as (vs & amounts & Hv & Ha & ->).
  apply vendor_analysis_inv in Hr as (vs' & amounts' & countries & Hv' & Ha' & ->).
  rewrite Hv in Hv'. injection Hv' as <-. rewrite Ha in Ha'. injection Ha' as <-.
  unfold nlargest, vendor_sum_count.
  rewrite !sort_desc_map, !firstn_map, <- ranked_firstn, firstn_map, !ranked_map, !map_map.
  apply map_ext. intros [i k]. reflexivity.
Qed.

Lemma keyed_spend_all_keyed vs amounts :
  forallb notna vs = true -> length vs = length amounts ->
  keyed_spend vs amounts == series_sum amounts.
Proof.
  rewrite series_sum_total. unfold keyed_spend, grand_total.
  revert amounts. induction vs as [|v vs IH]; intros [|a amounts]; simpl; try discriminate;
    [reflexivity|].
  intros Hn Hl. apply andb_true_iff in Hn as [Hv Hn]. rewrite Hv.
  rewrite (IH amounts Hn) by lia. reflexivity.
Qed.

(** With at most ten vendors, a vendor on every row and a non-zero total,
    the top ten vendors are all the vendors: the concentration insight
    reports a top-10 spend equal to the total spend, a share of 100% and a
    High risk. *)
Theorem few_vendors_full_concentration (t : table) (vs amounts : list value) :
  series t "vendor" = Ok vs -> series t "amount" = Ok amounts ->
  length vs = length amounts -> forallb notna vs = true ->
  (length (group_keys vs) <= 10)%nat -> ~ series_sum amounts == 0 ->
  exists l top c,
    insights t = Ok (app l [Concentration (EFin c) top High]) /\
    top == series_sum amounts /\ c == 100.
Proof.
  intros Hv Ha Hl Hn H10 Hz.
  unfold insights, mbind, result_bind, mret, result_ret. rewrite Hv, Ha.
  set (totals := map (fun k => series_sum (group_of k vs amounts)) (group_keys vs)).
  set (top := qsum (nlargest 10 (fun s => s) totals)).
  assert (Htop : top == series_sum amounts).
  { unfold top, nlargest. rewrite firstn_all2
      by (rewrite length_sort_desc; unfold totals; rewrite length_map; exact H10).
    rewrite (qsum_perm _ _ (sort_desc_perm _ _)).
    unfold totals. rewrite (proj1 (group_totals vs amounts)).
    apply keyed_spend_all_keyed; assumption. }
  assert (Hc : top / series_sum amounts * 100 == 100).
  { rewrite Htop. field. exact Hz. }
  assert (Hf : fdiv top (series_sum amounts) = EFin (top / series_sum amounts)).
  { unfold fdiv. destruct (Qeq_bool (series_sum amounts) 0) eqn:E; [|reflexivity].
    apply Qeq_bool_iff in E. contradiction. }
  rewrite Hf. simpl emul.
  assert (Hh : risk_level (EFin (top / series_sum amounts * 100)) = High).
  { apply risk_level_fin. rewrite Hc. reflexivity. }
  rewrite Hh. eexists _, top, _. split; [reflexivity|]. split; assumption.
Qed.

Lemma summary_top5_is_vendor_sheet_head_witness :
  exists s rows,
    executive_summary sample_df = Ok s /\ vendor_analysis sample_df = Ok rows /\
    ForallOrdPairs (fun a b => ~ v_total a == v_total b) rows /\
    s_top5 s = map (fun r => mk_top_row (v_rank r) (v_name r) (v_total r) (v_pct r) (v_count r))
                   (firstn 5 rows).
Proof.
  destruct (executive_summary sample_df) as [s|e] eqn:Hs; [|vm_compute in Hs; discriminate Hs].
  destruct (vendor_analysis sample_df) as [rows|e] eqn:Hr; [|vm_compute in Hr; discriminate Hr].
  assert (Hd : ForallOrdPairs (fun a b => ~ v_total a == v_total b) rows).
  { pose proof Hr as Hr'. vm_compute in Hr'. injection Hr' as <-.
    repeat constructor; vm_compute; discriminate. }
  exists s, rows. split; [reflexivity|]. split; [reflexivity|]. split; [exact Hd|].
  exact (summary_top5_is_vendor_sheet_head sample_df s rows Hs Hr Hd).
Defined.

Lemma few_vendors_full_concentration_witness :
  series sample_df "vendor" = Ok [VStr "Vendor A"; VStr "Vendor B"; VStr "Vendor A"] /\
  series sample_df "amount" = Ok [VNum 100; VNum 200; VNum 150] /\
  exists l top c,
    insights sample_df = Ok (app l [Concentration (EFin c) top High]) /\
    top == series_sum [VNum 100; VNum 200; VNum 150] /\ c == 100.
Proof.
  assert (Hv : series sample_df "vendor" = Ok [VStr "Vendor A"; VStr "Vendor B"; VStr "Vendor A"])
    by reflexivity.
  assert (Ha : series sample_df "amount" = Ok [VNum 100; VNum 200; VNum 150]) by reflexivity.
  split; [exact Hv|]. split; [exact Ha|].
  apply (few_vendors_full_concentration sample_df _ _ Hv Ha);
    [reflexivity | reflexivity | vm_compute; lia | vm_compute; discriminate].
Defined.

Lemma ForallOrdPairs_perm {A} (R : A -> A -> Prop) (Rsym : forall a b, R a b -> R b a) l l' :
  Permutation l l' -> ForallOrdPairs R l -> ForallOrdPairs R l'.
Proof.
  induction 1 as [|x l l' Hp IH|x y l|l l' l'' _ IH1 _ IH2]; intros H.
  - exact H.
  - inversion H as [|? ? Hx Hl]; subst. constructor; [|exact (IH Hl)].
    apply (Permutation_Forall Hp Hx).
  - inversion H as [|? ? Hy Hl]; subst. inversion Hl as [|? ? Hx Hl']; subst.
    inversion Hy as [|? ? Hyx Hyl]; subst.
    constructor; [constructor; [apply Rsym, Hyx | exact Hx]|].
    constructor; assumption.
  - auto.
Qed.

Lemma distinct_sym a b : distinct a b -> distinct b a.
Proof. unfold distinct. rewrite value_eqb_sym. auto. Qed.

Lemma in_dedup_vals_inv y l : In y (dedup_vals l) -> In y l.
Proof.
  induction l as [|x l IH]; simpl; [tauto|]. intros [->|Hy]; [left; reflexivity|].
  apply filter_In in Hy as [Hy _]. right. exact (IH Hy).
Qed.

Lemma rows_list_group_keys {R} (nm : R -> value) (rows : list R) keys :
  Permutation (map nm rows) (group_keys keys) ->
  ForallOrdPairs distinct (map nm rows) /\
  (forall v, In v keys -> notna v = true -> exists r, In r rows /\ value_eqb (nm r) v = true) /\
  (forall r, In r rows -> In (nm r) keys /\ notna (nm r) = true).
Proof.
  intros Hp. pose proof (Permutation_trans Hp (group_keys_perm keys)) as Hd.
  split; [|split].
  - apply (ForallOrdPairs_perm _ distinct_sym _ _ (Permutation_sym Hp)), group_keys_distinct.
  - intros v Hv Hn.
    destruct (in_dedup_vals v (List.filter notna keys)) as (y & Hy & Hyv);
      [apply filter_In; auto|].
    apply (Permutation_in _ (Permutation_sym Hd)), in_map_iff in Hy as (r & <- & Hr).
    exists r. auto.
  - intros r Hr. apply (in_map nm), (Permutation_in _ Hd), in_dedup_vals_inv, filter_In in Hr.
    exact Hr.
Qed.

(** The Spend by Vendor sheet has one row per vendor of the table: every
    non-null vendor of the [vendor] column has a row, every row names a
    non-null vendor of the column, and no two rows name equal vendors; rows
    with a null vendor are dropped, as [groupby] does. *)
Theorem vendor_sheet_one_row_per_vendor (t : table) (vs : list value) (rows : list vendor_row) :
  series t "vendor" = Ok vs -> vendor_analysis t = Ok rows ->
  ForallOrdPairs distinct (map v_name rows) /\
  (forall v, In v vs -> notna v = true -> exists r, In r rows /\ value_eqb (v_name r) v = true) /\
  (forall r, In r rows -> In (v_name r) vs /\ notna (v_name r) = true).
Proof.
  intros Hv Hr. apply vendor_analysis_inv in Hr as (vs' & amounts & countries & Hv' & _ & ->).
  rewrite Hv in Hv'. injection Hv' as <-.
  apply rows_list_group_keys.
  rewrite map_map. simpl. rewrite <- (map_map snd v_name), ranked_snd.
  etransitivity; [apply Permutation_map, sort_desc_perm|].
  rewrite map_map, map_id. reflexivity.
Qed.

(** The Spend by Category sheet, when the table has a [category] column,
    has one row per category: every non-null category has a row, every row
    names a non-null category of the column, and no two rows name equal
    categories. *)
Theorem category_sheet_one_row_per_category (t : table) (cs : list value)
    (rows : list category_row) :
  series t "category" = Ok cs -> category_analysis t = Ok (Categories rows) ->
  ForallOrdPairs distinct (map c_name rows) /\
  (forall v, In v cs -> notna v = true -> exists r, In r rows /\ value_eqb (c_name r) v = true) /\
  (forall r, In r rows -> In (c_name r) cs /\ notna (c_name r) = true).
Proof.
  intros Hc Hr. apply category_analysis_ok in Hr as (cs' & amounts & vs & Hc' & _ & _ & ->).
  rewrite Hc in Hc'. injection Hc' as <-.
  apply rows_list_group_keys.
  rewrite map_map. simpl. rewrite <- (map_map snd c_name), ranked_snd.
  etransitivity; [apply Permutation_map, sort_desc_perm|].
  rewrite map_map, map_id. reflexivity.
Qed.

Lemma vendor_sheet_one_row_per_vendor_witness :
  exists rows,
    series one_undated "vendor" = Ok [VStr "Vendor A"; VStr "Vendor B"; VStr "Vendor A"] /\
    vendor_analysis one_undated = Ok rows /\
    ForallOrdPairs distinct (map v_name rows) /\
    (forall v, In v [VStr "Vendor A"; VStr "Vendor B"; VStr "Vendor A"] -> notna v = true ->
               exists r, In r rows /\ value_eqb (v_name r) v = true) /\
    (forall r, In r rows ->
               In (v_name r) [VStr "Vendor A"; VStr "Vendor B"; VStr "Vendor A"] /\
               notna (v_name r) = true).
Proof.
  assert (Hv : series one_undated "vendor" = Ok [VStr "Vendor A"; VStr "Vendor B"; VStr "Vendor A"])
    by reflexivity.
  destruct (vendor_analysis one_undated) as [rows|e] eqn:Hr; [|vm_compute in Hr; discriminate Hr].
  exists rows. split; [exact Hv|]. split; [reflexivity|].
  exact (vendor_sheet_one_row_per_vendor one_undated _ rows Hv Hr).
Defined.

Lemma category_sheet_one_row_per_category_witness :
  exists rows,
    series one_undated "category" = Ok [VStr "IT"; VNone; VStr "IT"] /\
    category_analysis one_undated = Ok (Categories rows) /\
    ForallOrdPairs distinct (map c_name rows) /\
    (forall v, In v [VStr "IT"; VNone; VStr "IT"] -> notna v = true ->
               exists r, In r rows /\ value_eqb (c_name r) v = true) /\
    (forall r, In r rows -> In (c_name r) [VStr "IT"; VNone; VStr "IT"] /\ notna (c_name r) = true).
Proof.
  assert (Hc : series one_undated "category" = Ok [VStr "IT"; VNone; VStr "IT"]) by reflexivity.
  destruct (category_analysis one_undated) as [[|rows]|e] eqn:Hr;
    [vm_compute in Hr; discriminate Hr| |vm_compute in Hr; discriminate Hr].
  exists rows. split; [exact Hc|]. split; [reflexivity|].
  exact (category_sheet_one_row_per_category one_undated _ rows Hc Hr).
Defined.

(** A mapping none of whose source columns is a column of the table renames
    nothing: the table the validator sees is the caller's table. *)
Theorem unmatched_mapping_ignored (t : table) (m : list (string * string)) :
  forallb (fun kv => negb (has_col t (snd kv))) m = true ->
  mapped t (Some m) = t.
Proof.
  intros H. unfold mapped. destruct m as [|kv m]; [reflexivity|].
  assert (Hi : inv_map t (kv :: m) = []).
  { unfold inv_map. revert H. generalize (kv :: m) as l.
    induction l as [|x l IH]; simpl; intros H; [reflexivity|].
    apply andb_true_iff in H as [Hx Hl]. apply negb_true_iff in Hx. rewrite Hx. exact (IH Hl). }
  rewrite Hi. clear H Hi. destruct t as [n cols]. unfold rename. simpl. f_equal.
  induction cols as [|[c v] cols IH]; simpl; [reflexivity|]. rewrite IH. reflexivity.
Qed.

Lemma unmatched_mapping_ignored_witness :
  forallb (fun kv => negb (has_col sample_df (snd kv))) [("vendor", "Supplier")] = true /\
  mapped sample_df (Some [("vendor", "Supplier")]) = sample_df.
Proof.
  assert (H : forallb (fun kv => negb (has_col sample_df (snd kv))) [("vendor", "Supplier")] = true)
    by reflexivity.
  split; [exact H|]. exact (unmatched_mapping_ignored sample_df _ H).
Defined.

Lemma small_number_date_is_epoch_witness :
  (0 <= 100 <= 25569)%Q /\
  exists d, parse_date (VNum 100) = VStamp d /\ stamp_date d = (1970%Z, 1%Z, 1%Z).
Proof.
  assert (H : (0 <= 100 <= 25569)%Q) by (split; unfold Qle; simpl; lia).
  split; [exact H|]. exact (small_number_date_is_epoch 100 H).
Defined.

Lemma vendor_sheet_reconciles_witness :
  exists vs amounts rows,
    series one_undated "vendor" = Ok vs /\ series one_undated "amount" = Ok amounts /\
    vendor_analysis one_undated = Ok rows /\
    qsum (map v_total rows) == keyed_spend vs amounts /\
    list_sum (map v_count rows) = keyed_count vs amounts.
Proof.
  destruct (series one_undated "vendor") as [vs|e] eqn:Hv; [|discriminate Hv].
  destruct (series one_undated "amount") as [amounts|e] eqn:Ha; [|discriminate Ha].
  destruct (vendor_analysis one_undated) as [rows|e] eqn:Hr; [|vm_compute in Hr; discriminate Hr].
  exists vs, amounts, rows. split; [reflexivity|]. split; [reflexivity|]. split; [reflexivity|].
  exact (vendor_sheet_reconciles one_undated vs amounts rows Hv Ha Hr).
Defined.

Lemma category_sheet_reconciles_witness :
  exists cs amounts rows,
    series one_undated "category" = Ok cs /\ series one_undated "amount" = Ok amounts /\
    category_analysis one_undated = Ok (Categories rows) /\
    qsum (map c_total rows) == keyed_spend cs amounts /\
    list_sum (map c_count rows) = keyed_count cs amounts /\
    Sorted (fun a b => c_total b <= c_total a) rows /\
    map c_rank rows = seq 1 (length rows).
Proof.
  destruct (series one_undated "category") as [cs|e] eqn:Hc; [|discriminate Hc].
  destruct (series one_undated "amount") as [amounts|e] eqn:Ha; [|discriminate Ha].
  destruct (category_analysis one_undated) as [[|rows]|e] eqn:Hr;
    [vm_compute in Hr; discriminate Hr| |vm_compute in Hr; discriminate Hr].
  exists cs, amounts, rows. split; [reflexivity|]. split; [reflexivity|]. split; [reflexivity|].
  exact (category_sheet_reconciles one_undated cs amounts rows Hc Ha Hr).
Defined.

Lemma monthly_sheet_reconciles_witness :
  exists ds amounts rows,
    series one_undated "date" = Ok ds /\ series one_undated "amount" = Ok amounts /\
    monthly_trends (set_column one_undated "month" (map month_of ds)) = Ok rows /\
    qsum (map m_total rows) == dated_spend ds amounts /\
    list_sum (map m_count rows) = dated_count ds amounts.
Proof.
  assert (Hd : series one_undated "date" = Ok [VStamp 19358; VNaT; VStamp 19390]) by reflexivity.
  destruct (series one_undated "amount") as [amounts|e] eqn:Ha; [|discriminate Ha].
  destruct (monthly_trends (set_column one_undated "month"
              (map month_of [VStamp 19358; VNaT; VStamp 19390]))) as [rows|e] eqn:Hr;
    [|vm_compute in Hr; discriminate Hr].
  exists [VStamp 19358; VNaT; VStamp 19390], amounts, rows.
  split; [exact Hd|]. split; [reflexivity|]. split; [exact Hr|].
  exact (monthly_sheet_reconciles one_undated _ amounts rows Hd Ha Hr).
Defined.

Lemma monthly_rows_chronological_witness :
  exists rows,
    monthly_trends (set_column one_undated "month"
                      (map month_of [VStamp 19358; VNaT; VStamp 19390])) = Ok rows /\
    Sorted month_before (map m_month rows) /\ List.NoDup (map m_month rows).
Proof.
  destruct (monthly_trends (set_column one_undated "month"
              (map month_of [VStamp 19358; VNaT; VStamp 19390]))) as [rows|e] eqn:Hr;
    [|vm_compute in Hr; discriminate Hr].
  exists rows. split; [reflexivity|].
  exact (monthly_rows_chronological one_undated _ rows Hr).
Defined.

Lemma detailed_data_exports_table_witness :
  exists p st',
    heap (store_of sample_df) !! 0%nat = Some sample_df /\
    load 0 None (Some "report.xlsx") (store_of sample_df) = (Ok p, st') /\
    exists a d sheets,
      series (mapped sample_df None) "amount" = Ok a /\
      series (mapped sample_df None) "date" = Ok d /\
      files st' = (p, sheets) :: files (store_of sample_df) /\
      nth_error sheets 5 =
        Some (mk_sheet "Detailed Data"
                (DetailSheet (set_column (set_column (mapped sample_df None) "amount"
                                            (map to_numeric a))
                                "date" (map parse_date d)))).
Proof.
  destruct (load 0 None (Some "report.xlsx") (store_of sample_df)) as [r st'] eqn:E.
  assert (Hr : r = Ok "report.xlsx").
  { change r with (fst (r, st')). rewrite <- E. vm_compute. reflexivity. }
  subst r. exists "report.xlsx", st'.
  assert (H : heap (store_of sample_df) !! 0%nat = Some sample_df) by reflexivity.
  split; [exact H|]. split; [reflexivity|].
  exact (detailed_data_exports_table 0 sample_df None (Some "report.xlsx") (store_of sample_df) _ st' H E).
Defined.

Lemma load_returns_path_witness :
  exists p st',
    load 0 None None (store_of sample_df) = (Ok p, st') /\
    p = "procurement_analysis_2026-10-17_120000.xlsx".
Proof.
  destruct (load 0 None None (store_of sample_df)) as [r st'] eqn:E.
  destruct r as [p|e]; [|change (Err e) with (fst (@Err string e, st')) in E;
                         vm_compute in E; discriminate E].
  exists p, st'. split; [reflexivity|].
  exact (load_returns_path 0 None None (store_of sample_df) p st' E).
Defined.

Lemma failed_load_saves_nothing_witness :
  exists st',
    load 0 None None (store_of rows_no_columns) = (Err EmptyInputError, st') /\
    files st' = files (store_of rows_no_columns).
Proof.
  destruct (load 0 None None (store_of rows_no_columns)) as [r st'] eqn:E.
  assert (Hr : r = Err EmptyInputError).
  { change r with (fst (r, st')). rewrite <- E. vm_compute. reflexivity. }
  subst r. exists st'. split; [reflexivity|].
  exact (failed_load_saves_nothing 0 None None (store_of rows_no_columns) _ st' E).
Defined.

Lemma quality_scores_in_range_witness :
  exists q,
    rectangular one_undated = true /\ (0 < nrows one_undated)%nat /\ columns one_undated <> [] /\
    data_quality_report one_undated = Ok q /\
    0 <= q_overall q <= 100 /\
    forall n v s, In (n, v, s) (q_rows q) -> 0 <= v <= 100 /\ s = quality_status v.
Proof.
  destruct (data_quality_report one_undated) as [q|e] eqn:Hq; [|vm_compute in Hq; discriminate Hq].
  assert (H1 : rectangular one_undated = true) by (vm_compute; reflexivity).
  assert (H2 : (0 < nrows one_undated)%nat) by (simpl; lia).
  assert (H3 : columns one_undated <> []) by discriminate.
  exists q. split; [exact H1|]. split; [exact H2|]. split; [exact H3|]. split; [reflexivity|].
  exact (quality_scores_in_range one_undated q H1 H2 H3 Hq).
Defined.


(** ** C10: the steps that divide by a zero grand total *)

Lemma length_filter_le {A} (f : A -> bool) l : (length (List.filter f l) <= length l)%nat.
Proof. induction l as [|x l IH]; simpl; [lia|]. destruct (f x); simpl; lia. Qed.

Lemma dedup_vals_length l : (length (dedup_vals l) <= length l)%nat.
Proof.
  induction l as [|x l IH]; simpl; [lia|].
  pose proof (length_filter_le (fun y => negb (value_eqb x y)) (dedup_vals l)). lia.
Qed.

Lemma group_keys_length vs : (length (group_keys vs) <= length vs)%nat.
Proof.
  rewrite (Permutation_length (group_keys_perm vs)).
  pose proof (dedup_vals_length (List.filter notna vs)).
  pose proof (length_filter_le notna vs). lia.
Qed.

Lemma group_keys_in k vs : In k (group_keys vs) -> In k vs.
Proof.
  intros H. apply (Permutation_in _ (group_keys_perm vs)) in H.
  apply in_dedup_vals_inv, filter_In in H. tauto.
Qed.

Lemma group_of_in v k keys vals : In v (group_of k keys vals) -> In v vals.
Proof.
  unfold group_of. intros H. apply in_map_iff in H as ([x y] & <- & H).
  apply filter_In in H as [H _]. exact (in_combine_r _ _ _ _ H).
Qed.

Lemma first_notna_in l : first_notna l = VNone \/ In (first_notna l) l.
Proof.
  unfold first_notna. destruct (List.filter notna l) as [|v r] eqn:E; [auto|].
  right. assert (Hv : In v (List.filter notna l)) by (rewrite E; left; reflexivity).
  apply filter_In in Hv. tauto.
Qed.

Lemma in_firstn_l {A} n (l : list A) x : In x (firstn n l) -> In x l.
Proof. intros H. rewrite <- (firstn_skipn n l). apply in_or_app. left. exact H. Qed.

(** The Executive Summary sheet writes the names of its top vendors. *)
Lemma summary_body_ok t s vs :
  executive_summary t = Ok s -> series t "vendor" = Ok vs -> forallb cell_ok vs = true ->
  body_ok (SummarySheet s) = true.
Proof.
  intros Hs Ev Hv. apply executive_summary_ok in Hs as (amounts & vs' & cat & _ & Ev' & ->).
  rewrite Ev in Ev'. injection Ev' as <-. simpl. apply forallb_forall.
  intros r Hr. apply in_map_iff in Hr as ([i [[v x] c]] & <- & Hin). simpl.
  apply in_ranked in Hin. simpl in Hin. unfold nlargest in Hin.
  apply in_firstn_l, (Permutation_in _ (sort_desc_perm _ _)) in Hin.
  unfold vendor_sum_count in Hin. apply in_map_iff in Hin as (k & Hk & Hin).
  injection Hk as -> _ _. apply group_keys_in in Hin.
  exact (proj1 (forallb_forall _ _) Hv _ Hin).
Qed.

(** The Spend by Vendor sheet: a header and one row per vendor, with the
    vendor names and countries. *)
Lemma vendor_body_ok vs amounts total countries :
  forallb cell_ok vs = true -> (forall cs, countries = Some cs -> forallb cell_ok cs = true) ->
  (N.of_nat (S (length vs)) <= max_rows)%N ->
  body_ok (VendorSheet
    (map (fun p => with_vendor_rank (fst p) (snd p))
       (ranked (sort_desc v_total
          (map (fun k =>
                  let g := group_of k vs amounts in
                  mk_vendor_row 0 k (series_sum g) (series_count g) (series_mean g)
                    (fdiv (series_sum g) total)
                    (option_map (fun cs => first_notna (group_of k vs cs)) countries))
               (group_keys vs)))))) = true.
Proof.
  intros Hv Hc Hlen. unfold body_ok. apply andb_true_intro. split.
  - apply N.leb_le. rewrite length_map, ranked_length, length_sort_desc, length_map.
    pose proof (group_keys_length vs). lia.
  - apply forallb_forall. intros r Hr. apply in_vendor_rows in Hr as (i & k & Hk & ->).
    simpl. apply andb_true_intro. split.
    + exact (proj1 (forallb_forall _ _) Hv _ (group_keys_in _ _ Hk)).
    + destruct countries as [cs|]; simpl; [|reflexivity].
      destruct (first_notna_in (group_of k vs cs)) as [->|Hin]; [reflexivity|].
      exact (proj1 (forallb_forall _ _) (Hc cs eq_refl) _ (group_of_in _ _ _ _ Hin)).
Qed.

(** A sheet step whose content is computed and accepted by openpyxl returns. *)
Lemma sheet_from_runs n f df T c st :
  heap st !! df = Some T -> f T = Ok c -> body_ok c = true ->
  exists st', sheet_from n f df st = (Ok tt, st').
Proof.
  intros Hd Hf Hb. unfold sheet_from, create_sheet, write_sheet, get_book, set_book, get_tbl, lift.
  unfold mbind, M_bind. simpl. rewrite Hd, Hf, Hb. eexists. reflexivity.
Qed.

(** C10 (amended): when the amounts sum to zero, the columns read by the
    three steps have unique labels, no vendor name or vendor country holds a
    character openpyxl refuses, and there are fewer than 1048576 vendor
    values, the executive summary, the vendor analysis and the insights do
    not raise, nor do the steps that write them; every percentage of the
    grand total is [inf], [-inf] or [nan], never a number; the concentration
    insight is emitted with such a value as its share, and its risk is Low
    when the top-10 spend is at most 0 but High when the top-10 spend is
    positive. *)
Theorem zero_total_no_raise (t : table) (vs amounts : list value) :
  series t "vendor" = Ok vs -> series t "amount" = Ok amounts ->
  (has_col t "category" = true -> exists cs, series t "category" = Ok cs) ->
  (has_col t "vendor_country" = true ->
     exists cs, series t "vendor_country" = Ok cs /\ forallb cell_ok cs = true) ->
  forallb cell_ok vs = true ->
  (N.of_nat (S (length vs)) <= max_rows)%N ->
  series_sum amounts == 0 ->
  exists s rows ins,
    executive_summary t = Ok s /\ vendor_analysis t = Ok rows /\ insights t = Ok ins /\
    (forall st df, heap st !! df = Some t ->
       (exists st', create_executive_summary df st = (Ok tt, st')) /\
       (exists st', create_vendor_analysis df st = (Ok tt, st')) /\
       (exists st', create_insights df st = (Ok tt, st'))) /\
    (forall r, In r (s_top5 s) -> forall q, t_pct r <> EFin q) /\
    (forall r, In r rows -> forall q, v_pct r <> EFin q) /\
    exists conc level,
      let top10 := qsum (firstn 10 (sort_desc (fun s => s)
                     (map (fun k => series_sum (group_of k vs amounts)) (group_keys vs)))) in
      In (Concentration conc top10 level) ins /\ (forall q, conc <> EFin q) /\
      (level = High <-> 0 < top10)%Q /\ (level = Low <-> top10 <= 0)%Q.
Proof.
  intros Ev Ea Hcat Hcty Hvn Hlen Hz.
  assert (Es : exists s, executive_summary t = Ok s).
  { unfold executive_summary, mbind, result_bind, mret, result_ret. rewrite Ea, Ev.
    destruct (has_col t "category"); [destruct (Hcat eq_refl) as [cs ->]|];
      eexists; reflexivity. }
  assert (Er : exists rows, vendor_analysis t = Ok rows /\ body_ok (VendorSheet rows) = true).
  { unfold vendor_analysis, mbind, result_bind, mret, result_ret. rewrite Ev, Ea.
    destruct (has_col t "vendor_country").
    - destruct (Hcty eq_refl) as (cs & -> & Hok).
      eexists. split; [reflexivity|]. apply vendor_body_ok; [exact Hvn| |exact Hlen].
      intros cs' [= <-]. exact Hok.
    - eexists. split; [reflexivity|]. apply vendor_body_ok; [exact Hvn| |exact Hlen].
      intros cs' [=]. }
  destruct Es as [s Hs], Er as (rows & Hr & Hrb).
  set (totals := map (fun k => series_sum (group_of k vs amounts)) (group_keys vs)).
  set (top10 := qsum (firstn 10 (sort_desc (fun s => s) totals))).
  set (conc := emul (fdiv top10 (series_sum amounts)) 100).
  set (consolidation :=
         match List.filter (fun s => qltb s tail_threshold) totals with
         | [] => []
         | _ => let tail_spend := qsum (List.filter (fun s => qltb s tail_threshold) totals) in
                [Consolidation (length (List.filter (fun s => qltb s tail_threshold) totals))
                   tail_spend (tail_spend * (15 # 100)) (tail_spend * (20 # 100))]
         end).
  assert (Hi : insights t = Ok (app consolidation [Concentration conc top10 (risk_level conc)])).
  { unfold insights, mbind, result_bind, mret, result_ret. rewrite Ev, Ea. reflexivity. }
  exists s, rows, (app consolidation [Concentration conc top10 (risk_level conc)]).
  refine (conj Hs (conj Hr (conj Hi (conj _ (conj _ (conj _ _)))))).
  - intros st df Hd. split; [|split].
    + apply (sheet_from_runs _ _ _ _ (SummarySheet s) _ Hd).
      * cbv beta. rewrite Hs. reflexivity.
      * exact (summary_body_ok t s vs Hs Ev Hvn).
    + apply (sheet_from_runs _ _ _ _ (VendorSheet rows) _ Hd); [|exact Hrb].
      cbv beta. rewrite Hr. reflexivity.
    + apply (sheet_from_runs _ _ _ _ (InsightSheet (app consolidation
               [Concentration conc top10 (risk_level conc)])) _ Hd); [|reflexivity].
      cbv beta. rewrite Hi. reflexivity.
  - apply executive_summary_ok in Hs as (amounts' & vs' & cat & Ea' & Ev' & ->).
    rewrite Ea in Ea'; injection Ea' as <-.
    intros r Hin. simpl in Hin. apply in_map_iff in Hin as ([i [[v x] c]] & <- & _).
    simpl. apply fdiv_zero, Hz.
  - apply vendor_analysis_ok in Hr as (vs' & amounts' & countries & Ev' & Ea' & ->).
    rewrite Ea in Ea'; injection Ea' as <-.
    intros r Hin. apply in_vendor_rows in Hin as (i & k & _ & ->).
    simpl. apply fdiv_zero, Hz.
  - exists conc, (risk_level conc). cbv zeta.
    refine (conj _ (conj _ (risk_level_zero_total top10 _ Hz))).
    + apply in_or_app. right. left. reflexivity.
    + apply emul_not_fin, fdiv_zero, Hz.
Qed.

Lemma zero_total_no_raise_witness :
  series (mk_table 2 [("vendor", [VStr "Vendor A"; VNone]); ("amount", [VNum 0; VNone])])
    "vendor" = Ok [VStr "Vendor A"; VNone] /\
  exists s rows ins,
    executive_summary (mk_table 2 [("vendor", [VStr "Vendor A"; VNone]); ("amount", [VNum 0; VNone])])
      = Ok s /\
    vendor_analysis (mk_table 2 [("vendor", [VStr "Vendor A"; VNone]); ("amount", [VNum 0; VNone])])
      = Ok rows /\
    insights (mk_table 2 [("vendor", [VStr "Vendor A"; VNone]); ("amount", [VNum 0; VNone])])
      = Ok ins.
Proof.
  assert (Ev : series (mk_table 2 [("vendor", [VStr "Vendor A"; VNone]); ("amount", [VNum 0; VNone])])
                 "vendor" = Ok [VStr "Vendor A"; VNone]) by reflexivity.
  assert (Ea : series (mk_table 2 [("vendor", [VStr "Vendor A"; VNone]); ("amount", [VNum 0; VNone])])
                 "amount" = Ok [VNum 0; VNone]) by reflexivity.
  assert (Hv : forallb cell_ok [VStr "Vendor A"; VNone] = true) by (vm_compute; reflexivity).
  assert (Hl : (N.of_nat (S (length [VStr "Vendor A"; VNone])) <= max_rows)%N)
    by (vm_compute; discriminate).
  assert (Hz : series_sum [VNum 0; VNone] == 0) by reflexivity.
  split; [exact Ev|].
  destruct (zero_total_no_raise _ _ _ Ev Ea (fun H => ltac:(discriminate H))
              (fun H => ltac:(discriminate H)) Hv Hl Hz)
    as (s & rows & ins & Hs & Hr & Hi & _).
  exists s, rows, ins. auto.
Defined.

(** C10, counterexample: (1) the refund without a vendor makes the grand
    total 0 while the only vendor has 100; [100 / 0.0] is [inf], which is
    above 80, so the report classifies the concentration risk as High, not
    Low; (2) with a zero total and two columns labelled [category],
    [f"{cat_count:,}"] raises in the executive summary and [load] fails;
    (3) with a zero total and a vendor named [chr(1) + "Vendor A"], openpyxl
    raises IllegalCharacterError when the executive summary writes the name,
    and [load] fails. *)
Lemma zero_total_high_risk :
  series_sum [VNum 100; VNum (-100)] == 0 /\
  fst (load 0 None (Some "report.xlsx") (store_of zero_total_refund)) = Ok "report.xlsx" /\
  (exists ins,
     In (InsightSheet ins)
        (map sheet_body (book (snd (load 0 None (Some "report.xlsx") (store_of zero_total_refund))))) /\
     In (Concentration EPosInf 100 High) ins) /\
  fst (load 0 None (Some "report.xlsx") (store_of zero_total_two_categories))
    = Err (NotOneDimensional "category") /\
  fst (load 0 None (Some "report.xlsx") (store_of control_char_vendor)) = Err WriteError.
Proof.
  split; [reflexivity|]. split; [vm_compute; reflexivity|].
  split; [|split; vm_compute; reflexivity].
  eexists. split.
  - vm_compute. right; right; right; right; left. reflexivity.
  - right. left. reflexivity.
Qed.
